(** * Calculator engine of calculator-gui (src/main.py): a shallow embedding

    The program is a Tk calculator.  Its algorithmic core is
  [CalculatorEngine.evaluate]: two textual rewriting passes built on
  [re.sub] (constant substitution and the degree-mode trig rewrite), a call
  into the SymPy library, and a classification of what SymPy returned.
  Around it sit [solve_equation], the memory register with its JSON file,
  and the history list with its text export.

    Python strings are modelled as [string] (the evaluator input contract is
  ASCII), Python floats as binary64 [float], exceptions as an error monad,
  the SymPy library as a record of operations the engine is parameterised
  by, and the GUI/file state touched by the memory operations as an explicit
  record threaded through each operation. *)

From Stdlib Require Import String Ascii List Bool Arith NArith ZArith Lia Permutation.
From Stdlib Require Import PrimFloat SpecFloat FloatOps.
From Stdlib Require Import DecimalString.
Import ListNotations.

Local Open Scope string_scope.
Local Open Scope bool_scope.

(** ** Python string primitives *)

Module PyStr.

Definition char_in_range (lo hi c : ascii) : bool :=
  (N.leb (N_of_ascii lo) (N_of_ascii c) && N.leb (N_of_ascii c) (N_of_ascii hi))%bool.

(** [\w] of the [re] module, on ASCII text: letters, digits, underscore. *)
Definition is_word_char (c : ascii) : bool :=
  char_in_range "a" "z" c || char_in_range "A" "Z" c
  || char_in_range "0" "9" c || Ascii.eqb c "_".

(** [str.isspace] on ASCII text: TAB..CR, FS..US and the blank. *)
Definition is_space (c : ascii) : bool :=
  char_in_range "009" "013" c || char_in_range "028" "031" c || Ascii.eqb c " ".

Fixpoint all_chars (p : ascii -> bool) (s : string) : bool :=
  match s with
  | EmptyString => true
  | String c rest => p c && all_chars p rest
  end.

Fixpoint drop (n : nat) (s : string) : string :=
  match n, s with
  | O, _ => s
  | S k, EmptyString => EmptyString
  | S k, String _ rest => drop k rest
  end.

(** [s[:n]] *)
Fixpoint take (n : nat) (s : string) : string :=
  match n, s with
  | O, _ => EmptyString
  | S k, EmptyString => EmptyString
  | S k, String c rest => String c (take k rest)
  end.

(** The last character of [s], and [prev] when [s] is empty. *)
Fixpoint last_char (prev : option ascii) (s : string) : option ascii :=
  match s with
  | EmptyString => prev
  | String c rest => last_char (Some c) rest
  end.

(** The longest prefix of [s] whose characters all satisfy [p]. *)
Fixpoint take_while (p : ascii -> bool) (s : string) : string :=
  match s with
  | EmptyString => EmptyString
  | String c rest => if p c then String c (take_while p rest) else EmptyString
  end.

(** [sub in s]: does [sub] occur somewhere in [s]? *)
Fixpoint contains (sub s : string) : bool :=
  String.prefix sub s ||
  match s with
  | EmptyString => false
  | String _ rest => contains sub rest
  end.

(** [s.endswith(c)] for a one-character [c]. *)
Fixpoint ends_with (s : string) (c : ascii) : bool :=
  match s with
  | EmptyString => false
  | String d EmptyString => Ascii.eqb d c
  | String _ rest => ends_with rest c
  end.

(** [sep.join(parts)] *)
Fixpoint join (sep : string) (parts : list string) : string :=
  match parts with
  | [] => ""
  | [p] => p
  | p :: rest => p ++ sep ++ join sep rest
  end.

(** [s.strip()]: whitespace removed at both ends. *)
Fixpoint lstrip (s : string) : string :=
  match s with
  | EmptyString => EmptyString
  | String c rest => if is_space c then lstrip rest else s
  end.

Fixpoint rstrip (s : string) : string :=
  match s with
  | EmptyString => EmptyString
  | String c rest =>
      match rstrip rest with
      | EmptyString => if is_space c then EmptyString else String c EmptyString
      | r => String c r
      end
  end.

Definition strip (s : string) : string := rstrip (lstrip s).


(** [s.split(sep)] for a non-empty separator: the pieces between the
    occurrences of [sep], which are found left to right without overlap.
    [skip] counts the characters of the separator just found that are
    still to be passed over; the head of the answer is the piece being
    read. *)
Fixpoint split_scan (sep : string) (skip : nat) (s : string) : list string :=
  match s with
  | EmptyString => [EmptyString]
  | String c rest =>
      match skip with
      | S k => split_scan sep k rest
      | O =>
          if String.prefix sep s then
            EmptyString :: split_scan sep (String.length sep - 1) rest
          else
            match split_scan sep 0 rest with
            | piece :: pieces => String c piece :: pieces
            | [] => [String c EmptyString]
            end
      end
  end.

Definition split (sep s : string) : list string := split_scan sep 0 s.

End PyStr.

(** ** [re.sub] for the two patterns of the engine *)

Module Re.
Import PyStr.

(** A pattern is given by its matcher: tried at one position, it sees the
    character before that position (for [\b]) and the text from it on, and
    answers with the replacement text and the length of the span it
    matched.  Both patterns of the program only match non-empty spans. *)
Definition matcher := option ascii -> string -> option (string * nat).

(** [scan m skip prev s]: the scan of [re.sub] over [s], left to right.
    [skip] counts the characters of the current match that are still to be
    passed over; when it is [0] the pattern is tried at the position; on
    a match the replacement is emitted and the scan resumes behind the
    span, otherwise the character is copied. *)
Fixpoint scan (m : matcher) (skip : nat) (prev : option ascii) (s : string) : string :=
  match s with
  | EmptyString => EmptyString
  | String c rest =>
      match skip with
      | S k => scan m k (Some c) rest
      | O =>
          match m prev s with
          | Some (repl, len) => repl ++ scan m (len - 1) (Some c) rest
          | None => String c (scan m 0 (Some c) rest)
          end
      end
  end.

Definition sub (m : matcher) (s : string) : string := scan m 0 None s.

Definition is_word_opt (c : option ascii) : bool :=
  match c with
  | Some x => is_word_char x
  | None => false
  end.

(** [\b]: exactly one of the two neighbours is a word character; the ends
    of the text count as non-word. *)
Definition word_boundary (before after : option ascii) : bool :=
  xorb (is_word_opt before) (is_word_opt after).

(** The pattern [r'\b' + name + r'\b'] with a literal replacement. *)
Definition word_pattern (name repl : string) : matcher :=
  fun prev s =>
    if word_boundary prev (String.get 0 s)
       && String.prefix name s
       && word_boundary (String.get (String.length name - 1) s)
                        (String.get (String.length name) s)
    then Some (repl, String.length name)
    else None.

Definition not_rparen (c : ascii) : bool := negb (Ascii.eqb c ")").

(** The pattern [func\(([^\)]+)\)] with the template
    [func(\1 * pi/180)]: the group is the longest run of characters other
    than [')'] behind the opening parenthesis; it must be non-empty and be
    followed by [')']. *)
Definition call_pattern (func : string) : matcher :=
  fun _ s =>
    if String.prefix (func ++ "(") s then
      let after := drop (String.length func + 1) s in
      let arg := take_while not_rparen after in
      match arg, String.get (String.length arg) after with
      | String _ _, Some ")"%char =>
          Some (func ++ "(" ++ arg ++ " * pi/180)",
                String.length func + 1 + String.length arg + 1)
      | _, _ => None
      end
    else None.

End Re.

(** ** Exceptions *)

(** The exception classes of the program ([CalculatorError] and its two
    subclasses) and, by name, those of the libraries it calls.  Everything
    here derives from [Exception], which is what the handlers of the engine
    catch; [exn_msg] is [str(e)]. *)
Inductive ExnClass :=
| CalculatorError
| MathError
| InputError
| LibraryError (name : string).

Record PyExn := mkExn { exn_class : ExnClass; exn_msg : string }.

Inductive result (A : Type) :=
| Ok (a : A)
| Raise (e : PyExn).
Arguments Ok {A} a.
Arguments Raise {A} e.

Definition bind {A B} (r : result A) (k : A -> result B) : result B :=
  match r with
  | Ok a => k a
  | Raise e => Raise e
  end.

(** [try: body  except Exception as e: handler(e)] *)
Definition try_except {A} (body : result A) (handler : PyExn -> result A) : result A :=
  match body with
  | Ok a => Ok a
  | Raise e => handler e
  end.

Notation "x <- c1 ;; c2" := (bind c1 (fun x => c2))
  (at level 61, c1 at next level, right associativity).

(** ** The SymPy library, as the engine uses it *)

(** SymPy is not part of the repository: the engine is parameterised by the
    operations it calls.  [Expr] is the type of SymPy objects.
    [numbers_ComplexNumber] is the attribute [sp.core.numbers.ComplexNumber]
    that [evaluate] reads: [Some] test when the module has a class of that
    name, [None] when the lookup raises [AttributeError].  (The released
    SymPy defines Float, Integer, Rational, ImaginaryUnit and others in
    sympy.core.numbers, and no ComplexNumber.) *)
Record SymPy := {
  Expr : Type;
  sympify : string -> result Expr;
  evalf : Expr -> result Expr;
  is_Float : Expr -> bool;
  is_Integer : Expr -> bool;
  is_Rational : Expr -> bool;
  numbers_ComplexNumber : option (Expr -> bool);
  float_of_expr : Expr -> result float;
  complex_of_expr : Expr -> result (float * float);
  int_of_expr : Expr -> result Z;
  expr_eq_int : Expr -> Z -> bool;
  str_of_expr : Expr -> string;
  symbols : string -> result Expr;
  Integer : Z -> Expr;
  Eq : Expr -> Expr -> result Expr;
  solve : Expr -> Expr -> result (list Expr)
}.

(** What [evaluate] and [solve_equation] hand back: a Python float, a Python
    complex, or the SymPy object itself. *)
Inductive PyValue (sp : SymPy) :=
| PyFloat (f : float)
| PyComplex (re im : float)
| PyExpr (e : Expr sp).
Arguments PyFloat {sp} f.
Arguments PyComplex {sp} re im.
Arguments PyExpr {sp} e.

(** ** CalculatorEngine *)

Inductive AngleMode := radians | degrees.

(** An entry of [self.constants]; [c_text] is [str(c_value)], the text
    [evaluate] substitutes. *)
Record Constant := { c_name : string; c_value : float; c_text : string }.

Record CalculatorEngine := {
  constants : list Constant;
  angle_mode : AngleMode
}.

Module Engine.
Import PyStr.

(** [math.pi] and [math.e], the doubles printed 3.141592653589793 and
    2.718281828459045. *)
Definition math_pi : float := 0x1.921fb54442d18p+1%float.
Definition math_e : float := 0x1.5bf0a8b145769p+1%float.

(** [CalculatorEngine.__init__] *)
Definition init : CalculatorEngine :=
  {| constants :=
       [ {| c_name := "pi"; c_value := math_pi; c_text := "3.141592653589793" |};
         {| c_name := "e"; c_value := math_e; c_text := "2.718281828459045" |};
         {| c_name := "phi"; c_value := ((1 + sqrt 5) / 2)%float;
            c_text := "1.618033988749895" |};
         {| c_name := "tau"; c_value := (2 * math_pi)%float;
            c_text := "6.283185307179586" |};
         {| c_name := "inf"; c_value := infinity; c_text := "inf" |} ];
     angle_mode := radians |}.

Definition set_angle_mode (mode : AngleMode) (self : CalculatorEngine) : CalculatorEngine :=
  {| constants := constants self; angle_mode := mode |}.

(** The loop [for name, value in self.constants.items()] of [evaluate]. *)
Definition substitute_constants (self : CalculatorEngine) (expression : string) : string :=
  fold_left (fun e c => Re.sub (Re.word_pattern (c_name c) (c_text c)) e)
            (constants self) expression.

Definition trig_funcs : list string := ["sin"; "cos"; "tan"; "cot"; "sec"; "csc"].

Definition _handle_special_functions (self : CalculatorEngine) (expression : string) : string :=
  match angle_mode self with
  | degrees => fold_left (fun e func => Re.sub (Re.call_pattern func) e) trig_funcs expression
  | radians => expression
  end.

(** The text [evaluate] passes to [sp.sympify]. *)
Definition preprocess (self : CalculatorEngine) (expression : string) : string :=
  _handle_special_functions self (substitute_constants self expression).

Section WithSymPy.
Context (sp : SymPy).

Definition AttributeError_ComplexNumber : PyExn :=
  mkExn (LibraryError "AttributeError")
        "module 'sympy.core.numbers' has no attribute 'ComplexNumber'".

(** The first three tests of the [isinstance] chain, together. *)
Definition is_real_number (e : Expr sp) : bool :=
  is_Float sp e || is_Integer sp e || is_Rational sp e.

(** The [isinstance] chain of [evaluate]. *)
Definition classify (evaluated : Expr sp) : result (PyValue sp) :=
  if is_Float sp evaluated then
    f <- float_of_expr sp evaluated ;; Ok (PyFloat f)
  else if is_Integer sp evaluated then
    f <- float_of_expr sp evaluated ;; Ok (PyFloat f)
  else if is_Rational sp evaluated then
    f <- float_of_expr sp evaluated ;; Ok (PyFloat f)
  else
    match numbers_ComplexNumber sp with
    | None => Raise AttributeError_ComplexNumber
    | Some is_ComplexNumber =>
        if is_ComplexNumber evaluated then
          c <- complex_of_expr sp evaluated ;; Ok (PyComplex (fst c) (snd c))
        else Ok (PyExpr evaluated)
    end.

(** [sp.sympify(expression).evalf()] followed by the classification. *)
Definition eval_text (text : string) : result (PyValue sp) :=
  parsed <- sympify sp text ;;
  evaluated <- evalf sp parsed ;;
  classify evaluated.

(** SymPy's value of [text] is the real number [x]: the text parses, the
    evaluation gives a Float, an Integer or a Rational, and [float] of it is
    [x].  (A statement on the library's calls, for the hypotheses of the
    numeric examples.) *)
Definition evaluates_to (text : string) (x : float) : Prop :=
  exists parsed evaluated : Expr sp,
    sympify sp text = Ok parsed
    /\ evalf sp parsed = Ok evaluated
    /\ is_real_number evaluated = true
    /\ float_of_expr sp evaluated = Ok x.

(** The body of the [try] block of [evaluate]. *)
Definition evaluate_body (self : CalculatorEngine) (expression : string)
  : result (PyValue sp) :=
  let expression := substitute_constants self expression in
  let expression := _handle_special_functions self expression in
  eval_text expression.

Definition evaluate (self : CalculatorEngine) (expression : string)
  : result (PyValue sp) :=
  try_except (evaluate_body self expression)
    (fun e => Raise (mkExn MathError ("Error evaluating expression: " ++ exn_msg e))).

(** The loop over [solutions]: [float(sol)], and the root itself when
    that raises. *)
Definition coerce_root (sol : Expr sp) : PyValue sp :=
  match float_of_expr sp sol with
  | Ok f => PyFloat f
  | Raise _ => PyExpr sol
  end.



End WithSymPy.
End Engine.

(** ** The Python runtime, as the calculator uses it *)

(** [float(text)] and the [str] of floats and complex numbers are builtins of
    the interpreter; the calculator is parameterised by them. *)
Record PyRuntime := {
  float_of_str : string -> result float;
  str_of_float : float -> string;
  str_of_complex : float -> float -> string
}.

Module PyNum.

(** The tolerance 1e-9 of the comparison of two results, and the
    comparison [abs(x - y) <= 1e-9]. *)
Definition tolerance : float := 0x1.12e0be826d695p-30%float.

Definition close (x y : float) : bool := (abs (x - y) <=? tolerance)%float.

(** [str(n)] for an integer. *)
Definition str_of_int (z : Z) : string := NilZero.string_of_int (Z.to_int z).

Definition signed (neg : bool) (z : Z) : Z := if neg then Z.opp z else z.

(** [int(f)]: truncation towards zero; infinities and NaN raise. *)
Definition int_of_float (f : float) : result Z :=
  match Prim2SF f with
  | S754_zero _ => Ok 0%Z
  | S754_infinity _ =>
      Raise (mkExn (LibraryError "OverflowError") "cannot convert float infinity to integer")
  | S754_nan =>
      Raise (mkExn (LibraryError "ValueError") "cannot convert float NaN to integer")
  | S754_finite neg m e => Ok (signed neg (Z.shiftl (Zpos m) e))
  end.

(** [f == n] for a float and an integer: exact comparison of the two
    numbers. *)
Definition float_eq_int (f : float) (n : Z) : bool :=
  match Prim2SF f with
  | S754_zero _ => Z.eqb n 0
  | S754_finite neg m e =>
      (Z.leb 0 e || Z.eqb (Zpos m mod 2 ^ (- e)) 0)
      && Z.eqb n (signed neg (Z.shiftl (Zpos m) e))
  | _ => false
  end.

End PyNum.

(** ** MemoryManager and the memory and history operations of the window *)

Record MemoryItem := { value : float; expression : string; timestamp : string }.

Record MemoryManager := {
  memory : list MemoryItem;
  memory_register : float;
  history : list string
}.

(** What [save_memory] dumps into calculator_memory.json. *)
Record MemoryData := {
  data_register : float;
  data_items : list (float * string * string)
}.

(** The part of the running program the memory and history operations read
    and write: the manager, the three text fields of the window, the engine,
    and outside the process the memory file, the condition of the file
    system ([io_error = Some msg]: opening the file for writing fails with
    that message) and the log. *)
Record Session := {
  memory_manager : MemoryManager;
  engine : CalculatorEngine;
  display : string;
  result_display : string;
  status_var : string;
  memory_file : option MemoryData;
  io_error : option string;
  log : list string
}.

Module Calculator.
Import PyStr.

Definition with_manager (m : MemoryManager) (s : Session) : Session :=
  {| memory_manager := m; engine := engine s; display := display s;
     result_display := result_display s; status_var := status_var s;
     memory_file := memory_file s; io_error := io_error s; log := log s |}.

Definition with_result_display (t : string) (s : Session) : Session :=
  {| memory_manager := memory_manager s; engine := engine s; display := display s;
     result_display := t; status_var := status_var s;
     memory_file := memory_file s; io_error := io_error s; log := log s |}.

Definition with_status (t : string) (s : Session) : Session :=
  {| memory_manager := memory_manager s; engine := engine s; display := display s;
     result_display := result_display s; status_var := t;
     memory_file := memory_file s; io_error := io_error s; log := log s |}.

Definition with_memory_file (f : option MemoryData) (s : Session) : Session :=
  {| memory_manager := memory_manager s; engine := engine s; display := display s;
     result_display := result_display s; status_var := status_var s;
     memory_file := f; io_error := io_error s; log := log s |}.

Definition logger_error (line : string) (s : Session) : Session :=
  {| memory_manager := memory_manager s; engine := engine s; display := display s;
     result_display := result_display s; status_var := status_var s;
     memory_file := memory_file s; io_error := io_error s; log := log s ++ [line] |}.

Definition set_memory (items : list MemoryItem) (m : MemoryManager) : MemoryManager :=
  {| memory := items; memory_register := memory_register m; history := history m |}.

Definition set_memory_register (v : float) (m : MemoryManager) : MemoryManager :=
  {| memory := memory m; memory_register := v; history := history m |}.

Definition set_history (h : list string) (m : MemoryManager) : MemoryManager :=
  {| memory := memory m; memory_register := memory_register m; history := h |}.

(** The dictionary [memory_data] of [save_memory]. *)
Definition memory_data (m : MemoryManager) : MemoryData :=
  {| data_register := memory_register m;
     data_items := map (fun item => (value item, expression item, timestamp item)) (memory m) |}.

(** [MemoryManager.save_memory] *)
Definition save_memory (s : Session) : Session :=
  match io_error s with
  | None => with_memory_file (Some (memory_data (memory_manager s))) s
  | Some e => logger_error ("Error saving memory: " ++ e) s
  end.

(** [MemoryManager.add_to_memory]; [now] is the formatted clock reading. *)
Definition add_to_memory (now : string) (v : float) (expr : string) (s : Session) : Session :=
  let m := memory_manager s in
  let item := {| value := v; expression := expr; timestamp := now |} in
  save_memory (with_manager (set_memory (memory m ++ [item]) m) s).

(** [MemoryManager.clear_memory] *)
Definition clear_memory (s : Session) : Session :=
  save_memory (with_manager (set_memory [] (memory_manager s)) s).

(** [MemoryManager.add_to_history] *)
Definition add_to_history (expr res : string) (m : MemoryManager) : MemoryManager :=
  let entry := expr ++ " = " ++ res in
  set_history (history m ++ [entry]) m.

(** [MemoryManager.clear_history] *)
Definition clear_history (m : MemoryManager) : MemoryManager := set_history [] m.

Definition newline : ascii := "010"%char.

(** The separator of the history file, two newlines. *)
Definition blank_line : string := String newline (String newline EmptyString).

(** The text [save_history] writes. *)
Definition export_history (m : MemoryManager) : string :=
  join blank_line (history m).

Definition is_blank (entry : string) : bool :=
  match strip entry with
  | EmptyString => true
  | _ => false
  end.

(** The assignment of [load_history] for a file of content [content]. *)
Definition import_history (content : string) (m : MemoryManager) : MemoryManager :=
  set_history
    (filter (fun entry => negb (is_blank entry))
            (split blank_line content)) m.

(** *** The history file

    [save_history] and [load_history] open the file in text mode: on
    writing every newline of the text becomes the line separator of the
    platform, on reading the ends of line CR LF and CR both become a
    newline. *)

Inductive Platform := posix | windows.

Definition carriage_return : ascii := "013"%char.

(** [os.linesep] *)
Definition linesep (p : Platform) : string :=
  match p with
  | posix => String newline EmptyString
  | windows => String carriage_return (String newline EmptyString)
  end.

(** The characters that [f.write(text)] puts in the file. *)
Fixpoint write_text (sep : string) (text : string) : string :=
  match text with
  | EmptyString => EmptyString
  | String c rest =>
      if Ascii.eqb c newline then sep ++ write_text sep rest
      else String c (write_text sep rest)
  end.

(** The text that [f.read()] returns for the characters of the file. *)
Fixpoint read_text (raw : string) : string :=
  match raw with
  | EmptyString => EmptyString
  | String c rest =>
      if Ascii.eqb c carriage_return then
        String newline
          match rest with
          | String d rest' => if Ascii.eqb d newline then read_text rest' else read_text rest
          | EmptyString => EmptyString
          end
      else String c (read_text rest)
  end.

(** [AdvancedCalculator.save_history], when a file is chosen and the
    writing succeeds: the characters of the file, and [None] for the empty
    log, for which nothing is written. *)
Definition save_history (p : Platform) (m : MemoryManager) : option string :=
  match history m with
  | [] => None
  | _ => Some (write_text (linesep p) (export_history m))
  end.

(** [AdvancedCalculator.load_history], when a file is chosen and the
    reading succeeds: the log after it, for the characters of the file. *)
Definition load_history (raw : string) (m : MemoryManager) : MemoryManager :=
  import_history (read_text raw) m.

Section WithRuntime.
Context (py : PyRuntime).

Definition update_register (f : float -> float) (s : Session) : Session :=
  let m := memory_manager s in
  with_manager (set_memory_register (f (memory_register m)) m) s.

(** [AdvancedCalculator.memory_store] *)
Definition memory_store (now : string) (s : Session) : Session :=
  match result_display s with
  | EmptyString => s
  | result_text =>
      match float_of_str py result_text with
      | Raise e => with_status ("Error storing in memory: " ++ exn_msg e) s
      | Ok v =>
          let s := add_to_memory now v (display s) s in
          let s := update_register (fun _ => v) s in
          with_status ("Value " ++ str_of_float py v ++ " stored in memory") s
      end
  end.

(** [AdvancedCalculator.memory_recall]: the text inserted into the display. *)
Definition memory_recall_text (s : Session) : result string :=
  let v := memory_register (memory_manager s) in
  z <- PyNum.int_of_float v ;;
  if PyNum.float_eq_int v z then Ok (PyNum.str_of_int z) else Ok (str_of_float py v).

(** [AdvancedCalculator.memory_add] *)
Definition memory_add (s : Session) : Session :=
  match result_display s with
  | EmptyString => s
  | result_text =>
      match float_of_str py result_text with
      | Raise e => with_status ("Error adding to memory: " ++ exn_msg e) s
      | Ok v =>
          let s := update_register (fun r => (r + v)%float) s in
          with_status ("Added " ++ str_of_float py v ++ " to memory") s
      end
  end.

(** [AdvancedCalculator.memory_subtract] *)
Definition memory_subtract (s : Session) : Session :=
  match result_display s with
  | EmptyString => s
  | result_text =>
      match float_of_str py result_text with
      | Raise e => with_status ("Error subtracting from memory: " ++ exn_msg e) s
      | Ok v =>
          let s := update_register (fun r => (r - v)%float) s in
          with_status ("Subtracted " ++ str_of_float py v ++ " from memory") s
      end
  end.

(** [AdvancedCalculator.memory_clear] *)
Definition memory_clear (s : Session) : Session :=
  let s := update_register (fun _ => 0%float) s in
  let s := clear_memory s in
  with_status "Memory cleared" s.

(** The text [calculate] shows for a result of the engine (the branch
    of the modes other than PROGRAMMER). *)
Definition result_str {sp : SymPy} (r : PyValue sp) : result string :=
  match r with
  | PyComplex re im => Ok (str_of_complex py re im)
  | PyFloat f =>
      z <- PyNum.int_of_float f ;;
      if PyNum.float_eq_int f z then
        z' <- PyNum.int_of_float f ;; Ok (PyNum.str_of_int z')
      else Ok (str_of_float py f)
  | PyExpr e =>
      z <- int_of_expr sp e ;;
      if expr_eq_int sp e z then
        z' <- int_of_expr sp e ;; Ok (PyNum.str_of_int z')
      else Ok (str_of_expr sp e)
  end.

(** [AdvancedCalculator.calculate], outside PROGRAMMER mode. *)
Definition calculate (sp : SymPy) (s : Session) : Session :=
  match display s with
  | EmptyString => s
  | expr =>
      match (r <- Engine.evaluate sp (engine s) expr ;; result_str r) with
      | Ok text =>
          let s := with_result_display text s in
          let s := with_manager (add_to_history expr text (memory_manager s)) s in
          with_status "Calculation complete" s
      | Raise e =>
          let s := with_result_display ("Error: " ++ exn_msg e) s in
          let s := with_status ("Error: " ++ exn_msg e) s in
          logger_error ("Calculation error: " ++ exn_msg e) s
      end
  end.

End WithRuntime.
End Calculator.

(** ** A small SymPy and a small runtime, for running the model *)

Module Toy.

(** Objects: a Float, an Integer, the imaginary unit, complex infinity, a
    symbol, an equation. *)
Inductive expr :=
  | TFloat (f : float)
  | TInteger (z : Z)
  | TImaginary
  | TZoo
  | TSymbol (name : string)
  | TEq (l r : expr).

Definition toy_float (e : expr) : result float :=
  match e with
  | TFloat f => Ok f
  | TInteger z => Ok (SF2Prim (binary_normalize prec emax z 0 false))
  | _ => Raise (mkExn (LibraryError "TypeError") "Cannot convert expression to float")
  end.

(** The texts it knows, with the objects SymPy makes of them; "1/0" is
    complex infinity, as in SymPy, and any other text is a syntax error. *)
Definition known_texts : list (string * expr) :=
  [ ("2+2", TInteger 4);
    ("0", TInteger 0);
    ("x^2 - 4", TSymbol "x**2 - 4");
    ("sqrt(-1)", TImaginary);
    ("piano", TSymbol "piano");
    ("1/0", TZoo);
    ("3.141592653589793", TFloat Engine.math_pi);
    ("sin(90 * pi/180)", TInteger 1);
    ("sin(3.141592653589793/2)", TFloat 1);
    ("sin(0 * pi/180)", TInteger 0);
    ("sin(0)", TInteger 0);
    ("cos(0 * pi/180)", TInteger 1);
    ("cos(0)", TInteger 1);
    ("asin(0.5 * pi/180)", TFloat 0x1.1df55803507aep-7);
    ("asin(0.5)", TFloat 0x1.0c152382d7366p-1) ].

Fixpoint lookup_text (text : string) (table : list (string * expr)) : result expr :=
  match table with
  | [] => Raise (mkExn (LibraryError "SympifyError") "could not parse the text")
  | (t, e) :: rest => if String.eqb text t then Ok e else lookup_text text rest
  end.

Definition toy_sympify (text : string) : result expr := lookup_text text known_texts.

Definition toy_evalf (e : expr) : result expr :=
  match e with
  | TInteger z => x <- toy_float e ;; Ok (TFloat x)
  | _ => Ok e
  end.

Definition toy_solve (eq x : expr) : result (list expr) :=
  match eq with
  | TEq (TSymbol "x**2 - 4") (TInteger 0%Z) => Ok [TInteger (-2); TInteger 2]
  | _ => Ok []
  end.

Definition sympy (complex_class : bool) : SymPy :=
  {| Expr := expr;
     sympify := toy_sympify;
     evalf := toy_evalf;
     is_Float := fun e => match e with TFloat _ => true | _ => false end;
     is_Integer := fun e => match e with TInteger _ => true | _ => false end;
     is_Rational := fun e => match e with TInteger _ => true | _ => false end;
     numbers_ComplexNumber :=
       if complex_class
       then Some (fun e => match e with TImaginary => true | _ => false end)
       else None;
     float_of_expr := toy_float;
     complex_of_expr := fun e =>
       match e with
       | TImaginary => Ok (0%float, 1%float)
       | _ => x <- toy_float e ;; Ok (x, 0%float)
       end;
     int_of_expr := fun e =>
       match e with
       | TInteger z => Ok z
       | _ => Raise (mkExn (LibraryError "TypeError") "Cannot convert to int")
       end;
     expr_eq_int := fun e z => match e with TInteger y => Z.eqb y z | _ => false end;
     str_of_expr := fun e => match e with TSymbol n => n | _ => "?" end;
     symbols := fun name => Ok (TSymbol name);
     Integer := TInteger;
     Eq := fun l r => Ok (TEq l r);
     solve := toy_solve |}.

(** [float] reads "5" and nothing else. *)
Definition runtime : PyRuntime :=
  {| float_of_str := fun t =>
       if String.eqb t "5" then Ok 5%float
       else Raise (mkExn (LibraryError "ValueError") "could not convert string to float");
     str_of_float := fun _ => "<float>";
     str_of_complex := fun _ _ => "<complex>" |}.

Definition manager : MemoryManager :=
  {| memory := []; memory_register := 0%float; history := [] |}.

(** A session that shows the result 5 of the expression 2+3, with a memory
    file that holds the register 0 and no item, and a working file
    system. *)
Definition session : Session :=
  {| memory_manager := manager;
     engine := Engine.init;
     display := "2+3";
     result_display := "5";
     status_var := "";
     memory_file := Some {| data_register := 0%float; data_items := [] |};
     io_error := None;
     log := [] |}.

End Toy.

(** ** Vocabulary of the statements *)

Module Shape.
Import PyStr.

(** [occurs m prev s]: the pattern matches at some position of [s]. *)
Fixpoint occurs (m : Re.matcher) (prev : option ascii) (s : string) : bool :=
  match s with
  | EmptyString => false
  | String c rest =>
      match m prev s with
      | Some _ => true
      | None => occurs m (Some c) rest
      end
  end.

(** The expression mentions a constant: one of the names of the table
    stands in it as a whole word. *)
Definition mentions_constant (self : CalculatorEngine) (expression : string) : bool :=
  existsb (fun c => occurs (Re.word_pattern (c_name c) (c_text c)) None expression)
          (constants self).


(** An identifier: a non-empty run of word characters. *)
Definition is_identifier (s : string) : bool :=
  match s with
  | EmptyString => false
  | _ => all_chars is_word_char s
  end.

Definition is_constant_name (self : CalculatorEngine) (s : string) : bool :=
  existsb (fun c => String.eqb (c_name c) s) (constants self).

Definition is_paren (c : ascii) : bool := Ascii.eqb c "(" || Ascii.eqb c ")".

Definition paren_free (s : string) : bool := all_chars (fun c => negb (is_paren c)) s.

Definition is_trig_func (func : string) : bool :=
  existsb (String.eqb func) Engine.trig_funcs.

(** An expression read as a sequence of pieces: ordinary characters, and
    calls [func(arg)]. *)
Inductive piece :=
| Chr (c : ascii)
| Call (func arg : string).

Definition render_piece (p : piece) : string :=
  match p with
  | Chr c => String c EmptyString
  | Call func arg => func ++ "(" ++ arg ++ ")"
  end.

Fixpoint render (ps : list piece) : string :=
  match ps with
  | [] => EmptyString
  | p :: rest => render_piece p ++ render rest
  end.

(** The text starts with a trig name and an opening parenthesis. *)
Definition starts_call (s : string) : bool :=
  existsb (fun func => String.prefix (func ++ "(") s) Engine.trig_funcs.

(** The reading accounts for every trig call of the expression, and no call
    has a parenthesis inside its argument: each [Call] is a call of one of
    the six functions with a non-empty argument free of parentheses, and
    where the reading has an ordinary character the text does not start a
    trig call. *)
Fixpoint flat (ps : list piece) : bool :=
  match ps with
  | [] => true
  | Chr c :: rest => negb (starts_call (String c (render rest))) && flat rest
  | Call func arg :: rest =>
      is_trig_func func && negb (String.eqb arg "") && paren_free arg && flat rest
  end.

Definition degree_factor : string := " * pi/180".

(** The rewriting the degree mode is meant to perform: [func(arg)] becomes
    [func(arg * pi/180)]. *)
Definition to_degrees (p : piece) : piece :=
  match p with
  | Chr c => Chr c
  | Call func arg => Call func (arg ++ degree_factor)
  end.

(** What one pass of the degree rewrite, the one of [func], does to a
    piece. *)
Definition rewrite_call (func : string) (p : piece) : piece :=
  match p with
  | Chr c => Chr c
  | Call f arg => if String.eqb f func then Call f (arg ++ degree_factor) else Call f arg
  end.

(** [repeat_factor k]: the factor written [k] times. *)
Fixpoint repeat_factor (k : nat) : string :=
  match k with
  | O => EmptyString
  | S k' => degree_factor ++ repeat_factor k'
  end.

(** [Scan m prev s t]: the run of [re.sub] over [s], as a derivation: the
    end of the text, a position where the pattern does not match, or a match
    of span [u] replaced by [repl]. *)
Inductive Scan (m : Re.matcher) : option ascii -> string -> string -> Prop :=
| Scan_end prev : Scan m prev EmptyString EmptyString
| Scan_copy prev c rest t :
  m prev (String c rest) = None ->
  Scan m (Some c) rest t ->
  Scan m prev (String c rest) (String c t)
| Scan_match prev c u v repl t :
  m prev (String c (u ++ v)) = Some (repl, S (String.length u)) ->
  Scan m (last_char (Some c) u) v t ->
  Scan m prev (String c (u ++ v)) (repl ++ t).

(** [Inserted s t]: [t] is [s] with the factor written in front of some of
    its closing parentheses. *)
Inductive Inserted : string -> string -> Prop :=
| Ins_end : Inserted EmptyString EmptyString
| Ins_copy c s t : Inserted s t -> Inserted (String c s) (String c t)
| Ins_factor s t :
  Inserted s t -> Inserted (String ")" s) (degree_factor ++ String ")" t).

(** [s] holds the call [name(arg)] with at least [n] factors written behind
    [arg], between a text of at least [lpre] and a text of at least [lpost]
    characters. *)
Definition holds_call (name arg : string) (lpre lpost n : nat) (s : string) : Prop :=
  exists (pre' post' : string) (j : nat),
    n <= j
    /\ s = pre' ++ (name ++ "(" ++ arg ++ repeat_factor j) ++ String ")" post'
    /\ lpre <= String.length pre'
    /\ lpost <= String.length post'.

(** The text of [s] behind its last closing parenthesis ([s] itself when
    it has none). *)
Fixpoint open_segment (s : string) : string :=
  match s with
  | EmptyString => EmptyString
  | String c rest => if all_chars Re.not_rparen s then s else open_segment rest
  end.

Fixpoint count_rparen (s : string) : nat :=
  match s with
  | EmptyString => 0
  | String c rest => (if Ascii.eqb c ")" then 1 else 0) + count_rparen rest
  end.

(** A call of [g] opens in [w]: [g(] stands in it with something behind. *)
Fixpoint opens (g w : string) : bool :=
  match w with
  | EmptyString => false
  | String c rest =>
      (String.prefix (g ++ "(") w && (Nat.ltb (String.length g + 1) (String.length w)))
      || opens g rest
  end.

(** A text that is empty or ends with a closing parenthesis. *)
Definition closed (P : string) : Prop := P = "" \/ exists P0, P = P0 ++ ")".

Definition no_lparen (c : ascii) : bool := negb (Ascii.eqb c "(").

(** The text [T] holds the call [a<f>(arg] with the factor written [j]
    times behind [arg], in front of a closing parenthesis; before the call
    stand a closed text with the closing parentheses of [P0], not shorter
    than it, and [seg]; behind the call a text not shorter than [post]. *)
Definition at_call (f arg seg P0 post : string) (j : nat) (T : string) : Prop :=
  exists P' Q',
    T = P' ++ (seg ++ ("a" ++ f ++ "(") ++ arg ++ repeat_factor j) ++ String ")" Q'
    /\ closed P'
    /\ count_rparen P' = count_rparen P0
    /\ String.length P0 <= String.length P'
    /\ String.length post <= String.length Q'.

(** The trig names [g] for which [g(] stands between the last closing
    parenthesis of [pre] and the opening parenthesis of the call [name(]
    that follows [pre]: the calls that are open where the argument of
    [name(] begins, that of the trig name at the end of [name] among
    them. *)
Definition open_calls (pre name : string) : list string :=
  filter (fun g => contains (g ++ "(") (open_segment pre ++ name ++ "("))
         Engine.trig_funcs.

End Shape.

(** ** Words and separators of an expression *)

Module Words.
Import PyStr.

(** A text read as its maximal runs of word characters and the characters
    between them. *)
Inductive token :=
| Word (w : string)
| Sep (c : ascii).

Definition token_text (t : token) : string :=
  match t with
  | Word w => w
  | Sep c => String c EmptyString
  end.

Fixpoint untokenize (ts : list token) : string :=
  match ts with
  | [] => EmptyString
  | t :: rest => token_text t ++ untokenize rest
  end.

Fixpoint tokenize (s : string) : list token :=
  match s with
  | EmptyString => []
  | String c rest =>
      if is_word_char c then
        match tokenize rest with
        | Word w :: ts => Word (String c w) :: ts
        | ts => Word (String c EmptyString) :: ts
        end
      else Sep c :: tokenize rest
  end.

Definition starts_with_word (ts : list token) : bool :=
  match ts with
  | Word _ :: _ => true
  | _ => false
  end.

(** The words are non-empty runs of word characters, no two of them are
    adjacent, and the separators are not word characters. *)
Fixpoint tokens_ok (ts : list token) : bool :=
  match ts with
  | [] => true
  | Word w :: rest =>
      negb (String.eqb w "") && all_chars is_word_char w
      && negb (starts_with_word rest) && tokens_ok rest
  | Sep c :: rest => negb (is_word_char c) && tokens_ok rest
  end.

(** What one pass of the constant loop does to a token: the word that is
    the name becomes the tokens of the replacement text. *)
Definition replace_token (name : string) (repl : list token) (t : token) : list token :=
  match t with
  | Word w => if String.eqb w name then repl else [Word w]
  | Sep c => [Sep c]
  end.

Definition replace_tokens (name : string) (repl : list token) (ts : list token) : list token :=
  flat_map (replace_token name repl) ts.

(** The passes of the table, one after the other, on tokens. *)
Definition substitute_tokens (self : CalculatorEngine) (ts : list token) : list token :=
  fold_left (fun ts c => replace_tokens (c_name c) (tokenize (c_text c)) ts)
            (constants self) ts.

(** The text a word is replaced with: the text of the constant of that
    name, and the word itself when the table has none. *)
Definition constant_text (self : CalculatorEngine) (w : string) : string :=
  match find (fun c => String.eqb (c_name c) w) (constants self) with
  | Some c => c_text c
  | None => w
  end.

(** The expression with every word that is a constant name replaced. *)
Fixpoint substitute_words (self : CalculatorEngine) (ts : list token) : string :=
  match ts with
  | [] => EmptyString
  | Word w :: rest => constant_text self w ++ substitute_words self rest
  | Sep c :: rest => String c (substitute_words self rest)
  end.

End Words.

(** ** The history file, entry by entry *)

Module HistoryShape.
Import PyStr Calculator.

(** The entries that the export separates unambiguously: none contains the
    separator, none is blank, and none but the last ends with a newline. *)
Fixpoint separable (entries : list string) : bool :=
  match entries with
  | [] => true
  | e :: rest =>
      negb (contains blank_line e) && negb (is_blank e)
      && match rest with
         | [] => true
         | _ => negb (ends_with e newline) && separable rest
         end
  end.

(** The pieces of a split: none contains the separator, and none but the
    last ends with a newline. *)
Fixpoint pieces_ok (pieces : list string) : bool :=
  match pieces with
  | [] => true
  | p :: rest =>
      negb (contains blank_line p)
      && match rest with
         | [] => true
         | _ => negb (ends_with p newline) && pieces_ok rest
         end
  end.

(** No carriage return in the text. *)
Definition no_carriage_return (s : string) : bool :=
  all_chars (fun c => negb (Ascii.eqb c carriage_return)) s.

(** A text of one line: no newline and no carriage return in it. *)
Definition single_line (s : string) : bool :=
  all_chars (fun c => negb (Ascii.eqb c newline) && negb (Ascii.eqb c carriage_return)) s.

(** The log after [add_to_history] has been called for each pair of an
    expression and its result, in their order. *)
Definition record_all (records : list (string * string)) (m : MemoryManager) : MemoryManager :=
  fold_left (fun m r => add_to_history (fst r) (snd r) m) records m.

End HistoryShape.

(** ** Start of the program: MemoryManager.__init__ and load_memory *)

Module Startup.
Import Calculator.

(** [MemoryItem(value, expr, timestamp)] for an item of the file. *)
Definition item_of_data (t : float * string * string) : MemoryItem :=
  let '(v, e, ts) := t in {| value := v; expression := e; timestamp := ts |}.

(** What [load_memory] finds in calculator_memory.json, when the file
    exists.  [Unreadable msg]: opening the file, [json.load] or the lookup
    of the register raises with that message.  [Readable register items]:
    the content is a JSON object, [register] is what
    [memory_data.get('memory_register', 0)] gives, and [items] what the list
    comprehension over [memory_data.get('memory_items', [])] gives: the
    triples, or the exception of the first item that does not unpack. *)
Inductive MemoryFile :=
| Unreadable (msg : string)
| Readable (register : float) (items : result (list (float * string * string))).

(** The file as [save_memory] leaves it. *)
Definition stored_file (s : Session) : option MemoryFile :=
  match memory_file s with
  | Some data => Some (Readable (data_register data) (Ok (data_items data)))
  | None => None
  end.

(** [MemoryManager.load_memory]: the register is assigned before the items
    are unpacked, and the handler logs whatever is raised. *)
Definition load_memory (file : option MemoryFile) (s : Session) : Session :=
  match file with
  | None => s
  | Some (Unreadable msg) => logger_error ("Error loading memory: " ++ msg) s
  | Some (Readable register items) =>
      let s := with_manager (set_memory_register register (memory_manager s)) s in
      match items with
      | Ok triples =>
          with_manager (set_memory (map item_of_data triples) (memory_manager s)) s
      | Raise e => logger_error ("Error loading memory: " ++ exn_msg e) s
      end
  end.

(** [MemoryManager.__init__]: the fresh manager of a program that starts
    with [file] on the disk, in the session [s]. *)
Definition new_manager (file : option MemoryFile) (s : Session) : Session :=
  load_memory file
    (with_manager {| memory := []; memory_register := 0%float; history := [] |} s).

End Startup.

(** ** The entry field and the operations that edit it *)

(** The window: the session, and of the entry field [display] the
    insertion cursor and the selected range, if any. *)
Record Window := {
  win_session : Session;
  win_cursor : nat;
  win_selection : option (nat * nat);
  win_operation_pressed : bool
}.

Module Editing.
Import PyStr Calculator.

Definition with_display (t : string) (s : Session) : Session :=
  {| memory_manager := memory_manager s; engine := engine s; display := t;
     result_display := result_display s; status_var := status_var s;
     memory_file := memory_file s; io_error := io_error s; log := log s |}.

Definition with_session (s : Session) (w : Window) : Window :=
  {| win_session := s; win_cursor := win_cursor w; win_selection := win_selection w;
     win_operation_pressed := win_operation_pressed w |}.

(** [display.delete(0, END); display.insert(0, text); display.icursor(pos)]:
    the text is replaced, the selection is gone, and the cursor is set, not
    beyond the end of the text. *)
Definition set_display (text : string) (pos : nat) (w : Window) : Window :=
  {| win_session := with_display text (win_session w);
     win_cursor := Nat.min pos (String.length text);
     win_selection := None;
     win_operation_pressed := win_operation_pressed w |}.

(** The characters after which [evaluate_as_you_type] waits. *)
Definition waiting_chars : list ascii := ["+"; "-"; "*"; "/"; "^"; "("; "%"]%char.

Section WithLibraries.
Context (py : PyRuntime) (sp : SymPy).

(** [AdvancedCalculator.evaluate_as_you_type] *)
Definition evaluate_as_you_type (s : Session) : Session :=
  match strip (display s) with
  | EmptyString => with_result_display "" s
  | expr =>
      match last_char None expr with
      | Some c =>
          if existsb (Ascii.eqb c) waiting_chars then s
          else
            match (r <- Engine.evaluate sp (engine s) expr ;; result_str py r) with
            | Ok text => with_result_display text s
            | Raise _ => with_result_display "" s
            end
      | None => s
      end
  end.

Definition refresh (w : Window) : Window :=
  with_session (evaluate_as_you_type (win_session w)) w.

(** [AdvancedCalculator.add_to_display] *)
Definition add_to_display (text : string) (w : Window) : Window :=
  let current_text := display (win_session w) in
  let cursor_position := win_cursor w in
  let pressed := existsb (String.eqb text) ["+"; "-"; "*"; "/"; "^"; "%"] in
  let new_text := take cursor_position current_text ++ text
                  ++ drop cursor_position current_text in
  let w := set_display new_text (cursor_position + String.length text) w in
  refresh {| win_session := win_session w; win_cursor := win_cursor w;
             win_selection := win_selection w; win_operation_pressed := pressed |}.

(** [AdvancedCalculator.backspace] *)
Definition backspace (w : Window) : Window :=
  let current_text := display (win_session w) in
  let cursor_position := win_cursor w in
  match cursor_position with
  | O => w
  | S before =>
      let new_text := take before current_text ++ drop cursor_position current_text in
      refresh (set_display new_text before w)
  end.

(** [AdvancedCalculator.insert_function] *)
Definition insert_function (func_name : string) (w : Window) : Window :=
  let current_text := display (win_session w) in
  let cursor_position := win_cursor w in
  match win_selection w with
  | Some (first, last) =>
      let selected := take (last - first) (drop first current_text) in
      let current_text := take first current_text ++ drop last current_text in
      let cursor_position := first in
      let new_text := take cursor_position current_text
                      ++ (func_name ++ "(" ++ selected ++ ")")
                      ++ drop cursor_position current_text in
      refresh (set_display new_text cursor_position w)
  | None =>
      let new_text := take cursor_position current_text ++ (func_name ++ "()")
                      ++ drop cursor_position current_text in
      let cursor_position := cursor_position + String.length func_name + 1 in
      refresh (set_display new_text cursor_position w)
  end.

(** The text of a float in [negate] and [memory_recall]: the integer when
    the float is one. *)
Definition number_text (v : float) : result string :=
  z <- PyNum.int_of_float v ;;
  if PyNum.float_eq_int v z then z' <- PyNum.int_of_float v ;; Ok (PyNum.str_of_int z')
  else Ok (str_of_float py v).

(** [except ValueError]: the handler takes the exceptions of that class. *)
Definition is_ValueError (e : PyExn) : bool :=
  match exn_class e with
  | LibraryError name => String.eqb name "ValueError"
  | _ => false
  end.

(** [AdvancedCalculator.negate].  With a selection, [float(selection)] and
    the comparison with [int(negated)] are both inside the inner [try]: a
    ValueError of either (a text that is no number, or one that reads as NaN)
    gives the parenthesised form; what else is raised there (the
    OverflowError of [int] for an infinity) is caught by neither handler and
    leaves [negate]. *)
Definition negate (w : Window) : result Window :=
  let current_text := display (win_session w) in
  match win_selection w with
  | Some (first, last) =>
      let selected := take (last - first) (drop first current_text) in
      match (v <- float_of_str py selected ;; number_text (- v)%float) with
      | Ok negated_text =>
          let new_text := take first current_text ++ negated_text ++ drop last current_text in
          Ok (refresh (set_display new_text (first + String.length negated_text) w))
      | Raise e =>
          if is_ValueError e then
            let wrapped := "-(" ++ selected ++ ")" in
            let new_text := take first current_text ++ wrapped ++ drop last current_text in
            Ok (refresh (set_display new_text (first + String.length wrapped) w))
          else Raise e
      end
  | None =>
      match current_text with
      | String "-" rest =>
          Ok (refresh {| win_session := with_display rest (win_session w);
                         win_cursor := win_cursor w - 1;
                         win_selection := None;
                         win_operation_pressed := win_operation_pressed w |})
      | _ =>
          Ok (refresh {| win_session := with_display (String "-" current_text) (win_session w);
                         win_cursor := win_cursor w + 1;
                         win_selection := None;
                         win_operation_pressed := win_operation_pressed w |})
      end
  end.

(** [AdvancedCalculator.memory_recall] *)
Definition memory_recall (w : Window) : Window :=
  let s := win_session w in
  let v := memory_register (memory_manager s) in
  let current_text := display s in
  let cursor_position := win_cursor w in
  match number_text v with
  | Ok insert_text =>
      let new_text := take cursor_position current_text ++ insert_text
                      ++ drop cursor_position current_text in
      let w := set_display new_text (cursor_position + String.length insert_text) w in
      let w := with_session
                 (with_status ("Recalled value " ++ str_of_float py v ++ " from memory")
                    (win_session w)) w in
      refresh w
  | Raise e =>
      with_session (with_status ("Error recalling from memory: " ++ exn_msg e) s) w
  end.

End WithLibraries.
End Editing.

(** ** PROGRAMMER mode *)

(** The interpreter's [eval], [int], [hex], [oct] and [bin], as [calculate]
    uses them in PROGRAMMER mode. *)
Record PyEval := {
  Obj : Type;
  py_eval : string -> result Obj;
  int_of_obj : Obj -> result Z;
  py_hex : Z -> string;
  py_oct : Z -> string;
  py_bin : Z -> string
}.

Module Programmer.
Import PyStr Calculator.

(** The class [0-9A-Fa-f+\-*/&|^~%<>()\s]. *)
Definition allowed_char (c : ascii) : bool :=
  char_in_range "0" "9" c || char_in_range "A" "F" c || char_in_range "a" "f" c
  || existsb (Ascii.eqb c) ["+"; "-"; "*"; "/"; "&"; "|"; "^"; "~"; "%"; "<"; ">"; "("; ")"]%char
  || is_space c.

(** The pattern [[^0-9A-Fa-f+\-*/&|^~%<>()\s]] with the empty
    replacement. *)
Definition disallowed_pattern : Re.matcher :=
  fun _ s =>
    match s with
    | String c _ => if allowed_char c then None else Some (EmptyString, 1)
    | EmptyString => None
    end.

Definition safe_expr (expression : string) : string := Re.sub disallowed_pattern expression.

(** The characters of [s] that satisfy [p], in their order. *)
Fixpoint keep (p : ascii -> bool) (s : string) : string :=
  match s with
  | EmptyString => EmptyString
  | String c rest => if p c then String c (keep p rest) else keep p rest
  end.

Section WithEval.
Context (ev : PyEval).

(** The text of the result in the number system selected. *)
Definition programmer_result_str (number_system expression : string) : result string :=
  r <- py_eval ev (safe_expr expression) ;;
  n <- int_of_obj ev r ;;
  if String.eqb number_system "HEX" then Ok (py_hex ev n)
  else if String.eqb number_system "OCT" then Ok (py_oct ev n)
  else if String.eqb number_system "BIN" then Ok (py_bin ev n)
  else Ok (PyNum.str_of_int n).

(** [AdvancedCalculator.calculate] in PROGRAMMER mode. *)
Definition calculate_programmer (number_system : string) (s : Session) : Session :=
  match display s with
  | EmptyString => s
  | expr =>
      match programmer_result_str number_system expr with
      | Ok text =>
          let s := with_result_display text s in
          let s := with_manager (add_to_history expr text (memory_manager s)) s in
          with_status "Calculation complete" s
      | Raise e =>
          let s := with_result_display ("Error: " ++ exn_msg e) s in
          let s := with_status ("Error: " ++ exn_msg e) s in
          logger_error ("Calculation error: " ++ exn_msg e) s
      end
  end.

End WithEval.
End Programmer.

(** ** A small window and interpreter, for running the editing functions *)

Module ToyWindow.

(** The entry field shows 2+3 with the cursor at its end and nothing
    selected. *)
Definition window : Window :=
  {| win_session := Toy.session; win_cursor := 3; win_selection := None;
     win_operation_pressed := false |}.

(** The same with the whole text selected. *)
Definition selected : Window :=
  {| win_session := Toy.session; win_cursor := 3; win_selection := Some (0, 3);
     win_operation_pressed := false |}.

(** [eval] knows the text 1+2 and nothing else. *)
Definition evaluator : PyEval :=
  {| Obj := Z;
     py_eval := fun t =>
       if String.eqb t "1+2" then Ok 3%Z
       else Raise (mkExn (LibraryError "SyntaxError") "invalid syntax");
     int_of_obj := fun n => Ok n;
     py_hex := fun _ => "<hex>";
     py_oct := fun _ => "<oct>";
     py_bin := fun _ => "<bin>" |}.

End ToyWindow.

(** * Properties *)

(** ** Strings *)

Module StrFacts.
Import PyStr.

Lemma append_nil_r (s : string) : s ++ "" = s.
Proof. induction s as [|c s IH]; simpl; [reflexivity|now rewrite IH]. Qed.

Lemma append_assoc (a b c : string) : (a ++ b) ++ c = a ++ (b ++ c).
Proof. induction a as [|x a IH]; simpl; [reflexivity|now rewrite IH]. Qed.

Lemma length_append (a b : string) :
  String.length (a ++ b) = String.length a + String.length b.
Proof. induction a as [|x a IH]; simpl; [reflexivity|now rewrite IH]. Qed.

Lemma take_drop (n : nat) (s : string) : take n s ++ drop n s = s.
Proof.
  revert s; induction n as [|n IH]; intros [|c s]; simpl; try reflexivity.
  now rewrite IH.
Qed.

Lemma length_take (n : nat) (s : string) :
  n <= String.length s -> String.length (take n s) = n.
Proof.
  revert s; induction n as [|n IH]; intros [|c s]; simpl; intros H; try reflexivity.
  - lia.
  - rewrite IH; [reflexivity|lia].
Qed.

Lemma prefix_nil (s : string) : String.prefix "" s = true.
Proof. destruct s; reflexivity. Qed.

Lemma prefix_cons (a b : ascii) (p s : string) :
  String.prefix (String a p) (String b s) = Ascii.eqb a b && String.prefix p s.
Proof.
  simpl. destruct (ascii_dec a b) as [->|Hne].
  - now rewrite Ascii.eqb_refl.
  - apply Ascii.eqb_neq in Hne. now rewrite Hne.
Qed.

Lemma prefix_split (p s : string) :
  String.prefix p s = true <-> exists t, s = p ++ t.
Proof.
  revert s; induction p as [|a p IH]; intros s.
  - rewrite prefix_nil. split; [exists s; reflexivity|reflexivity].
  - destruct s as [|b s].
    + simpl. split; [discriminate|intros [t Ht]; discriminate].
    + rewrite prefix_cons, andb_true_iff, Ascii.eqb_eq, IH. split.
      * intros [-> [t ->]]. exists t. reflexivity.
      * intros [t Ht]. simpl in Ht. inversion Ht. split; [reflexivity|eauto].
Qed.


Lemma prefix_length (p s : string) :
  String.prefix p s = true -> String.length p <= String.length s.
Proof.
  intros H. apply prefix_split in H as [t ->]. rewrite length_append. lia.
Qed.

Lemma contains_prefix (p s : string) : String.prefix p s = true -> contains p s = true.
Proof. intros H. destruct s; simpl in *; rewrite H; reflexivity. Qed.

Lemma contains_cons (p : string) (c : ascii) (s : string) :
  contains p s = true -> contains p (String c s) = true.
Proof. intros H. simpl. rewrite H. apply orb_true_r. Qed.

Lemma contains_append (p a b : string) : contains p (a ++ p ++ b) = true.
Proof.
  induction a as [|c a IH].
  - apply contains_prefix, prefix_split. exists b. reflexivity.
  - simpl append. now apply contains_cons.
Qed.

Lemma contains_false_cons (p : string) (c : ascii) (s : string) :
  contains p (String c s) = false ->
  String.prefix p (String c s) = false /\ contains p s = false.
Proof. simpl contains. intros H. now apply orb_false_iff in H. Qed.

Lemma all_chars_append (p : ascii -> bool) (a b : string) :
  all_chars p (a ++ b) = all_chars p a && all_chars p b.
Proof.
  induction a as [|c a IH]; simpl; [reflexivity|].
  now rewrite IH, andb_assoc.
Qed.

Lemma all_chars_get (p : ascii -> bool) (s : string) (n : nat) (c : ascii) :
  all_chars p s = true -> String.get n s = Some c -> p c = true.
Proof.
  revert n; induction s as [|d s IH]; intros n; simpl; [discriminate|].
  intros H. apply andb_true_iff in H as [Hd Hs].
  destruct n as [|n]; [intros E; inversion E; subst; assumption|eauto].
Qed.

Lemma get_append_at (a b : string) (n : nat) :
  String.get (String.length a + n) (a ++ b) = String.get n b.
Proof. induction a as [|c a IH]; simpl; [reflexivity|exact IH]. Qed.

Lemma get_append_length (a b : string) :
  String.get (String.length a) (a ++ b) = String.get 0 b.
Proof. induction a as [|c a IH]; simpl; [reflexivity|exact IH]. Qed.

Lemma get_append_before (a b : string) (n : nat) :
  n < String.length a -> String.get n (a ++ b) = String.get n a.
Proof.
  revert n; induction a as [|c a IH]; intros n; simpl; [lia|].
  destruct n as [|n]; [reflexivity|]. intros H. apply IH. lia.
Qed.

Lemma get_some (s : string) (n : nat) :
  n < String.length s -> exists c, String.get n s = Some c.
Proof.
  revert n; induction s as [|d s IH]; intros n; simpl; [lia|].
  destruct n as [|n]; [eauto|]. intros H. apply IH. lia.
Qed.

Lemma take_while_append (p : ascii -> bool) (a : string) (c : ascii) (b : string) :
  all_chars p a = true -> p c = false ->
  take_while p (a ++ String c b) = a.
Proof.
  intros Ha Hc. induction a as [|d a IH]; simpl in *.
  - now rewrite Hc.
  - apply andb_true_iff in Ha as [Hd Ha]. rewrite Hd, IH; [reflexivity|assumption].
Qed.

Lemma take_while_all (p : ascii -> bool) (s : string) : all_chars p (take_while p s) = true.
Proof.
  induction s as [|c s IH]; simpl; [reflexivity|].
  destruct (p c) eqn:E; simpl; [now rewrite E|reflexivity].
Qed.

Lemma take_while_split (p : ascii -> bool) (s : string) :
  s = take_while p s ++ drop (String.length (take_while p s)) s.
Proof.
  induction s as [|c s IH]; simpl; [reflexivity|].
  destruct (p c); simpl; [now rewrite <- IH|reflexivity].
Qed.

Lemma drop_append (a b : string) : drop (String.length a) (a ++ b) = b.
Proof. induction a as [|c a IH]; simpl; [now destruct b|exact IH]. Qed.

Lemma last_char_append (prev : option ascii) (a b : string) :
  last_char prev (a ++ b) = last_char (last_char prev a) b.
Proof. revert prev; induction a as [|c a IH]; intros prev; simpl; [reflexivity|apply IH]. Qed.

End StrFacts.

(** ** The scan of [re.sub] *)

Module ScanFacts.
Import PyStr StrFacts Shape.

Lemma scan_skip (m : Re.matcher) (u v : string) (prev : option ascii) :
  Re.scan m (String.length u) prev (u ++ v) = Re.scan m 0 (last_char prev u) v.
Proof.
  revert prev; induction u as [|c u IH]; intros prev; simpl.
  - destruct v; reflexivity.
  - apply IH.
Qed.

(** Where the pattern matches nowhere, [re.sub] returns its input. *)
Lemma scan_no_occurrence (m : Re.matcher) (s : string) (prev : option ascii) :
  occurs m prev s = false -> Re.scan m 0 prev s = s.
Proof.
  revert prev; induction s as [|c s IH]; intros prev; simpl; [reflexivity|].
  destruct (m prev (String c s)) as [[repl len]|]; [discriminate|].
  intros H. now rewrite IH.
Qed.

Lemma sub_no_occurrence (m : Re.matcher) (s : string) :
  occurs m None s = false -> Re.sub m s = s.
Proof. apply scan_no_occurrence. Qed.

End ScanFacts.

(** ** The classification of [evaluate] *)

Section Classification.
Context (sp : SymPy).

Lemma classify_real (e : Expr sp) :
  Engine.is_real_number sp e = true ->
  Engine.classify sp e = (f <- float_of_expr sp e ;; Ok (PyFloat f)).
Proof.
  unfold Engine.is_real_number, Engine.classify.
  destruct (is_Float sp e); [reflexivity|].
  destruct (is_Integer sp e); [reflexivity|].
  destruct (is_Rational sp e); [reflexivity|discriminate].
Qed.

Lemma classify_other (e : Expr sp) :
  Engine.is_real_number sp e = false ->
  Engine.classify sp e =
    match numbers_ComplexNumber sp with
    | None => Raise Engine.AttributeError_ComplexNumber
    | Some is_ComplexNumber =>
        if is_ComplexNumber e then
          c <- complex_of_expr sp e ;; Ok (PyComplex (fst c) (snd c))
        else Ok (PyExpr e)
    end.
Proof.
  unfold Engine.is_real_number, Engine.classify.
  destruct (is_Float sp e); [discriminate|].
  destruct (is_Integer sp e); [discriminate|].
  destruct (is_Rational sp e); [discriminate|reflexivity].
Qed.

Lemma evaluate_unfold (self : CalculatorEngine) (expression : string) :
  Engine.evaluate sp self expression =
    try_except (Engine.eval_text sp (Engine.preprocess self expression))
      (fun e => Raise (mkExn MathError ("Error evaluating expression: " ++ exn_msg e))).
Proof. reflexivity. Qed.

(** When the library has the class the code names, a value that is neither
    real nor complex is returned as it is, and a complex one as a pair. *)
Lemma evaluate_classifies_with_class
      (self : CalculatorEngine) (expression : string)
      (parsed evaluated : Expr sp) (is_ComplexNumber : Expr sp -> bool) :
  numbers_ComplexNumber sp = Some is_ComplexNumber ->
  sympify sp (Engine.preprocess self expression) = Ok parsed ->
  evalf sp parsed = Ok evaluated ->
  Engine.is_real_number sp evaluated = false ->
  is_ComplexNumber evaluated = false ->
  Engine.evaluate sp self expression = Ok (PyExpr evaluated).
Proof.
  intros Hc Hp He Hr Hx.
  rewrite evaluate_unfold. unfold Engine.eval_text.
  rewrite Hp. simpl. rewrite He. simpl.
  rewrite (classify_other _ Hr), Hc, Hx. reflexivity.
Qed.

Lemma evaluate_complex_with_class
      (self : CalculatorEngine) (expression : string)
      (parsed evaluated : Expr sp) (is_ComplexNumber : Expr sp -> bool)
      (re im : float) :
  numbers_ComplexNumber sp = Some is_ComplexNumber ->
  sympify sp (Engine.preprocess self expression) = Ok parsed ->
  evalf sp parsed = Ok evaluated ->
  Engine.is_real_number sp evaluated = false ->
  is_ComplexNumber evaluated = true ->
  complex_of_expr sp evaluated = Ok (re, im) ->
  Engine.evaluate sp self expression = Ok (PyComplex re im).
Proof.
  intros Hc Hp He Hr Hx Hz.
  rewrite evaluate_unfold. unfold Engine.eval_text.
  rewrite Hp. simpl. rewrite He. simpl.
  rewrite (classify_other _ Hr), Hc, Hx, Hz. reflexivity.
Qed.

(** C1. [evaluate] on a value that is neither Float nor Integer nor
    Rational: the test of the fourth branch reads
    [sp.core.numbers.ComplexNumber]; in a SymPy whose numbers module has no
    such attribute the lookup raises, the handler of [evaluate] catches it,
    and neither the complex pair nor the symbolic value is returned: the
    call ends in a MathError. *)
Theorem evaluate_nonreal_raises_without_class
        (self : CalculatorEngine) (expression : string)
        (parsed evaluated : Expr sp) :
  numbers_ComplexNumber sp = None ->
  sympify sp (Engine.preprocess self expression) = Ok parsed ->
  evalf sp parsed = Ok evaluated ->
  Engine.is_real_number sp evaluated = false ->
  Engine.evaluate sp self expression =
    Raise (mkExn MathError
      "Error evaluating expression: module 'sympy.core.numbers' has no attribute 'ComplexNumber'").
Proof.
  intros Hc Hp He Hr.
  rewrite evaluate_unfold. unfold Engine.eval_text.
  rewrite Hp. simpl. rewrite He. simpl.
  rewrite (classify_other _ Hr), Hc. reflexivity.
Qed.

(** Real values are coerced with [float], whatever the library exports. *)
Lemma evaluate_real (self : CalculatorEngine) (expression : string)
      (parsed evaluated : Expr sp) (f : float) :
  sympify sp (Engine.preprocess self expression) = Ok parsed ->
  evalf sp parsed = Ok evaluated ->
  Engine.is_real_number sp evaluated = true ->
  float_of_expr sp evaluated = Ok f ->
  Engine.evaluate sp self expression = Ok (PyFloat f).
Proof.
  intros Hp He Hr Hf.
  rewrite evaluate_unfold. unfold Engine.eval_text.
  rewrite Hp. simpl. rewrite He. simpl.
  rewrite (classify_real _ Hr), Hf. reflexivity.
Qed.

(** What [evaluate] returns when SymPy has a real value for the text it is
    given. *)
Lemma evaluate_of_value (self : CalculatorEngine) (expression : string) (x : float) :
  Engine.evaluates_to sp (Engine.preprocess self expression) x ->
  Engine.evaluate sp self expression = Ok (PyFloat x).
Proof.
  intros (parsed & evaluated & Hp & He & Hr & Hf). now apply (evaluate_real _ _ parsed evaluated).
Qed.

(** ** Failures of [evaluate] *)

Lemma evaluate_body_preprocess (self : CalculatorEngine) (expression : string) :
  Engine.evaluate_body sp self expression =
    Engine.eval_text sp (Engine.preprocess self expression).
Proof. reflexivity. Qed.

Lemma preprocess_one_over_zero (mode : AngleMode) :
  Engine.preprocess (Engine.set_angle_mode mode Engine.init) "1/0" = "1/0".
Proof. destruct mode; reflexivity. Qed.

(** C2. Whatever fails inside the [try] block of [evaluate] leaves it as
    a MathError whose message is the fixed prefix followed by the message of
    the failure: a failure of the parser, of [evalf], of the coercion to
    [float] or [complex], or of the attribute lookup; [evaluate] raises
    nothing but MathError; and [evaluate("1/0")] raises MathError in both
    angle modes: the text reaches the parser as it is, and when SymPy does
    not fail on it what it makes of it is no Float, Integer or Rational
    (complex infinity), for which the lookup of
    [sp.core.numbers.ComplexNumber] fails. *)
Theorem evaluate_failure_is_MathError (self : CalculatorEngine) (expression : string) :
  let text := Engine.preprocess self expression in
  let wrapped (e : PyExn) : result (PyValue sp) :=
    Raise (mkExn MathError ("Error evaluating expression: " ++ exn_msg e)) in
  (forall e, sympify sp text = Raise e -> Engine.evaluate sp self expression = wrapped e)
  /\ (forall parsed e,
        sympify sp text = Ok parsed -> evalf sp parsed = Raise e ->
        Engine.evaluate sp self expression = wrapped e)
  /\ (forall parsed evaluated e,
        sympify sp text = Ok parsed -> evalf sp parsed = Ok evaluated ->
        Engine.is_real_number sp evaluated = true ->
        float_of_expr sp evaluated = Raise e ->
        Engine.evaluate sp self expression = wrapped e)
  /\ (forall parsed evaluated is_ComplexNumber e,
        sympify sp text = Ok parsed -> evalf sp parsed = Ok evaluated ->
        Engine.is_real_number sp evaluated = false ->
        numbers_ComplexNumber sp = Some is_ComplexNumber ->
        is_ComplexNumber evaluated = true ->
        complex_of_expr sp evaluated = Raise e ->
        Engine.evaluate sp self expression = wrapped e)
  /\ (forall e, Engine.evaluate sp self expression = Raise e -> exn_class e = MathError)
  /\ (forall mode,
        numbers_ComplexNumber sp = None ->
        (forall parsed evaluated,
            sympify sp "1/0" = Ok parsed -> evalf sp parsed = Ok evaluated ->
            Engine.is_real_number sp evaluated = false) ->
        exists msg,
          Engine.evaluate sp (Engine.set_angle_mode mode Engine.init) "1/0" =
            Raise (mkExn MathError ("Error evaluating expression: " ++ msg))).
Proof.
  cbv zeta. repeat apply conj.
  - intros e He. rewrite evaluate_unfold. unfold Engine.eval_text.
    rewrite He. reflexivity.
  - intros parsed e Hp He. rewrite evaluate_unfold. unfold Engine.eval_text.
    rewrite Hp. cbn [bind]. rewrite He. reflexivity.
  - intros parsed evaluated e Hp He Hr Hf. rewrite evaluate_unfold. unfold Engine.eval_text.
    rewrite Hp. cbn [bind]. rewrite He. cbn [bind].
    rewrite (classify_real _ Hr), Hf. reflexivity.
  - intros parsed evaluated is_C e Hp He Hr Hc Hx Hz. rewrite evaluate_unfold.
    unfold Engine.eval_text. rewrite Hp. cbn [bind]. rewrite He. cbn [bind].
    rewrite (classify_other _ Hr), Hc, Hx, Hz. reflexivity.
  - intros e. unfold Engine.evaluate.
    destruct (Engine.evaluate_body sp self expression) as [v|e0]; cbn [try_except].
    + discriminate.
    + intros H. inversion H. reflexivity.
  - intros mode Hc Hzoo. rewrite evaluate_unfold, preprocess_one_over_zero.
    unfold Engine.eval_text.
    destruct (sympify sp "1/0") as [parsed|e] eqn:Hp; cbn [bind try_except];
      [|now exists (exn_msg e)].
    destruct (evalf sp parsed) as [evaluated|e] eqn:He; cbn [bind try_except];
      [|now exists (exn_msg e)].
    rewrite (classify_other _ (Hzoo _ _ eq_refl He)), Hc. cbn [try_except].
    now eexists.
Qed.

End Classification.

Lemma evaluate_nonreal_raises_without_class_witness :
  Engine.evaluate (Toy.sympy false) Engine.init "sqrt(-1)" =
    Raise (mkExn MathError
      "Error evaluating expression: module 'sympy.core.numbers' has no attribute 'ComplexNumber'").
Proof.
  apply (evaluate_nonreal_raises_without_class (Toy.sympy false) Engine.init "sqrt(-1)"
           Toy.TImaginary Toy.TImaginary); reflexivity.
Defined.

Lemma evaluate_failure_is_MathError_witness :
  exists msg,
    Engine.evaluate (Toy.sympy false) (Engine.set_angle_mode degrees Engine.init) "1/0" =
      Raise (mkExn MathError ("Error evaluating expression: " ++ msg)).
Proof.
  apply (proj2 (proj2 (proj2 (proj2 (proj2
           (evaluate_failure_is_MathError (Toy.sympy false) Engine.init ""))))) degrees).
  - reflexivity.
  - intros parsed evaluated Hp He.
    injection Hp as <-. injection He as <-. reflexivity.
Defined.

(** ** Constant substitution and the angle mode *)

Module Preprocessing.
Import PyStr StrFacts ScanFacts Shape.

Lemma substitute_constants_mode (mode : AngleMode) (self : CalculatorEngine) (e : string) :
  Engine.substitute_constants (Engine.set_angle_mode mode self) e =
  Engine.substitute_constants self e.
Proof. reflexivity. Qed.

Lemma fold_sub_unchanged {A} (pat : A -> Re.matcher) (l : list A) (e : string) :
  existsb (fun a => occurs (pat a) None e) l = false ->
  fold_left (fun e a => Re.sub (pat a) e) l e = e.
Proof.
  induction l as [|a l IH]; simpl; [reflexivity|].
  intros H. apply orb_false_iff in H as [Ha Hl].
  rewrite (sub_no_occurrence _ _ Ha). now apply IH.
Qed.

Lemma substitute_constants_unchanged (self : CalculatorEngine) (e : string) :
  mentions_constant self e = false -> Engine.substitute_constants self e = e.
Proof.
  intros H. unfold Engine.substitute_constants.
  apply (fold_sub_unchanged (fun c => Re.word_pattern (c_name c) (c_text c))). exact H.
Qed.

Lemma call_pattern_prefix (func : string) (prev : option ascii) (s : string) (r : string * nat) :
  Re.call_pattern func prev s = Some r -> String.prefix (func ++ "(") s = true.
Proof.
  unfold Re.call_pattern. destruct (String.prefix (func ++ "(") s); [reflexivity|discriminate].
Qed.


Lemma handle_radians (self : CalculatorEngine) (e : string) :
  Engine._handle_special_functions (Engine.set_angle_mode radians self) e = e.
Proof. reflexivity. Qed.

Lemma handle_degrees (self : CalculatorEngine) (e : string) :
  Engine._handle_special_functions (Engine.set_angle_mode degrees self) e =
  fold_left (fun e func => Re.sub (Re.call_pattern func) e) Engine.trig_funcs e.
Proof. reflexivity. Qed.



End Preprocessing.


(** ** Whole-word substitution *)

Module WholeWord.
Import PyStr StrFacts ScanFacts Shape Preprocessing.

(** Inside a run of word characters there is no word boundary. *)
Lemma word_pattern_inside (name repl : string) (s : string) (prev : option ascii) :
  all_chars is_word_char s = true ->
  Re.is_word_opt prev = true ->
  occurs (Re.word_pattern name repl) prev s = false.
Proof.
  revert prev; induction s as [|c s IH]; intros prev Hs Hp; [reflexivity|].
  simpl in Hs. apply andb_true_iff in Hs as [Hc Hs].
  simpl occurs. unfold Re.word_pattern at 1, Re.word_boundary at 1.
  simpl String.get. simpl Re.is_word_opt at 2. rewrite Hp, Hc. simpl.
  now apply IH.
Qed.

(** At the start of an identifier the pattern of a name only matches the
    identifier that is the name. *)
Lemma word_pattern_at_start (name repl : string) (s : string) (r : string * nat) :
  name <> "" ->
  all_chars is_word_char s = true ->
  Re.word_pattern name repl None s = Some r ->
  s = name.
Proof.
  intros Hname Hs. unfold Re.word_pattern.
  destruct (String.prefix name s) eqn:Hp; [|now rewrite andb_false_r].
  apply prefix_split in Hp as [t ->].
  destruct t as [|c t]; [intros _; apply append_nil_r|].
  replace (String.get (String.length name) (name ++ String c t)) with (Some c)
    by (rewrite <- (Nat.add_0_r (String.length name)) at 1; now rewrite get_append_at).
  assert (Hlen : String.length name - 1 < String.length name)
    by (destruct name; [congruence|simpl; lia]).
  destruct (get_some name _ Hlen) as [d Hd].
  rewrite (get_append_before _ _ _ Hlen), Hd.
  rewrite all_chars_append in Hs. apply andb_true_iff in Hs as [Hn Ht].
  simpl in Ht. apply andb_true_iff in Ht as [Hc _].
  unfold Re.word_boundary at 2. simpl Re.is_word_opt.
  rewrite (all_chars_get _ _ _ _ Hn Hd), Hc. simpl. now rewrite andb_false_r.
Qed.

Lemma word_pattern_identifier (name repl : string) (w : string) :
  name <> "" ->
  is_identifier w = true ->
  String.eqb name w = false ->
  occurs (Re.word_pattern name repl) None w = false.
Proof.
  intros Hname Hw Hne. destruct w as [|c w]; [reflexivity|].
  simpl in Hw. simpl occurs.
  destruct (Re.word_pattern name repl None (String c w)) as [r|] eqn:E.
  - apply word_pattern_at_start in E; [|assumption|exact Hw].
    subst name. now rewrite String.eqb_refl in Hne.
  - apply andb_true_iff in Hw as [Hc Hw]. now apply word_pattern_inside.
Qed.

Lemma init_names_nonempty :
  forallb (fun c => negb (String.eqb (c_name c) "")) (constants Engine.init) = true.
Proof. reflexivity. Qed.

Lemma identifier_mentions_no_constant (self : CalculatorEngine) (w : string) :
  forallb (fun c => negb (String.eqb (c_name c) "")) (constants self) = true ->
  is_identifier w = true ->
  is_constant_name self w = false ->
  mentions_constant self w = false.
Proof.
  unfold is_constant_name, mentions_constant. intros Hne Hw.
  induction (constants self) as [|c l IH]; simpl in *; [reflexivity|].
  apply andb_true_iff in Hne as [Hc Hl].
  intros H. apply orb_false_iff in H as [Hcw Hlw].
  rewrite word_pattern_identifier; try assumption.
  - now apply IH.
  - intros E. rewrite E in Hc. discriminate.
Qed.

Lemma word_chars_no_paren (s : string) :
  all_chars is_word_char s = true -> contains "(" s = false.
Proof.
  induction s as [|c s IH]; [reflexivity|].
  simpl all_chars. intros H. apply andb_true_iff in H as [Hc Hs].
  change (contains "(" (String c s))
    with (String.prefix "(" (String c s) || contains "(" s).
  rewrite (IH Hs), orb_false_r, prefix_cons, prefix_nil, andb_true_r.
  destruct (Ascii.eqb_spec "(" c) as [<-|]; [discriminate Hc|reflexivity].
Qed.

Lemma call_occurs_paren (func : string) (s : string) (prev : option ascii) :
  contains "(" s = false -> occurs (Re.call_pattern func) prev s = false.
Proof.
  revert prev; induction s as [|c s IH]; intros prev H; [reflexivity|].
  apply contains_false_cons in H as [Hp Hs]. simpl occurs.
  destruct (Re.call_pattern func prev (String c s)) as [r|] eqn:E; [|now apply IH].
  apply call_pattern_prefix, prefix_split in E as [t Ht].
  assert (Hc : contains "(" (String c s) = true)
    by (rewrite Ht, append_assoc; apply contains_append).
  change (contains "(" (String c s))
    with (String.prefix "(" (String c s) || contains "(" s) in Hc.
  rewrite Hs, orb_false_r in Hc. congruence.
Qed.

Lemma handle_identifier (self : CalculatorEngine) (w : string) :
  is_identifier w = true -> Engine._handle_special_functions self w = w.
Proof.
  intros Hw. unfold Engine._handle_special_functions.
  destruct (angle_mode self); [reflexivity|].
  apply (fold_sub_unchanged Re.call_pattern).
  assert (Hp : contains "(" w = false)
    by (destruct w; [reflexivity|now apply word_chars_no_paren]).
  induction Engine.trig_funcs as [|f l IH]; simpl; [reflexivity|].
  now rewrite (call_occurs_paren f w None Hp).
Qed.

Lemma preprocess_identifier (mode : AngleMode) (w : string) :
  is_identifier w = true ->
  is_constant_name Engine.init w = false ->
  Engine.preprocess (Engine.set_angle_mode mode Engine.init) w = w.
Proof.
  intros Hw Hn. unfold Engine.preprocess.
  rewrite substitute_constants_mode, substitute_constants_unchanged.
  - now apply handle_identifier.
  - now apply identifier_mentions_no_constant.
Qed.

End WholeWord.

(** ** [solve_equation] *)

Module Solving.
Import PyStr StrFacts.




Section WithSymPy.
Context (sp : SymPy).


Lemma coerce_root_symbolic (sol : Expr sp) (e : PyExn) :
  float_of_expr sp sol = Raise e -> Engine.coerce_root sp sol = PyExpr sol.
Proof. unfold Engine.coerce_root. now intros ->. Qed.




End WithSymPy.
End Solving.


(** ** The result of 2+2 and its display *)

Module Display.

Lemma preprocess_two_plus_two (mode : AngleMode) :
  Engine.preprocess (Engine.set_angle_mode mode Engine.init) "2+2" = "2+2".
Proof. destruct mode; reflexivity. Qed.

Lemma result_str_four (py : PyRuntime) (sp : SymPy) :
  Calculator.result_str py (sp := sp) (PyFloat 4%float) = Ok "4".
Proof. reflexivity. Qed.

(** The value [evaluate] returns for 2+2 in the small SymPy, whose parser
    makes the Integer 4 of it, is the float 4.0: [evaluate] coerces every
    Float, Integer and Rational with [float]. *)
Lemma evaluate_two_plus_two_is_float :
  Engine.evaluate (Toy.sympy true) Engine.init "2+2" = Ok (PyFloat 4%float)
  /\ Engine.evaluate (Toy.sympy false) Engine.init "2+2" = Ok (PyFloat 4%float).
Proof. split; reflexivity. Qed.

(** C8, amended. When the evaluator makes the number four of "2+2" (a
    Float, Integer or Rational whose float is 4.0), [evaluate] returns the
    float 4.0, in both angle modes; it is [calculate] that shows it as the
    integer text "4" and records "2+2 = 4" in the history. *)
Theorem evaluate_two_plus_two
        (sp : SymPy) (py : PyRuntime) (mode : AngleMode) (parsed evaluated : Expr sp) :
  sympify sp "2+2" = Ok parsed ->
  evalf sp parsed = Ok evaluated ->
  Engine.is_real_number sp evaluated = true ->
  float_of_expr sp evaluated = Ok 4%float ->
  Engine.evaluate sp (Engine.set_angle_mode mode Engine.init) "2+2" = Ok (PyFloat 4%float)
  /\ forall s : Session,
       display s = "2+2" ->
       engine s = Engine.set_angle_mode mode Engine.init ->
       result_display (Calculator.calculate py sp s) = "4"
       /\ history (memory_manager (Calculator.calculate py sp s)) =
            (history (memory_manager s) ++ ["2+2 = 4"])%list.
Proof.
  intros Hp He Hr Hf.
  assert (Hev : Engine.evaluate sp (Engine.set_angle_mode mode Engine.init) "2+2"
                = Ok (PyFloat 4%float)).
  { apply (evaluate_real sp _ _ parsed evaluated); try assumption.
    now rewrite preprocess_two_plus_two. }
  split; [exact Hev|].
  intros s Hd Hen. unfold Calculator.calculate. rewrite Hd, Hen, Hev.
  split; reflexivity.
Qed.

End Display.

Lemma evaluate_two_plus_two_witness :
  Engine.evaluate (Toy.sympy true) (Engine.set_angle_mode radians Engine.init) "2+2"
    = Ok (PyFloat 4%float).
Proof.
  apply (proj1 (Display.evaluate_two_plus_two (Toy.sympy true) Toy.runtime radians
                  (Toy.TInteger 4) (Toy.TFloat 4%float)
                  eq_refl eq_refl eq_refl eq_refl)).
Defined.

(** ** The memory register and its file *)

Module MemoryFacts.
Import Calculator.

Lemma save_memory_writes (s : Session) :
  io_error s = None ->
  memory_file (save_memory s) = Some (memory_data (memory_manager s))
  /\ memory_manager (save_memory s) = memory_manager s
  /\ log (save_memory s) = log s.
Proof. unfold save_memory. intros ->. repeat split. Qed.

(** A failing write is logged, not raised: the file keeps its content and
    the manager its state. *)
Lemma save_memory_failure (s : Session) (e : string) :
  io_error s = Some e ->
  memory_file (save_memory s) = memory_file s
  /\ memory_manager (save_memory s) = memory_manager s
  /\ log (save_memory s) = (log s ++ [("Error saving memory: " ++ e)%string])%list.
Proof. unfold save_memory. intros ->. repeat split. Qed.

(** [memory_clear] persists the register 0 and the empty list. *)
Lemma memory_clear_persists (s : Session) :
  io_error s = None ->
  memory_file (memory_clear s) = Some {| data_register := 0%float; data_items := [] |}
  /\ memory_register (memory_manager (memory_clear s)) = 0%float
  /\ memory (memory_manager (memory_clear s)) = [].
Proof.
  intros H. unfold memory_clear, clear_memory, save_memory. simpl. rewrite H.
  repeat split.
Qed.

(** [memory_store] saves inside [add_to_memory], before it assigns the
    register: the file has the new item and the register of before. *)
Lemma memory_store_persists_old_register
      (py : PyRuntime) (now : string) (s : Session) (c : ascii) (t : string) (v : float) :
  io_error s = None ->
  result_display s = String c t ->
  float_of_str py (String c t) = Ok v ->
  memory_register (memory_manager (memory_store py now s)) = v
  /\ memory_file (memory_store py now s) =
       Some {| data_register := memory_register (memory_manager s);
               data_items :=
                 map (fun item => (value item, expression item, timestamp item))
                     (memory (memory_manager s)
                      ++ [{| value := v; expression := display s; timestamp := now |}])%list |}.
Proof.
  intros Hio Hr Hf. unfold memory_store. rewrite Hr, Hf.
  unfold add_to_memory, save_memory. simpl. rewrite Hio. split; reflexivity.
Qed.

Lemma memory_add_file (py : PyRuntime) (s : Session) :
  memory_file (memory_add py s) = memory_file s /\ log (memory_add py s) = log s.
Proof.
  unfold memory_add. destruct (result_display s); [split; reflexivity|].
  destruct (float_of_str py _); split; reflexivity.
Qed.

Lemma memory_subtract_file (py : PyRuntime) (s : Session) :
  memory_file (memory_subtract py s) = memory_file s /\ log (memory_subtract py s) = log s.
Proof.
  unfold memory_subtract. destruct (result_display s); [split; reflexivity|].
  destruct (float_of_str py _); split; reflexivity.
Qed.

(** C3. [memory_add] and [memory_subtract] change the register and never
    call [save_memory]: whatever the runtime and the session, the memory file
    and the log are as before; in the session that shows the result 5 with
    the register 0 persisted, [memory_add] leaves 5 in the register and 0 in
    the file, and [memory_store] leaves 5 in the register and, in the file,
    the new item beside the register 0. *)
Theorem memory_add_subtract_do_not_persist :
  (forall (py : PyRuntime) (s : Session),
      memory_file (memory_add py s) = memory_file s
      /\ log (memory_add py s) = log s
      /\ memory_file (memory_subtract py s) = memory_file s
      /\ log (memory_subtract py s) = log s)
  /\ (memory_register (memory_manager (memory_add Toy.runtime Toy.session)) = 5%float
      /\ memory_file (memory_add Toy.runtime Toy.session)
         = Some {| data_register := 0%float; data_items := [] |})
  /\ (memory_register (memory_manager (memory_store Toy.runtime "2026-01-01 00:00:00" Toy.session))
        = 5%float
      /\ memory_file (memory_store Toy.runtime "2026-01-01 00:00:00" Toy.session)
         = Some {| data_register := 0%float;
                   data_items := [(5%float, "2+3", "2026-01-01 00:00:00")] |}).
Proof.
  split; [|split; split; reflexivity].
  intros py s.
  destruct (memory_add_file py s) as [H1 H2], (memory_subtract_file py s) as [H3 H4].
  auto.
Qed.

End MemoryFacts.

(** ** The history file *)

Module HistoryFacts.
Import PyStr StrFacts Calculator HistoryShape.

Lemma blank_line_prefix (c : ascii) (s : string) :
  String.prefix blank_line (String c s) =
    Ascii.eqb newline c && match s with
                           | String d _ => Ascii.eqb newline d
                           | EmptyString => false
                           end.
Proof.
  unfold blank_line. rewrite prefix_cons. destruct s as [|d s].
  - reflexivity.
  - now rewrite prefix_cons, prefix_nil, andb_true_r.
Qed.

Lemma contains_unfold (p : string) (c : ascii) (s : string) :
  contains p (String c s) = String.prefix p (String c s) || contains p s.
Proof. reflexivity. Qed.

(** A piece that neither contains the separator nor ends with a newline is
    split off whole at the separator behind it. *)
Lemma split_scan_piece (e rest : string) :
  contains blank_line e = false ->
  ends_with e newline = false ->
  split_scan blank_line 0 (e ++ blank_line ++ rest) = e :: split_scan blank_line 0 rest.
Proof.
  induction e as [|c e IH]; intros Hc He.
  - change ("" ++ blank_line ++ rest) with (String newline (String newline rest)).
    cbn [split_scan]. rewrite blank_line_prefix, Ascii.eqb_refl. simpl.
    destruct rest; reflexivity.
  - rewrite contains_unfold in Hc. apply orb_false_iff in Hc as [Hp Hc].
    assert (He' : ends_with e newline = false) by (destruct e; [reflexivity|exact He]).
    change (String c e ++ blank_line ++ rest) with (String c (e ++ blank_line ++ rest)).
    cbn [split_scan].
    assert (Hno : String.prefix blank_line (String c (e ++ blank_line ++ rest)) = false).
    { rewrite blank_line_prefix in *. destruct (Ascii.eqb_spec newline c) as [<-|]; [|reflexivity].
      destruct e as [|d e].
      - discriminate He.
      - exact Hp. }
    rewrite Hno, (IH Hc He'). reflexivity.
Qed.

Lemma split_scan_last (e : string) :
  contains blank_line e = false -> split_scan blank_line 0 e = [e].
Proof.
  induction e as [|c e IH]; intros Hc; [reflexivity|].
  rewrite contains_unfold in Hc. apply orb_false_iff in Hc as [Hp Hc].
  cbn [split_scan]. rewrite Hp, (IH Hc). reflexivity.
Qed.

Lemma rstrip_cons_nonempty (c : ascii) (s : string) :
  is_space c = false -> rstrip (String c s) <> "".
Proof.
  intros H. simpl. destruct (rstrip s); [rewrite H|]; discriminate.
Qed.

Lemma lstrip_nonspace (s : string) :
  all_chars is_space s = false ->
  exists c t, lstrip s = String c t /\ is_space c = false.
Proof.
  induction s as [|c s IH]; simpl; [discriminate|].
  destruct (is_space c) eqn:E; simpl; [exact IH|eauto].
Qed.

Lemma not_blank (s : string) : all_chars is_space s = false -> is_blank s = false.
Proof.
  intros H. destruct (lstrip_nonspace s H) as (c & t & Hl & Hc).
  unfold is_blank, strip. rewrite Hl.
  pose proof (rstrip_cons_nonempty c t Hc) as Hn.
  destruct (rstrip (String c t)); [congruence|reflexivity].
Qed.

(** What [add_to_history] records is never blank: it has the equals sign. *)
Lemma entry_not_blank (expr res : string) : is_blank (expr ++ " = " ++ res) = false.
Proof.
  apply not_blank. rewrite all_chars_append. simpl. apply andb_false_r.
Qed.

Lemma import_export_two (e1 e2 : string) (m fresh : MemoryManager) :
  history m = [e1; e2] ->
  contains blank_line e1 = false ->
  contains blank_line e2 = false ->
  ends_with e1 newline = false ->
  is_blank e1 = false ->
  is_blank e2 = false ->
  history (import_history (export_history m) fresh) = [e1; e2].
Proof.
  intros Hm H1 H2 He B1 B2.
  unfold import_history, export_history. rewrite Hm. simpl history.
  unfold split.
  change (e1 ++ String newline (String newline e2)) with (e1 ++ blank_line ++ e2).
  rewrite (split_scan_piece e1 e2 H1 He), (split_scan_last e2 H2).
  simpl. now rewrite B1, B2.
Qed.

(** What is read from the file is what was written, on either platform,
    when the text has no carriage return. *)
Lemma read_write_text (p : Platform) (text : string) :
  no_carriage_return text = true ->
  read_text (write_text (linesep p) text) = text.
Proof.
  unfold no_carriage_return.
  destruct p; cbn [linesep]; (induction text as [|c text IH]; [reflexivity|]);
    cbn [all_chars write_text]; intros H; apply andb_true_iff in H as [Hc Ht];
    apply negb_true_iff in Hc; (destruct (Ascii.eqb c newline) eqn:En;
      [apply Ascii.eqb_eq in En; subst c; cbn; now rewrite (IH Ht)
      |cbn [read_text]; now rewrite Hc, (IH Ht)]).
Qed.

Lemma no_carriage_return_join (entries : list string) :
  forallb no_carriage_return entries = true ->
  no_carriage_return (join blank_line entries) = true.
Proof.
  unfold no_carriage_return.
  induction entries as [|e rest IH]; [reflexivity|].
  cbn [forallb]. intros H. apply andb_true_iff in H as [He Hrest].
  destruct rest as [|e' rest]; [exact He|].
  change (join blank_line (e :: e' :: rest))
    with (e ++ blank_line ++ join blank_line (e' :: rest)).
  now rewrite !all_chars_append, He, (IH Hrest).
Qed.

(** Through the file: for a log without carriage returns the log loaded is
    the import of the exported text; nothing is written for the empty
    log. *)
Lemma load_of_save (p : Platform) (m fresh : MemoryManager) :
  forallb no_carriage_return (history m) = true ->
  match save_history p m with
  | Some raw => load_history raw fresh = import_history (export_history m) fresh
  | None => history m = []
  end.
Proof.
  intros H. unfold save_history, load_history.
  destruct (history m) as [|e l] eqn:E; [reflexivity|].
  rewrite read_write_text; [reflexivity|].
  unfold export_history. rewrite E. now apply no_carriage_return_join.
Qed.

(** Two recorded entries, neither of which contains a blank line or a
    carriage return, that do not come back, on either platform: the first
    ends with a newline, which the import reads as the first half of the
    separator. *)
Lemma round_trip_fails_on_trailing_newline :
  let m := add_to_history "3" "4"
             (add_to_history "1" (String "2" (String newline "")) Toy.manager) in
  forallb (fun e => negb (contains blank_line e)) (history m) = true
  /\ forallb no_carriage_return (history m) = true
  /\ Forall (fun p =>
       exists raw,
         save_history p m = Some raw
         /\ history (load_history raw Toy.manager) = ["1 = 2"; String newline "3 = 4"]
         /\ history (load_history raw Toy.manager) <> history m)
       [posix; windows].
Proof.
  cbv zeta. split; [reflexivity|]. split; [reflexivity|].
  repeat constructor; eexists; (split; [reflexivity|]); (split; [reflexivity|discriminate]).
Qed.

(** An entry with a carriage return does not come back either: the file
    gives it back as a newline. *)
Lemma round_trip_fails_on_carriage_return :
  let m := add_to_history "3" "4"
             (add_to_history (String "1" (String carriage_return "")) "2" Toy.manager) in
  Forall (fun p =>
    exists raw,
      save_history p m = Some raw
      /\ history (load_history raw Toy.manager)
         = [String "1" (String newline " = 2"); "3 = 4"]
      /\ history (load_history raw Toy.manager) <> history m)
    [posix; windows].
Proof.
  cbv zeta.
  repeat constructor; eexists; (split; [reflexivity|]); (split; [reflexivity|discriminate]).
Qed.

Lemma import_discards_blank (content : string) (fresh : MemoryManager) :
  forallb (fun entry => negb (is_blank entry)) (history (import_history content fresh)) = true.
Proof.
  unfold import_history. cbn [history set_history].
  induction (split blank_line content) as [|e l IH]; [reflexivity|].
  cbn [filter]. destruct (negb (is_blank e)) eqn:E; [|exact IH].
  cbn [forallb]. now rewrite E, IH.
Qed.

(** C9, amended. Two entries recorded into an empty log, saved to the
    history file and loaded from it into a fresh log, come back the same and
    in the same order, on either platform, provided neither contains the
    blank-line separator or a carriage return and the first does not end with
    a newline; whatever the file holds, no blank entry is kept. *)
Theorem history_round_trip
        (p : Platform) (expr1 res1 expr2 res2 : string) (empty fresh : MemoryManager) :
  history empty = [] ->
  let m := add_to_history expr2 res2 (add_to_history expr1 res1 empty) in
  contains blank_line (expr1 ++ " = " ++ res1) = false ->
  contains blank_line (expr2 ++ " = " ++ res2) = false ->
  ends_with (expr1 ++ " = " ++ res1) newline = false ->
  no_carriage_return (expr1 ++ " = " ++ res1) = true ->
  no_carriage_return (expr2 ++ " = " ++ res2) = true ->
  history m = [expr1 ++ " = " ++ res1; expr2 ++ " = " ++ res2]
  /\ (exists raw,
        save_history p m = Some raw
        /\ history (load_history raw fresh) = history m)
  /\ forall raw : string,
       forallb (fun entry => negb (is_blank entry))
               (history (load_history raw fresh)) = true.
Proof.
  intros Hempty m H1 H2 He C1 C2.
  assert (Hm : history m = [expr1 ++ " = " ++ res1; expr2 ++ " = " ++ res2]).
  { unfold m, add_to_history. simpl. rewrite Hempty. reflexivity. }
  split; [exact Hm|]. split; [|intros raw; apply import_discards_blank].
  assert (Hc : forallb no_carriage_return (history m) = true)
    by (rewrite Hm; cbn [forallb]; now rewrite C1, C2).
  pose proof (load_of_save p m fresh Hc) as Hl.
  destruct (save_history p m) as [raw|]; [|rewrite Hm in Hl; discriminate Hl].
  exists raw. split; [reflexivity|]. rewrite Hl, Hm.
  apply import_export_two; auto using entry_not_blank.
Qed.

End HistoryFacts.

Lemma history_round_trip_witness :
  let m := Calculator.add_to_history "3*3" "9" (Calculator.add_to_history "2+2" "4" Toy.manager) in
  history m = ["2+2 = 4"; "3*3 = 9"]
  /\ exists raw,
       Calculator.save_history Calculator.windows m = Some raw
       /\ history (Calculator.load_history raw Toy.manager) = history m.
Proof.
  destruct (HistoryFacts.history_round_trip Calculator.windows "2+2" "4" "3*3" "9"
              Toy.manager Toy.manager eq_refl eq_refl eq_refl eq_refl eq_refl eq_refl)
    as (H1 & H2 & _).
  split; [exact H1|exact H2].
Defined.

(** ** The degree rewrite on expressions without nested trig arguments *)

Module DegreeRewrite.
Import PyStr StrFacts ScanFacts Shape Preprocessing.

Lemma trig_cases (g : string) :
  is_trig_func g = true ->
  g = "sin" \/ g = "cos" \/ g = "tan" \/ g = "cot" \/ g = "sec" \/ g = "csc".
Proof.
  unfold is_trig_func, Engine.trig_funcs. cbn [existsb].
  rewrite !orb_true_iff, !String.eqb_eq. intuition discriminate.
Qed.

(** The six cases of a trig function name. *)
Ltac each_trig f H :=
  destruct (trig_cases f H) as [->|[->|[->|[->|[->| ->]]]]].

Lemma scan_match (m : Re.matcher) (w v repl : string) (prev : option ascii) :
  w <> "" ->
  m prev (w ++ v) = Some (repl, String.length w) ->
  Re.scan m 0 prev (w ++ v) = repl ++ Re.scan m 0 (last_char prev w) v.
Proof.
  destruct w as [|c u]; [congruence|]. intros _ H.
  change (String c u ++ v) with (String c (u ++ v)) in *.
  cbn [Re.scan]. rewrite H.
  replace (String.length (String c u) - 1) with (String.length u) by (simpl; lia).
  now rewrite scan_skip.
Qed.

Lemma all_not_rparen (arg : string) :
  paren_free arg = true -> all_chars Re.not_rparen arg = true.
Proof.
  induction arg as [|c arg IH]; simpl; [reflexivity|].
  intros H. apply andb_true_iff in H as [Hc Ha]. rewrite (IH Ha), andb_true_r.
  unfold is_paren in Hc. unfold Re.not_rparen.
  destruct (Ascii.eqb c ")"); [now rewrite orb_true_r in Hc|reflexivity].
Qed.

(** The pattern of [g] matches a call of [g] whose argument has no closing
    parenthesis, up to the parenthesis behind the argument. *)
Lemma call_pattern_matches (g arg rest : string) (prev : option ascii) :
  arg <> "" ->
  all_chars Re.not_rparen arg = true ->
  Re.call_pattern g prev ((g ++ "(" ++ arg ++ ")") ++ rest) =
    Some (g ++ "(" ++ arg ++ degree_factor ++ ")", String.length (g ++ "(" ++ arg ++ ")")).
Proof.
  intros Hne Harg. unfold Re.call_pattern.
  assert (E : (g ++ "(" ++ arg ++ ")") ++ rest = (g ++ "(") ++ arg ++ String ")" rest)
    by (rewrite !append_assoc; reflexivity).
  rewrite E.
  assert (Hp : String.prefix (g ++ "(") ((g ++ "(") ++ arg ++ String ")" rest) = true)
    by (apply prefix_split; eauto).
  rewrite Hp.
  replace (String.length g + 1) with (String.length (g ++ "("))
    by (rewrite length_append; reflexivity).
  rewrite drop_append, (take_while_append Re.not_rparen arg ")" rest Harg eq_refl).
  destruct arg as [|a arg]; [congruence|].
  rewrite get_append_length. simpl String.get.
  apply f_equal, f_equal2; [reflexivity|].
  rewrite !length_append. simpl. lia.
Qed.

Lemma scan_over_own_call (g arg rest : string) (prev : option ascii) :
  arg <> "" ->
  all_chars Re.not_rparen arg = true ->
  Re.scan (Re.call_pattern g) 0 prev (render_piece (Call g arg) ++ rest) =
    render_piece (Call g (arg ++ degree_factor))
    ++ Re.scan (Re.call_pattern g) 0 (Some ")"%char) rest.
Proof.
  intros Hne Harg. simpl render_piece.
  rewrite scan_match with (repl := g ++ "(" ++ arg ++ degree_factor ++ ")").
  - f_equal; [now rewrite !append_assoc|].
    f_equal. rewrite last_char_append. cbn [append last_char].
    rewrite last_char_append. reflexivity.
  - destruct g; discriminate.
  - now apply call_pattern_matches.
Qed.

Lemma call_pattern_none (g : string) (prev : option ascii) (s : string) :
  String.prefix (g ++ "(") s = false -> Re.call_pattern g prev s = None.
Proof. unfold Re.call_pattern. now intros ->. Qed.

Lemma scan_copy (g : string) (prev : option ascii) (c : ascii) (s : string) :
  String.prefix (g ++ "(") (String c s) = false ->
  Re.scan (Re.call_pattern g) 0 prev (String c s) =
    String c (Re.scan (Re.call_pattern g) 0 (Some c) s).
Proof. intros H. cbn [Re.scan]. now rewrite (call_pattern_none _ _ _ H). Qed.

Lemma starts_call_false (g s : string) :
  is_trig_func g = true -> starts_call s = false -> String.prefix (g ++ "(") s = false.
Proof.
  intros Hg Hs. unfold starts_call, Engine.trig_funcs in Hs. cbn [existsb] in Hs.
  rewrite !orb_false_iff in Hs.
  each_trig g Hg; intuition.
Qed.

(** A name of three characters other than [')'] and an opening parenthesis
    do not start inside an argument free of parentheses, nor at the
    parenthesis that closes it. *)
Lemma prefix_in_arg_chars (x y z : ascii) (a rest : string) :
  Ascii.eqb x ")" = false -> Ascii.eqb y ")" = false -> Ascii.eqb z ")" = false ->
  paren_free a = true ->
  String.prefix (String x (String y (String z "("))) (a ++ String ")" rest) = false.
Proof.
  intros Hx Hy Hz Ha.
  destruct a as [|c1 a]; cbn [append]; rewrite prefix_cons; [now rewrite Hx|].
  destruct (Ascii.eqb x c1); [|reflexivity].
  destruct a as [|c2 a]; cbn [append]; rewrite prefix_cons; [now rewrite Hy|].
  destruct (Ascii.eqb y c2); [|reflexivity].
  destruct a as [|c3 a]; cbn [append]; rewrite prefix_cons; [now rewrite Hz|].
  destruct (Ascii.eqb z c3); [|reflexivity].
  destruct a as [|c4 a]; cbn [append]; rewrite prefix_cons; [reflexivity|].
  cbn [paren_free all_chars] in Ha. rewrite !andb_true_iff in Ha.
  destruct Ha as (_ & _ & _ & H4 & _). unfold is_paren in H4.
  rewrite Ascii.eqb_sym. destruct (Ascii.eqb c4 "("); [discriminate H4|reflexivity].
Qed.

Lemma prefix_in_arg (g a rest : string) :
  is_trig_func g = true ->
  paren_free a = true ->
  String.prefix (g ++ "(") (a ++ String ")" rest) = false.
Proof.
  intros Hg Ha.
  each_trig g Hg;
    now apply prefix_in_arg_chars.
Qed.

Lemma scan_over_arg (g a rest : string) (prev : option ascii) :
  is_trig_func g = true ->
  paren_free a = true ->
  Re.scan (Re.call_pattern g) 0 prev (a ++ String ")" rest) =
    a ++ String ")" (Re.scan (Re.call_pattern g) 0 (Some ")"%char) rest).
Proof.
  intros Hg. revert prev; induction a as [|c a IH]; intros prev Ha.
  - cbn [append]. apply scan_copy. now apply (prefix_in_arg g "" rest).
  - cbn [append]. rewrite scan_copy.
    + rewrite IH; [reflexivity|].
      cbn [paren_free all_chars] in Ha. now apply andb_true_iff in Ha.
    + now apply (prefix_in_arg g (String c a) rest).
Qed.

Lemma render_call_append (f arg rest : string) :
  render_piece (Call f arg) ++ rest = f ++ "(" ++ arg ++ ")" ++ rest.
Proof. cbn [render_piece]. now rewrite !append_assoc. Qed.

(** The pass of [g] copies a call of another trig function whose argument is
    free of parentheses. *)
Lemma scan_over_other_call (g f arg rest : string) (prev : option ascii) :
  is_trig_func g = true ->
  is_trig_func f = true ->
  String.eqb f g = false ->
  paren_free arg = true ->
  Re.scan (Re.call_pattern g) 0 prev (render_piece (Call f arg) ++ rest) =
    render_piece (Call f arg) ++ Re.scan (Re.call_pattern g) 0 (Some ")"%char) rest.
Proof.
  intros Hg Hf Hne Ha. rewrite !render_call_append.
  each_trig g Hg;
    each_trig f Hf;
    try discriminate Hne;
    cbn [append];
    rewrite !scan_copy by reflexivity;
    now rewrite scan_over_arg.
Qed.

(** One pass over a flat reading rewrites the calls of its function and
    nothing else. *)
Lemma pass_on_flat (g : string) (ps : list piece) (prev : option ascii) :
  is_trig_func g = true ->
  flat ps = true ->
  Re.scan (Re.call_pattern g) 0 prev (render ps) = render (map (rewrite_call g) ps).
Proof.
  intros Hg. revert prev; induction ps as [|[c|f arg] ps IH]; intros prev Hf.
  - reflexivity.
  - cbn [flat] in Hf. apply andb_true_iff in Hf as [Hc Hf].
    apply negb_true_iff in Hc.
    cbn [map rewrite_call render render_piece append].
    rewrite scan_copy by (now apply starts_call_false).
    now rewrite IH.
  - cbn [flat] in Hf. rewrite !andb_true_iff in Hf.
    destruct Hf as [[[Htf Hne] Ha] Hf].
    assert (Harg : arg <> "") by (intros ->; discriminate Hne).
    cbn [map rewrite_call render].
    destruct (String.eqb f g) eqn:E.
    + apply String.eqb_eq in E. subst f.
      rewrite scan_over_own_call by auto using all_not_rparen.
      now rewrite IH.
    + rewrite scan_over_other_call by assumption.
      now rewrite IH.
Qed.

Lemma starts_call_take (c : ascii) (s : string) :
  starts_call (String c s) = starts_call (String c (take 3 s)).
Proof.
  destruct s as [|c1 [|c2 [|c3 s]]]; try reflexivity.
  unfold starts_call, Engine.trig_funcs. cbn [existsb append take].
  now rewrite !prefix_cons, !prefix_nil.
Qed.

Lemma take_render_rewrite (g : string) (ps : list piece) (n : nat) :
  flat ps = true ->
  n <= 4 ->
  take n (render (map (rewrite_call g) ps)) = take n (render ps).
Proof.
  revert n; induction ps as [|[c|f arg] ps IH]; intros n Hf Hn.
  - reflexivity.
  - cbn [flat] in Hf. apply andb_true_iff in Hf as [_ Hf].
    cbn [map rewrite_call render render_piece append].
    destruct n as [|n]; [reflexivity|]. cbn [take]. rewrite IH; [reflexivity|assumption|lia].
  - cbn [flat] in Hf. rewrite !andb_true_iff in Hf.
    destruct Hf as [[[Htf _] _] _].
    cbn [map rewrite_call].
    destruct (String.eqb f g); cbn [render]; rewrite !render_call_append;
      each_trig f Htf;
      destruct n as [|[|[|[|[|n]]]]]; try lia; reflexivity.
Qed.

Lemma flat_rewrite (g : string) (ps : list piece) :
  flat ps = true -> flat (map (rewrite_call g) ps) = true.
Proof.
  induction ps as [|[c|f arg] ps IH]; intros Hf.
  - reflexivity.
  - pose proof Hf as Hf0.
    cbn [flat] in Hf. apply andb_true_iff in Hf as [Hc Hf].
    cbn [map rewrite_call flat].
    rewrite starts_call_take, take_render_rewrite, <- starts_call_take by (assumption || lia).
    now rewrite Hc, IH.
  - cbn [flat] in Hf. rewrite !andb_true_iff in Hf.
    destruct Hf as [[[Htf Hne] Ha] Hf].
    cbn [map rewrite_call].
    destruct (String.eqb f g); cbn [flat]; rewrite Htf, (IH Hf).
    + unfold paren_free in *. rewrite all_chars_append, Ha.
      destruct arg; [discriminate Hne|reflexivity].
    + now rewrite Hne, Ha.
Qed.

Lemma passes_on_flat (gs : list string) (ps : list piece) :
  forallb is_trig_func gs = true ->
  flat ps = true ->
  fold_left (fun e func => Re.sub (Re.call_pattern func) e) gs (render ps) =
    render (fold_left (fun ps g => map (rewrite_call g) ps) gs ps).
Proof.
  revert ps; induction gs as [|g gs IH]; intros ps Hg Hf; [reflexivity|].
  cbn [forallb] in Hg. apply andb_true_iff in Hg as [Hg Hgs].
  cbn [fold_left]. unfold Re.sub at 2. rewrite pass_on_flat by assumption.
  apply IH; [assumption|now apply flat_rewrite].
Qed.

Lemma flat_calls (ps : list piece) (f arg : string) :
  flat ps = true -> In (Call f arg) ps -> is_trig_func f = true.
Proof.
  induction ps as [|[c|f' arg'] ps IH]; intros Hf Hin; [destruct Hin| |];
    cbn [flat] in Hf; rewrite ?andb_true_iff in Hf.
  - destruct Hin as [Hin|Hin]; [discriminate Hin|]. now apply IH.
  - destruct Hin as [Hin|Hin]; [inversion Hin; subst; tauto|]. apply IH; tauto.
Qed.

Lemma all_passes (ps : list piece) :
  flat ps = true ->
  fold_left (fun ps g => map (rewrite_call g) ps) Engine.trig_funcs ps = map to_degrees ps.
Proof.
  intros Hf. unfold Engine.trig_funcs. cbn [fold_left]. rewrite !map_map.
  apply map_ext_in. intros [c|f arg] Hin; [reflexivity|].
  each_trig f (flat_calls _ _ _ Hf Hin);
    reflexivity.
Qed.

(** On a flat expression the six passes of the degree mode come to the
    rewriting of every call [func(arg)] into [func(arg * pi/180)]. *)
Lemma handle_degrees_flat (self : CalculatorEngine) (ps : list piece) :
  flat ps = true ->
  Engine._handle_special_functions (Engine.set_angle_mode degrees self) (render ps) =
    render (map to_degrees ps).
Proof.
  intros Hf. rewrite handle_degrees, passes_on_flat by (reflexivity || assumption).
  now rewrite all_passes.
Qed.

(** An inner call whose argument has no parentheses, inside the argument of
    another trig call: the pass of sin rewrites [sin(1)], the pass of cos then
    takes [sin(1 * pi/180] for the argument of cos and writes the factor a
    second time in front of the same parenthesis.  The text that is evaluated
    does not contain [sin(1 * pi/180)]. *)
Lemma nested_call_gets_factor_twice :
  Engine.preprocess (Engine.set_angle_mode degrees Engine.init) "cos(sin(1))"
    = "cos(sin(1 * pi/180 * pi/180))"
  /\ contains "sin(1 * pi/180)"
       (Engine.preprocess (Engine.set_angle_mode degrees Engine.init) "cos(sin(1))") = false.
Proof. split; reflexivity. Qed.

(** C4, amended. In degrees mode, for an expression that after the constant
    substitution reads as ordinary characters and trig calls with non-empty
    arguments free of parentheses, with no other trig name in front of an
    opening parenthesis, the text handed to the evaluator is the expression
    with every call [func(arg)] rewritten to [func(arg * pi/180)], and
    [evaluate] returns SymPy's value of that text.  So [evaluate("sin(90)")]
    in degrees mode is SymPy's value of [sin(90 * pi/180)] and
    [evaluate("sin(pi/2)")] in radians mode its value of
    [sin(3.141592653589793/2)]: the two results are within 1e-9 of each other
    as these two values are; and [evaluate("sin(0)")], [evaluate("cos(0)")]
    return in degrees mode SymPy's value of [sin(0 * pi/180)],
    [cos(0 * pi/180)] and in radians mode that of [sin(0)], [cos(0)]: the
    same number in both modes as these values are the same. *)
Theorem degree_rewrite_of_flat_expression
        (sp : SymPy) (self : CalculatorEngine) (expression : string) (ps : list piece) :
  Engine.substitute_constants self expression = render ps ->
  flat ps = true ->
  let deg := Engine.set_angle_mode degrees in
  let rad := Engine.set_angle_mode radians in
  Engine.preprocess (deg self) expression = render (map to_degrees ps)
  /\ (forall x, Engine.evaluates_to sp (render (map to_degrees ps)) x ->
        Engine.evaluate sp (deg self) expression = Ok (PyFloat x))
  /\ (forall x y,
        Engine.evaluates_to sp "sin(90 * pi/180)" x ->
        Engine.evaluates_to sp "sin(3.141592653589793/2)" y ->
        PyNum.close x y = true ->
        exists x' y',
          Engine.evaluate sp (deg Engine.init) "sin(90)" = Ok (PyFloat x')
          /\ Engine.evaluate sp (rad Engine.init) "sin(pi/2)" = Ok (PyFloat y')
          /\ PyNum.close x' y' = true)
  /\ (forall v,
        Engine.evaluates_to sp "sin(0 * pi/180)" v ->
        Engine.evaluates_to sp "sin(0)" v ->
        Engine.evaluate sp (deg Engine.init) "sin(0)" = Ok (PyFloat v)
        /\ Engine.evaluate sp (rad Engine.init) "sin(0)" = Ok (PyFloat v))
  /\ (forall v,
        Engine.evaluates_to sp "cos(0 * pi/180)" v ->
        Engine.evaluates_to sp "cos(0)" v ->
        Engine.evaluate sp (deg Engine.init) "cos(0)" = Ok (PyFloat v)
        /\ Engine.evaluate sp (rad Engine.init) "cos(0)" = Ok (PyFloat v)).
Proof.
  intros Hs Hf. cbv zeta.
  assert (Hp : Engine.preprocess (Engine.set_angle_mode degrees self) expression
               = render (map to_degrees ps)).
  { unfold Engine.preprocess. rewrite substitute_constants_mode, Hs.
    now apply handle_degrees_flat. }
  split; [exact Hp|]. split; [|split; [|split]].
  - intros x Hx. apply evaluate_of_value. now rewrite Hp.
  - intros x y Hx Hy Hxy. exists x, y.
    split; [|split; [|exact Hxy]]; apply evaluate_of_value; assumption.
  - intros v Hd Hr. split; apply evaluate_of_value; assumption.
  - intros v Hd Hr. split; apply evaluate_of_value; assumption.
Qed.

End DegreeRewrite.

(** ** The degree rewrite in any context *)

Module AnyContext.
Import PyStr StrFacts ScanFacts Shape Preprocessing DegreeRewrite.

Lemma append_inj_length (a b a' b' : string) :
  a ++ b = a' ++ b' -> String.length a = String.length a' -> a = a' /\ b = b'.
Proof.
  revert a'; induction a as [|c a IH]; intros [|c' a'] H Hl; try discriminate Hl.
  - split; [reflexivity|exact H].
  - simpl in H. inversion H; subst. simpl in Hl.
    destruct (IH a' H2) as [-> ->]; [lia|]. split; reflexivity.
Qed.

Lemma get_drop (n : nat) (s : string) (c : ascii) :
  String.get n s = Some c -> drop n s = String c (drop (S n) s).
Proof.
  revert n; induction s as [|d s IH]; intros [|n]; simpl; try discriminate.
  - intros H. inversion H. now destruct s.
  - intros H. rewrite (IH n H). reflexivity.
Qed.

(** What a match of the call pattern is made of. *)
Lemma call_pattern_inv (g : string) (prev : option ascii) (s repl : string) (len : nat) :
  Re.call_pattern g prev s = Some (repl, len) ->
  exists arg rest,
    s = (g ++ "(" ++ arg) ++ String ")" rest
    /\ arg <> ""
    /\ all_chars Re.not_rparen arg = true
    /\ repl = (g ++ "(" ++ arg) ++ degree_factor ++ ")"
    /\ len = S (String.length (g ++ "(" ++ arg)).
Proof.
  unfold Re.call_pattern.
  destruct (String.prefix (g ++ "(") s) eqn:Hp; [|discriminate].
  apply prefix_split in Hp as [t ->].
  replace (String.length g + 1) with (String.length (g ++ "("))
    by (rewrite length_append; reflexivity).
  rewrite drop_append.
  pose proof (take_while_split Re.not_rparen t) as Ht.
  pose proof (take_while_all Re.not_rparen t) as Hall.
  destruct (take_while Re.not_rparen t) as [|a arg] eqn:E; [discriminate|].
  destruct (String.get (String.length (String a arg)) t) as [c|] eqn:G; [|discriminate].
  destruct (Ascii.eqb_spec c ")") as [->|Hc].
  - intros H. inversion H; subst. clear H.
    exists (String a arg), (drop (S (String.length (String a arg))) t).
    rewrite (get_drop _ _ _ G) in Ht.
    repeat split.
    + rewrite Ht at 1. now rewrite !append_assoc.
    + discriminate.
    + exact Hall.
    + now rewrite !append_assoc.
    + rewrite !length_append. simpl. lia.
  - intros H. exfalso.
    destruct c as [[] [] [] [] [] [] [] []]; try discriminate H. now apply Hc.
Qed.

Lemma call_pattern_span (g : string) (prev : option ascii) (s repl : string) (len : nat) :
  Re.call_pattern g prev s = Some (repl, len) -> 1 <= len <= String.length s.
Proof.
  intros H. apply call_pattern_inv in H as (arg & rest & -> & _ & _ & _ & ->).
  rewrite (length_append (g ++ "(" ++ arg)). simpl. lia.
Qed.

(** The function [Re.scan] runs as the derivations of [Scan] say. *)
Lemma scan_Scan (m : Re.matcher) :
  (forall prev s repl len, m prev s = Some (repl, len) -> 1 <= len <= String.length s) ->
  forall (n : nat) (s : string) (prev : option ascii),
    String.length s <= n -> Scan m prev s (Re.scan m 0 prev s).
Proof.
  intros Hspan. induction n as [|n IH]; intros [|c rest] prev Hn;
    try (simpl in Hn; lia); try constructor.
  cbn [Re.scan]. destruct (m prev (String c rest)) as [[repl len]|] eqn:E.
  - destruct (Hspan _ _ _ _ E) as [H1 H2]. simpl in H2.
    destruct len as [|k]; [lia|].
    replace (S k - 1) with k by lia.
    assert (Hk : String.length (take k rest) = k) by (apply length_take; lia).
    pose proof (take_drop k rest) as Hr.
    remember (take k rest) as u eqn:Hu. remember (drop k rest) as v eqn:Hv.
    clear Hu Hv. subst rest k.
    rewrite scan_skip.
    apply Scan_match; [exact E|].
    apply IH. simpl in Hn. rewrite length_append in Hn. lia.
  - apply Scan_copy; [exact E|]. apply IH. simpl in Hn. lia.
Qed.

Lemma sub_Scan (g s : string) :
  Scan (Re.call_pattern g) None s (Re.sub (Re.call_pattern g) s).
Proof.
  apply (scan_Scan _ (call_pattern_span g) (String.length s)). lia.
Qed.

Lemma Inserted_refl (s : string) : Inserted s s.
Proof. induction s; constructor; assumption. Qed.

Lemma Inserted_app (a a' b b' : string) :
  Inserted a a' -> Inserted b b' -> Inserted (a ++ b) (a' ++ b').
Proof.
  intros Ha Hb. induction Ha as [|c s t Ha IH|s t Ha IH]; cbn [append].
  - exact Hb.
  - now constructor.
  - rewrite append_assoc. cbn [append]. now constructor.
Qed.

Lemma Inserted_length (s t : string) : Inserted s t -> String.length s <= String.length t.
Proof.
  induction 1 as [|c s t H IH|s t H IH]; simpl; lia.
Qed.

Lemma Inserted_app_inv (a b t : string) :
  Inserted (a ++ b) t ->
  exists ta tb, t = ta ++ tb /\ Inserted a ta /\ Inserted b tb.
Proof.
  revert t; induction a as [|c a IH]; intros t H.
  - exists "", t. repeat split; [constructor|exact H].
  - cbn [append] in H. inversion H as [|c' s' t' H' E1 E2|s' t' H' E1 E2]; subst.
    + destruct (IH _ H') as (ta & tb & -> & Ha & Hb).
      exists (String c ta), tb. repeat split; [now constructor|exact Hb].
    + destruct (IH _ H') as (ta & tb & -> & Ha & Hb).
      exists (degree_factor ++ String ")" ta), tb.
      repeat split; [now constructor|exact Hb].
Qed.

Lemma Inserted_no_rparen (s t : string) :
  all_chars Re.not_rparen s = true -> Inserted s t -> t = s.
Proof.
  intros Hs H. induction H as [|c s t H IH|s t H IH]; [reflexivity| |discriminate Hs].
  cbn [all_chars] in Hs. apply andb_true_iff in Hs as [_ Hs]. now rewrite IH.
Qed.

Lemma Inserted_rparen_inv (s t : string) :
  Inserted (String ")" s) t ->
  exists t' k, k <= 1 /\ t = repeat_factor k ++ String ")" t' /\ Inserted s t'.
Proof.
  intros H. inversion H as [|c' s' t' H' E1 E2|s' t' H' E1 E2]; subst.
  - exists t', 0. repeat split; [lia|exact H'].
  - exists t', 1. repeat split; [lia|exact H'].
Qed.

Lemma match_shape (g : string) (prev : option ascii) (c : ascii) (u v repl : string) :
  Re.call_pattern g prev (String c (u ++ v)) = Some (repl, S (String.length u)) ->
  exists arg,
    String c (u ++ v) = (g ++ "(" ++ arg) ++ String ")" v
    /\ arg <> ""
    /\ all_chars Re.not_rparen arg = true
    /\ repl = (g ++ "(" ++ arg) ++ degree_factor ++ ")".
Proof.
  intros H. apply call_pattern_inv in H as (arg & rest & Hs & Hne & Hall & Hr & Hl).
  exists arg. repeat split; try assumption.
  assert (E : String c u ++ v = ((g ++ "(" ++ arg) ++ ")") ++ rest)
    by (rewrite append_assoc; exact Hs).
  apply append_inj_length in E as [_ <-]; [exact Hs|].
  rewrite length_append. cbn [String.length]. lia.
Qed.

Lemma Scan_Inserted (g : string) (prev : option ascii) (s t : string) :
  Scan (Re.call_pattern g) prev s t -> Inserted s t.
Proof.
  induction 1 as [prev|prev c rest t Hm H IH|prev c u v repl t Hm H IH].
  - constructor.
  - now constructor.
  - apply match_shape in Hm as (arg & -> & _ & _ & ->).
    rewrite (append_assoc (g ++ "(" ++ arg) (degree_factor ++ ")") t).
    apply Inserted_app; [apply Inserted_refl|].
    exact (Ins_factor _ _ IH).
Qed.

Lemma split_at_rparen (u : string) :
  all_chars Re.not_rparen u = true
  \/ exists u1 u2, u = u1 ++ String ")" u2 /\ all_chars Re.not_rparen u1 = true.
Proof.
  induction u as [|c u IH]; [now left|].
  destruct (Re.not_rparen c) eqn:E.
  - destruct IH as [IH|(u1 & u2 & -> & H1)].
    + left. cbn [all_chars]. now rewrite E, IH.
    + right. exists (String c u1), u2. split; [reflexivity|].
      cbn [all_chars]. now rewrite E, H1.
  - right. exists "", u. split; [|reflexivity].
    unfold Re.not_rparen in E. apply negb_false_iff, Ascii.eqb_eq in E. now subst c.
Qed.

Lemma first_rparen_eq (x y r v : string) :
  x ++ String ")" r = y ++ String ")" v ->
  all_chars Re.not_rparen x = true ->
  all_chars Re.not_rparen y = true ->
  x = y /\ r = v.
Proof.
  revert y; induction x as [|c x IH]; intros [|d y] H Hx Hy; cbn [append] in H.
  - inversion H. now split.
  - inversion H; subst. discriminate Hy.
  - inversion H; subst. discriminate Hx.
  - inversion H; subst. cbn [all_chars] in Hx, Hy.
    apply andb_true_iff in Hx as [_ Hx]. apply andb_true_iff in Hy as [_ Hy].
    destruct (IH y H2 Hx Hy) as [-> ->]. now split.
Qed.

Lemma trig_no_rparen (f : string) :
  is_trig_func f = true -> all_chars Re.not_rparen f = true.
Proof.
  intros Hf. each_trig f Hf; reflexivity.
Qed.

Lemma call_head_no_rparen (f a : string) :
  all_chars Re.not_rparen f = true ->
  all_chars Re.not_rparen a = true ->
  all_chars Re.not_rparen (f ++ "(" ++ a) = true.
Proof. intros Hf Ha. rewrite !all_chars_append, Hf, Ha. reflexivity. Qed.

(** The pass of [f] writes the factor into every call of [f] whose argument
    has no closing parenthesis, wherever the call stands: the scan either
    matches at the call, or is inside a match that started before it, and
    that match ends at the parenthesis that closes the call. *)
Lemma own_pass_inserts (f a : string) (prev : option ascii) (s t : string) :
  all_chars Re.not_rparen f = true ->
  a <> "" ->
  all_chars Re.not_rparen a = true ->
  Scan (Re.call_pattern f) prev s t ->
  forall u v : string,
    s = u ++ (f ++ "(" ++ a) ++ String ")" v ->
    exists u' v',
      t = u' ++ (f ++ "(" ++ a) ++ degree_factor ++ String ")" v'
      /\ Inserted u u' /\ Inserted v v'.
Proof.
  intros Hf Hne Ha HS.
  pose proof (call_head_no_rparen f a Hf Ha) as HK.
  induction HS as [prev|prev c rest t Hm H IH|prev c w v0 repl t Hm H IH]; intros u v Hs.
  - apply (f_equal String.length) in Hs. rewrite !length_append in Hs. simpl in Hs. lia.
  - destruct u as [|d u].
    + exfalso.
      assert (E : "" ++ (f ++ "(" ++ a) ++ String ")" v = (f ++ "(" ++ a ++ ")") ++ v)
        by (rewrite !append_assoc; reflexivity).
      rewrite Hs, E, call_pattern_matches in Hm by assumption. discriminate Hm.
    + cbn [append] in Hs. inversion Hs; subst.
      destruct (IH u v eq_refl) as (u' & v' & -> & Hu & Hv).
      exists (String d u'), v'. repeat split; [now constructor|exact Hv].
  - pose proof (Scan_Inserted _ _ _ _ H) as Hins.
    apply match_shape in Hm as (b & Hshape & Hb & Hball & ->).
    rewrite Hshape in Hs.
    pose proof (call_head_no_rparen f b Hf Hball) as HX.
    destruct (split_at_rparen u) as [Hu|(u1 & u2 & -> & Hu1)].
    + rewrite <- (append_assoc u (f ++ "(" ++ a) (String ")" v)) in Hs.
      apply first_rparen_eq in Hs as [HXY <-];
        [|assumption|rewrite all_chars_append; now rewrite Hu, HK].
      rewrite HXY. exists u, t. repeat split.
      * now rewrite !append_assoc.
      * apply Inserted_refl.
      * exact Hins.
    + rewrite (append_assoc u1 (String ")" u2)) in Hs.
      change (String ")" u2 ++ (f ++ "(" ++ a) ++ String ")" v)
        with (String ")" (u2 ++ (f ++ "(" ++ a) ++ String ")" v)) in Hs.
      apply first_rparen_eq in Hs as [-> Hv0]; [|assumption|assumption].
      destruct (IH u2 v Hv0) as (u' & v' & -> & Hu & Hv).
      exists (u1 ++ degree_factor ++ String ")" u'), v'. repeat split.
      * rewrite !append_assoc. reflexivity.
      * apply Inserted_app; [apply Inserted_refl|]. now constructor.
      * exact Hv.
Qed.

Lemma inserted_keeps_call (s t u k v : string) :
  Inserted s t ->
  s = u ++ k ++ String ")" v ->
  all_chars Re.not_rparen k = true ->
  exists u' v' n,
    n <= 1
    /\ t = u' ++ (k ++ repeat_factor n) ++ String ")" v'
    /\ Inserted u u' /\ Inserted v v'.
Proof.
  intros H -> Hk.
  apply Inserted_app_inv in H as (tu & t2 & -> & Hu & H2).
  apply Inserted_app_inv in H2 as (tk & t3 & -> & Hk' & H3).
  apply (Inserted_no_rparen _ _ Hk) in Hk'. subst tk.
  apply Inserted_rparen_inv in H3 as (t' & n & Hn & -> & Hv).
  exists tu, t', n. repeat split; try assumption.
  now rewrite !append_assoc.
Qed.

Lemma repeat_factor_add (j m : nat) :
  repeat_factor j ++ repeat_factor m = repeat_factor (j + m).
Proof.
  induction j as [|j IH]; [reflexivity|].
  cbn [repeat_factor Nat.add]. now rewrite append_assoc, IH.
Qed.

Lemma repeat_factor_no_rparen (j : nat) : all_chars Re.not_rparen (repeat_factor j) = true.
Proof.
  induction j as [|j IH]; [reflexivity|].
  cbn [repeat_factor]. now rewrite all_chars_append, IH.
Qed.

Lemma repeat_factor_length (j : nat) : String.length (repeat_factor j) = 9 * j.
Proof.
  induction j as [|j IH]; [reflexivity|].
  cbn [repeat_factor]. rewrite length_append, IH. simpl. lia.
Qed.

Section Call.
Variables x f arg : string.
Hypothesis Hx : all_chars Re.not_rparen x = true.
Hypothesis Hf : all_chars Re.not_rparen f = true.
Hypothesis Harg : all_chars Re.not_rparen arg = true.
Hypothesis Hne : arg <> "".
Variables lpre lpost : nat.

Lemma call_text_no_rparen (j : nat) :
  all_chars Re.not_rparen ((x ++ f) ++ "(" ++ arg ++ repeat_factor j) = true.
Proof.
  rewrite !all_chars_append, Hx, Hf, Harg, repeat_factor_no_rparen. reflexivity.
Qed.

(** Whatever the pass, the call keeps the factors it has. *)
Lemma pass_keeps_call (g : string) (n : nat) (s : string) :
  holds_call (x ++ f) arg lpre lpost n s ->
  holds_call (x ++ f) arg lpre lpost n (Re.sub (Re.call_pattern g) s).
Proof.
  intros (pre' & post' & j & Hj & -> & Hl1 & Hl2).
  pose proof (Scan_Inserted _ _ _ _ (sub_Scan g
    (pre' ++ ((x ++ f) ++ "(" ++ arg ++ repeat_factor j) ++ String ")" post'))) as H.
  apply inserted_keeps_call
    with (u := pre') (k := (x ++ f) ++ "(" ++ arg ++ repeat_factor j) (v := post') in H;
    [|reflexivity|apply call_text_no_rparen].
  destruct H as (u' & v' & m & Hm & Ht & Hu & Hv).
  exists u', v', (j + m). repeat split.
  - lia.
  - rewrite Ht, <- repeat_factor_add. now rewrite !append_assoc.
  - apply Inserted_length in Hu. lia.
  - apply Inserted_length in Hv. lia.
Qed.

(** The pass of [f] adds one. *)
Lemma own_pass_adds_factor (n : nat) (s : string) :
  holds_call (x ++ f) arg lpre lpost n s ->
  holds_call (x ++ f) arg lpre lpost (S n) (Re.sub (Re.call_pattern f) s).
Proof.
  intros (pre' & post' & j & Hj & -> & Hl1 & Hl2).
  pose proof (sub_Scan f
    (pre' ++ ((x ++ f) ++ "(" ++ arg ++ repeat_factor j) ++ String ")" post')) as HS.
  apply own_pass_inserts
    with (a := arg ++ repeat_factor j) (u := pre' ++ x) (v := post') in HS.
  - destruct HS as (u' & v' & Ht & Hu & Hv).
    apply Inserted_app_inv in Hu as (p' & x' & -> & Hp & Hx').
    apply (Inserted_no_rparen _ _ Hx) in Hx'. subst x'.
    exists p', v', (S j). repeat split.
    + lia.
    + rewrite Ht. replace (S j) with (j + 1) by lia.
      rewrite <- repeat_factor_add. rewrite !append_assoc. reflexivity.
    + apply Inserted_length in Hp. lia.
    + apply Inserted_length in Hv. lia.
  - exact Hf.
  - destruct arg; [congruence|discriminate].
  - now rewrite all_chars_append, Harg, repeat_factor_no_rparen.
  - now rewrite !append_assoc.
Qed.

Lemma passes_keep_call (gs : list string) (n : nat) (s : string) :
  holds_call (x ++ f) arg lpre lpost n s ->
  holds_call (x ++ f) arg lpre lpost n
    (fold_left (fun e func => Re.sub (Re.call_pattern func) e) gs s).
Proof.
  revert s; induction gs as [|g gs IH]; intros s H; [exact H|].
  cbn [fold_left]. now apply IH, pass_keeps_call.
Qed.

Lemma passes_add_factor (gs : list string) (n : nat) (s : string) :
  In f gs ->
  holds_call (x ++ f) arg lpre lpost n s ->
  holds_call (x ++ f) arg lpre lpost (S n)
    (fold_left (fun e func => Re.sub (Re.call_pattern func) e) gs s).
Proof.
  revert s; induction gs as [|g gs IH]; intros s Hin H; [destruct Hin|].
  cbn [fold_left]. destruct (String.eqb_spec g f) as [->|Hgf].
  - now apply passes_keep_call, own_pass_adds_factor.
  - destruct Hin as [Hin|Hin]; [congruence|].
    now apply IH, pass_keeps_call.
Qed.

End Call.

Lemma trig_in (f : string) : is_trig_func f = true -> In f Engine.trig_funcs.
Proof.
  unfold is_trig_func. intros H. apply existsb_exists in H as (g & Hin & E).
  apply String.eqb_eq in E. now subst g.
Qed.

(** *** How often the factor is written *)

Lemma append_eq_prefix (a b c d : string) :
  a ++ b = c ++ d -> String.length c <= String.length a ->
  exists e, a = c ++ e /\ d = e ++ b.
Proof.
  revert a; induction c as [|x c IH]; intros a H Hl.
  - exists a. split; [reflexivity|]. cbn [append] in H. now symmetry.
  - destruct a as [|y a]; [simpl in Hl; lia|].
    cbn [append] in H. inversion H; subst.
    destruct (IH a H2) as (e & -> & ->); [simpl in Hl; lia|].
    exists e. split; reflexivity.
Qed.

Lemma all_chars_last (q : ascii -> bool) (e : string) (prev : option ascii) (c : ascii) :
  all_chars q e = true -> e <> "" -> last_char prev e = Some c -> q c = true.
Proof.
  revert prev; induction e as [|d e IH]; intros prev Hq Hne Hl; [congruence|].
  cbn [all_chars] in Hq. apply andb_true_iff in Hq as [Hd He].
  cbn [last_char] in Hl. destruct e as [|d' e].
  - cbn in Hl. inversion Hl. now subst.
  - apply (IH (Some d) He); [discriminate|exact Hl].
Qed.

Lemma prefix_app (p a b : string) :
  String.prefix p a = true -> String.prefix p (a ++ b) = true.
Proof.
  intros H. apply prefix_split in H as [t ->]. apply prefix_split.
  exists (t ++ b). now rewrite append_assoc.
Qed.

(** A text that ends with an opening parenthesis is a prefix of [H ++ A],
    with [A] free of opening parentheses, only inside [H]. *)
Lemma prefix_call_head (g H A : string) :
  all_chars no_lparen A = true ->
  String.prefix (g ++ "(") (H ++ A) = true ->
  String.prefix (g ++ "(") H = true.
Proof.
  intros HA Hp. apply prefix_split in Hp as [t Ht].
  destruct (Nat.le_gt_cases (String.length (g ++ "(")) (String.length H)) as [Hl|Hl].
  - destruct (append_eq_prefix _ _ _ _ Ht Hl) as (e & -> & _).
    apply prefix_split. now exists e.
  - exfalso. symmetry in Ht.
    destruct (append_eq_prefix _ _ _ _ Ht) as (e & Hg & HAe); [lia|].
    assert (Hne : e <> "").
    { intros ->. rewrite Hg, append_nil_r in Hl. lia. }
    assert (Hlast : last_char (last_char None H) e = Some "("%char).
    { rewrite <- last_char_append, <- Hg, last_char_append. reflexivity. }
    rewrite HAe, all_chars_append in HA. apply andb_true_iff in HA as [He _].
    pose proof (all_chars_last _ _ _ _ He Hne Hlast) as Hc. discriminate Hc.
Qed.

Lemma opens_no_lparen (g A : string) : all_chars no_lparen A = true -> opens g A = false.
Proof.
  induction A as [|c A IH]; [reflexivity|]. intros HA.
  cbn [opens]. rewrite IH, orb_false_r
    by (cbn [all_chars] in HA; now apply andb_true_iff in HA).
  destruct (String.prefix (g ++ "(") (String c A)) eqn:Hp; [exfalso|reflexivity].
  apply (prefix_call_head g "" (String c A) HA) in Hp.
  apply prefix_split in Hp as [t Ht]. destruct g; discriminate Ht.
Qed.

(** Before a non-empty text free of opening parentheses, the calls that
    open in [H] are the occurrences of [g(] in [H]. *)
Lemma opens_app (g H A : string) :
  A <> "" -> all_chars no_lparen A = true ->
  opens g (H ++ A) = contains (g ++ "(") H.
Proof.
  intros Hne HA. induction H as [|c H IH].
  - cbn [append]. rewrite (opens_no_lparen g A HA).
    destruct g; reflexivity.
  - change (String c H ++ A) with (String c (H ++ A)).
    cbn [opens]. rewrite IH.
    change (contains (g ++ "(") (String c H))
      with (String.prefix (g ++ "(") (String c H) || contains (g ++ "(") H).
    f_equal.
    destruct (String.prefix (g ++ "(") (String c H)) eqn:Hp.
    + change (String c (H ++ A)) with (String c H ++ A).
      rewrite (prefix_app _ _ A Hp). cbn [andb]. apply Nat.ltb_lt.
      apply prefix_length in Hp. rewrite length_append in *.
      destruct A; [congruence|]. simpl in *. lia.
    + destruct (String.prefix (g ++ "(") (String c (H ++ A))) eqn:Hq; [|reflexivity].
      change (String c (H ++ A)) with (String c H ++ A) in Hq.
      apply (prefix_call_head g _ A HA) in Hq. congruence.
Qed.

Lemma scan_prev (g : string) (s : string) (k : nat) (prev prev' : option ascii) :
  Re.scan (Re.call_pattern g) k prev s = Re.scan (Re.call_pattern g) k prev' s.
Proof.
  revert k prev prev'; induction s as [|c s IH]; intros k prev prev'; [reflexivity|].
  cbn [Re.scan]. destruct k as [|k]; [|apply IH].
  change (Re.call_pattern g prev (String c s)) with (Re.call_pattern g prev' (String c s)).
  destruct (Re.call_pattern g prev' (String c s)) as [[repl len]|]; f_equal; apply IH.
Qed.

(** One pass over a stretch of text without closing parenthesis and the
    parenthesis behind it: the factor is written in front of the
    parenthesis when a call of [g] opens in the stretch. *)
Lemma sub_segment (g w v : string) :
  all_chars Re.not_rparen g = true ->
  all_chars Re.not_rparen w = true ->
  Re.sub (Re.call_pattern g) (w ++ String ")" v)
    = w ++ (if opens g w then degree_factor else "")
        ++ String ")" (Re.sub (Re.call_pattern g) v).
Proof.
  intros Hg Hw. unfold Re.sub.
  enough (H : forall prev prev',
             Re.scan (Re.call_pattern g) 0 prev (w ++ String ")" v)
             = w ++ (if opens g w then degree_factor else "")
                 ++ String ")" (Re.scan (Re.call_pattern g) 0 prev' v)) by apply H.
  induction w as [|c w IH]; intros prev prev'.
  - cbn [append opens Re.scan].
    destruct (Re.call_pattern g prev (String ")" v)) as [[repl len]|] eqn:E.
    + exfalso. apply call_pattern_inv in E as (arg & rest & Hs & _ & Harg & _).
      apply (first_rparen_eq "" (g ++ "(" ++ arg)) in Hs as [Hx _];
        [|reflexivity|now apply call_head_no_rparen].
      destruct g; discriminate Hx.
    + f_equal. apply scan_prev.
  - pose proof Hw as Hcw.
    cbn [all_chars] in Hw. apply andb_true_iff in Hw as [Hc Hw].
    destruct (Re.call_pattern g prev (String c w ++ String ")" v)) as [[repl len]|] eqn:E.
    + pose proof E as E'.
      apply call_pattern_inv in E' as (arg & rest & Hs & Hne & Harg & _).
      apply first_rparen_eq in Hs as [Hcw' <-];
        [|exact Hcw|now apply call_head_no_rparen].
      assert (Ho : opens g (String c w) = true).
      { cbn [opens]. rewrite Hcw'.
        assert (Hp : String.prefix (g ++ "(") (g ++ "(" ++ arg) = true).
        { apply prefix_split. exists arg. now rewrite append_assoc. }
        rewrite Hp. cbn [andb].
        replace (Nat.ltb (String.length g + 1) (String.length (g ++ "(" ++ arg))) with true;
          [reflexivity|].
        symmetry. apply Nat.ltb_lt. rewrite !length_append.
        destruct arg; [congruence|]. simpl. lia. }
      rewrite Ho, Hcw'.
      pose proof (scan_over_own_call g arg v prev Hne Harg) as HS.
      cbn [render_piece] in HS.
      replace ((g ++ "(" ++ arg) ++ String ")" v) with ((g ++ "(" ++ arg ++ ")") ++ v)
        by (rewrite !append_assoc; reflexivity).
      rewrite HS. rewrite !append_assoc. cbn [append].
      rewrite (scan_prev g v 0 (Some ")"%char) prev'). reflexivity.
    + change (String c w ++ String ")" v) with (String c (w ++ String ")" v)) in *.
      cbn [Re.scan]. rewrite E. cbn [append]. f_equal.
      rewrite (IH Hw (Some c) prev').
      replace (opens g (String c w)) with (opens g w); [reflexivity|].
      cbn [opens].
      destruct (String.prefix (g ++ "(") (String c w)
                && (Nat.ltb (String.length g + 1) (String.length (String c w)))) eqn:Hh;
        [exfalso|reflexivity].
      apply andb_true_iff in Hh as [Hp Hl]. apply Nat.ltb_lt in Hl.
      apply prefix_split in Hp as [a Ha].
      assert (Hane : a <> "").
      { intros ->. rewrite Ha, append_nil_r, length_append in Hl. simpl in Hl. lia. }
      assert (Hall : all_chars Re.not_rparen a = true).
      { rewrite Ha, all_chars_append in Hcw. now apply andb_true_iff in Hcw. }
      pose proof (call_pattern_matches g a v prev Hane Hall) as Hm.
      replace ((g ++ "(" ++ a ++ ")") ++ v) with (String c (w ++ String ")" v)) in Hm.
      * rewrite Hm in E. discriminate E.
      * change (String c (w ++ String ")" v)) with (String c w ++ String ")" v).
        rewrite Ha, !append_assoc. reflexivity.
Qed.

Lemma closed_split (P : string) :
  closed P ->
  P = ""
  \/ exists w P1,
       P = w ++ String ")" P1 /\ all_chars Re.not_rparen w = true /\ closed P1
       /\ String.length P1 < String.length P.
Proof.
  intros [->|(P0 & ->)]; [now left|right].
  destruct (split_at_rparen P0) as [H0|(u1 & u2 & -> & H1)].
  - exists P0, "". repeat split; [exact H0|now left|].
    rewrite length_append. simpl. lia.
  - exists u1, (u2 ++ ")"). repeat split.
    + rewrite append_assoc. reflexivity.
    + exact H1.
    + right. now exists u2.
    + rewrite !length_append. simpl. rewrite ?length_append. simpl. lia.
Qed.

(** A pass over a text that ends with a closing parenthesis does not reach
    into what follows. *)
Lemma sub_closed_app (g : string) :
  all_chars Re.not_rparen g = true ->
  forall (n : nat) (P y : string),
    String.length P <= n -> closed P ->
    Re.sub (Re.call_pattern g) (P ++ y)
      = Re.sub (Re.call_pattern g) P ++ Re.sub (Re.call_pattern g) y.
Proof.
  intros Hg. induction n as [|n IH]; intros P y Hn Hc.
  - destruct P; [reflexivity|simpl in Hn; lia].
  - destruct (closed_split P Hc) as [->|(w & P1 & -> & Hw & Hc1 & Hl)]; [reflexivity|].
    rewrite append_assoc. cbn [append].
    rewrite !(sub_segment g w _ Hg Hw), (IH P1 y) by (assumption || lia).
    rewrite !append_assoc. cbn [append]. reflexivity.
Qed.

Lemma Inserted_nil (t : string) : Inserted "" t -> t = "".
Proof. now apply Inserted_no_rparen. Qed.

Lemma Inserted_closed (P P' : string) : Inserted P P' -> closed P -> closed P'.
Proof.
  intros H [->|(P0 & ->)].
  - left. now apply Inserted_nil.
  - right. apply Inserted_app_inv in H as (ta & tb & -> & _ & Hb).
    apply Inserted_rparen_inv in Hb as (t' & k & _ & -> & Ht).
    apply Inserted_nil in Ht. subst t'.
    exists (ta ++ repeat_factor k). now rewrite append_assoc.
Qed.

Lemma count_rparen_append (a b : string) :
  count_rparen (a ++ b) = count_rparen a + count_rparen b.
Proof. induction a as [|c a IH]; [reflexivity|]. cbn [append count_rparen]. rewrite IH. lia. Qed.

Lemma Inserted_count (s t : string) : Inserted s t -> count_rparen t = count_rparen s.
Proof.
  induction 1 as [|c s t H IH|s t H IH]; [reflexivity| |].
  - cbn [count_rparen]. now rewrite IH.
  - rewrite count_rparen_append. cbn. now rewrite IH.
Qed.

Lemma sub_Inserted (g s : string) : Inserted s (Re.sub (Re.call_pattern g) s).
Proof. exact (Scan_Inserted _ _ _ _ (sub_Scan g s)). Qed.

Lemma open_segment_no_rparen (s : string) : all_chars Re.not_rparen (open_segment s) = true.
Proof.
  induction s as [|c s IH]; [reflexivity|]. cbn [open_segment].
  destruct (all_chars Re.not_rparen (String c s)) eqn:E; [exact E|exact IH].
Qed.

Lemma open_segment_id (s : string) : all_chars Re.not_rparen s = true -> open_segment s = s.
Proof. destruct s as [|c s]; [reflexivity|]. cbn [open_segment]. now intros ->. Qed.

Lemma open_segment_split (s : string) : exists P, s = P ++ open_segment s /\ closed P.
Proof.
  induction s as [|c s (P & HP & Hc)]; [exists ""; split; [reflexivity|now left]|].
  cbn [open_segment].
  destruct (all_chars Re.not_rparen (String c s)) eqn:E.
  - exists "". split; [reflexivity|now left].
  - exists (String c P). split; [cbn [append]; now rewrite <- HP|].
    destruct Hc as [->|(P0 & ->)].
    + right. exists "". cbn [append] in *.
      cbn [all_chars] in E. rewrite HP, open_segment_no_rparen, andb_true_r in E.
      unfold Re.not_rparen in E. apply negb_false_iff, Ascii.eqb_eq in E. now subst c.
    + right. now exists (String c P0).
Qed.

Lemma open_segment_closed_app (P seg : string) :
  closed P -> all_chars Re.not_rparen seg = true -> open_segment (P ++ seg) = seg.
Proof.
  intros [->|(P0 & ->)] Hs; [now apply open_segment_id|].
  rewrite append_assoc. cbn [append].
  induction P0 as [|c P0 IH].
  - cbn [append open_segment all_chars]. cbn. now apply open_segment_id.
  - cbn [append open_segment].
    replace (all_chars Re.not_rparen (String c (P0 ++ String ")" seg))) with false; [exact IH|].
    cbn [all_chars]. rewrite all_chars_append. cbn. now rewrite !andb_false_r.
Qed.

Section Count.
Variables (f arg seg P0 post : string).
Hypothesis Hf : is_trig_func f = true.
Hypothesis Hne : arg <> "".
Hypothesis Harg : paren_free arg = true.
Hypothesis Hseg : all_chars Re.not_rparen seg = true.

Lemma factor_no_lparen (j : nat) : all_chars no_lparen (arg ++ repeat_factor j) = true.
Proof.
  rewrite all_chars_append. apply andb_true_iff. split.
  - clear Hne. induction arg as [|c a IH]; [reflexivity|].
    cbn [paren_free all_chars] in *. apply andb_true_iff in Harg as [Hc Ha].
    rewrite (IH Ha), andb_true_r. unfold is_paren in Hc. unfold no_lparen.
    destruct (Ascii.eqb c "("); [discriminate Hc|reflexivity].
  - induction j as [|j IH]; [reflexivity|].
    cbn [repeat_factor]. now rewrite all_chars_append, IH.
Qed.

Lemma stretch_no_rparen (j : nat) :
  all_chars Re.not_rparen (seg ++ ("a" ++ f ++ "(") ++ arg ++ repeat_factor j) = true.
Proof.
  rewrite !all_chars_append, Hseg, (trig_no_rparen f Hf), (all_not_rparen arg Harg),
    repeat_factor_no_rparen. reflexivity.
Qed.

Lemma pass_counts (g : string) (j : nat) (T : string) :
  is_trig_func g = true ->
  at_call f arg seg P0 post j T ->
  at_call f arg seg P0 post (j + (if contains (g ++ "(") (seg ++ "a" ++ f ++ "(") then 1 else 0))
          (Re.sub (Re.call_pattern g) T).
Proof.
  intros Hg (P' & Q' & -> & Hc & Hn & Hl1 & Hl2).
  pose proof (trig_no_rparen g Hg) as Hgr.
  rewrite (sub_closed_app g Hgr (String.length P') P' _ (le_n _) Hc).
  rewrite (sub_segment g _ Q' Hgr (stretch_no_rparen j)).
  assert (Ho : opens g (seg ++ ("a" ++ f ++ "(") ++ arg ++ repeat_factor j)
               = contains (g ++ "(") (seg ++ "a" ++ f ++ "(")).
  { rewrite <- (opens_app g (seg ++ "a" ++ f ++ "(") (arg ++ repeat_factor j)).
    - f_equal. now rewrite !append_assoc.
    - destruct arg; [congruence|discriminate].
    - apply factor_no_lparen. }
  rewrite Ho.
  exists (Re.sub (Re.call_pattern g) P'), (Re.sub (Re.call_pattern g) Q').
  pose proof (sub_Inserted g P') as HP. pose proof (sub_Inserted g Q') as HQ.
  repeat split.
  - f_equal. rewrite <- repeat_factor_add.
    destruct (contains (g ++ "(") (seg ++ "a" ++ f ++ "("));
      cbn [repeat_factor]; rewrite !append_assoc; cbn [append];
      rewrite ?append_nil_r; reflexivity.
  - exact (Inserted_closed _ _ HP Hc).
  - now rewrite (Inserted_count _ _ HP).
  - apply Inserted_length in HP. lia.
  - apply Inserted_length in HQ. lia.
Qed.

Lemma passes_count (gs : list string) (j : nat) (T : string) :
  forallb is_trig_func gs = true ->
  at_call f arg seg P0 post j T ->
  at_call f arg seg P0 post (j + length (filter (fun g => contains (g ++ "(") (seg ++ "a" ++ f ++ "(")) gs))
          (fold_left (fun e func => Re.sub (Re.call_pattern func) e) gs T).
Proof.
  revert j T; induction gs as [|g gs IH]; intros j T Hgs H.
  - cbn. now rewrite Nat.add_0_r.
  - cbn [forallb] in Hgs. apply andb_true_iff in Hgs as [Hg Hgs].
    cbn [fold_left filter].
    apply (pass_counts g j T Hg) in H. apply (IH _ _ Hgs) in H.
    destruct (contains (g ++ "(") (seg ++ "a" ++ f ++ "(")); cbn [length].
    + now replace (j + S (length (filter (fun g0 => contains (g0 ++ "(") (seg ++ "a" ++ f ++ "(")) gs)))
        with (j + 1 + length (filter (fun g0 => contains (g0 ++ "(") (seg ++ "a" ++ f ++ "(")) gs))
        by lia.
    + now rewrite Nat.add_0_r in H.
Qed.

End Count.

(** The call of [asin], with parentheses inside its argument: the factor is
    written in front of the first closing parenthesis, inside the argument;
    the argument [(1+2)/4] is not multiplied. *)
Lemma inverse_call_with_nested_parentheses :
  Engine.preprocess (Engine.set_angle_mode degrees Engine.init) "asin((1+2)/4)"
    = "asin((1+2 * pi/180)/4)".
Proof. reflexivity. Qed.

(** C10, amended. In degrees mode, wherever the text left by the constant
    substitution has a call [a<func>(arg)] of an inverse trig function, with
    [func] one of the six names and [arg] non-empty and free of parentheses,
    the text handed to the evaluator has that call, behind as many closing
    parentheses as before, with the factor written behind [arg] once for
    every trig name [g] for which [g(] stands between the last closing
    parenthesis before the call and the opening parenthesis of the call:
    [func] itself is one of them, so the factor is there at least once and at
    most six times (once in [asin(x)] and in [sin(asin(x))], twice in
    [cos(asin(x))]); the text is not the one handed over in radians mode; and
    [evaluate("asin(0.5)")] returns SymPy's value of [asin(0.5 * pi/180)] in
    degrees mode and of [asin(0.5)] in radians mode, two results that differ
    as these values do. *)
Theorem inverse_trig_argument_gets_factor
        (sp : SymPy) (self : CalculatorEngine) (expression pre func arg post : string) :
  is_trig_func func = true ->
  arg <> "" ->
  paren_free arg = true ->
  Engine.substitute_constants self expression
    = pre ++ ("a" ++ func ++ "(" ++ arg ++ ")") ++ post ->
  let deg := Engine.set_angle_mode degrees in
  let rad := Engine.set_angle_mode radians in
  let k := length (open_calls pre ("a" ++ func)) in
  (exists (pre' post' : string),
      Engine.preprocess (deg self) expression
        = pre' ++ ("a" ++ func ++ "(" ++ arg ++ repeat_factor k ++ ")") ++ post'
      /\ open_segment pre' = open_segment pre
      /\ count_rparen pre' = count_rparen pre
      /\ String.length pre <= String.length pre'
      /\ String.length post <= String.length post')
  /\ In func (open_calls pre ("a" ++ func))
  /\ 1 <= k <= 6
  /\ Engine.preprocess (deg self) expression <> Engine.preprocess (rad self) expression
  /\ Engine.preprocess (deg Engine.init) "asin(x)" = "asin(x * pi/180)"
  /\ Engine.preprocess (deg Engine.init) "sin(asin(x))" = "sin(asin(x * pi/180))"
  /\ Engine.preprocess (deg Engine.init) "cos(asin(x))" = "cos(asin(x * pi/180 * pi/180))"
  /\ (forall x y,
        Engine.evaluates_to sp "asin(0.5 * pi/180)" x ->
        Engine.evaluates_to sp "asin(0.5)" y ->
        x <> y ->
        Engine.evaluate sp (deg Engine.init) "asin(0.5)" = Ok (PyFloat x)
        /\ Engine.evaluate sp (rad Engine.init) "asin(0.5)" = Ok (PyFloat y)
        /\ Engine.evaluate sp (deg Engine.init) "asin(0.5)"
           <> Engine.evaluate sp (rad Engine.init) "asin(0.5)").
Proof.
  intros Hfunc Hne Harg Hs. cbv zeta.
  destruct (open_segment_split pre) as (P & HP & HcP).
  pose proof (open_segment_no_rparen pre) as Hseg.
  assert (Hlen : String.length pre = String.length P + String.length (open_segment pre))
    by (rewrite HP at 1; apply length_append).
  assert (Hcnt : count_rparen pre = count_rparen P + count_rparen (open_segment pre))
    by (rewrite HP at 1; apply count_rparen_append).
  assert (Hin : In func (open_calls pre ("a" ++ func))).
  { unfold open_calls. apply filter_In. split; [now apply trig_in|].
    replace (open_segment pre ++ ("a" ++ func) ++ "(")
      with ((open_segment pre ++ "a") ++ (func ++ "(") ++ "")
      by (rewrite append_nil_r, !append_assoc; reflexivity).
    apply contains_append. }
  assert (Hk : 1 <= length (open_calls pre ("a" ++ func)) <= 6).
  { split.
    - destruct (open_calls pre ("a" ++ func)); [destruct Hin|simpl; lia].
    - unfold open_calls, Engine.trig_funcs. cbn [filter].
      repeat match goal with |- context [if ?b then _ else _] => destruct b end;
        cbn [length]; lia. }
  assert (H0 : at_call func arg (open_segment pre) P post 0
                 (Engine.substitute_constants self expression)).
  { exists P, post. repeat split; try lia; [|exact HcP].
    rewrite Hs. rewrite HP at 1. cbn [repeat_factor].
    rewrite append_nil_r, !append_assoc. reflexivity. }
  apply (passes_count func arg (open_segment pre) P post Hfunc Hne Harg Hseg
           Engine.trig_funcs 0 _ eq_refl) in H0.
  destruct H0 as (P' & Q' & HT & Hc' & Hn & Hl1 & Hl2).
  assert (Hp : Engine.preprocess (Engine.set_angle_mode degrees self) expression
               = (P' ++ open_segment pre)
                 ++ ("a" ++ func ++ "(" ++ arg
                     ++ repeat_factor (length (open_calls pre ("a" ++ func))) ++ ")")
                 ++ Q').
  { unfold Engine.preprocess. rewrite substitute_constants_mode, handle_degrees.
    rewrite HT. unfold open_calls. cbn [Nat.add]. rewrite !append_assoc. reflexivity. }
  split; [|split; [exact Hin|split; [exact Hk|split; [|repeat split]]]].
  - exists (P' ++ open_segment pre), Q'. split; [exact Hp|]. repeat split.
    + now apply open_segment_closed_app.
    + rewrite count_rparen_append, Hcnt. lia.
    + rewrite length_append, Hlen. lia.
    + exact Hl2.
  - intros E. apply (f_equal String.length) in E. revert E.
    unfold Engine.preprocess at 2. rewrite substitute_constants_mode, handle_radians.
    rewrite Hp, Hs.
    rewrite !length_append, repeat_factor_length, Hlen.
    cbn [String.length]. lia.
  - apply evaluate_of_value. assumption.
  - apply evaluate_of_value. assumption.
  - rewrite (evaluate_of_value sp _ "asin(0.5)" x), (evaluate_of_value sp _ "asin(0.5)" y)
      by assumption.
    intros E. inversion E. congruence.
Qed.

End AnyContext.

Lemma degree_rewrite_of_flat_expression_witness :
  Engine.preprocess (Engine.set_angle_mode degrees Engine.init) "2*sin(30)+cos(pi)"
    = "2*sin(30 * pi/180)+cos(3.141592653589793 * pi/180)"
  /\ (exists x' y',
        Engine.evaluate (Toy.sympy true) (Engine.set_angle_mode degrees Engine.init) "sin(90)"
          = Ok (PyFloat x')
        /\ Engine.evaluate (Toy.sympy true) (Engine.set_angle_mode radians Engine.init)
             "sin(pi/2)" = Ok (PyFloat y')
        /\ PyNum.close x' y' = true)
  /\ Engine.evaluate (Toy.sympy true) (Engine.set_angle_mode degrees Engine.init) "cos(0)"
       = Ok (PyFloat 1).
Proof.
  destruct (DegreeRewrite.degree_rewrite_of_flat_expression
              (Toy.sympy true) Engine.init "2*sin(30)+cos(pi)"
              [Shape.Chr "2"; Shape.Chr "*"; Shape.Call "sin" "30"; Shape.Chr "+";
               Shape.Call "cos" "3.141592653589793"]
              eq_refl eq_refl) as (H1 & _ & H90 & _ & Hcos).
  split; [exact H1|]. split.
  - apply (H90 1%float 1%float).
    + exists (Toy.TInteger 1), (Toy.TFloat 1). repeat split.
    + exists (Toy.TFloat 1), (Toy.TFloat 1). repeat split.
    + reflexivity.
  - apply (Hcos 1%float).
    + exists (Toy.TInteger 1), (Toy.TFloat 1). repeat split.
    + exists (Toy.TInteger 1), (Toy.TFloat 1). repeat split.
Defined.

Lemma inverse_trig_argument_gets_factor_witness :
  (exists (pre' post' : string),
     Engine.preprocess (Engine.set_angle_mode degrees Engine.init) "1+cos(2*asin(x))*2"
       = pre' ++ ("a" ++ "sin" ++ "(" ++ "x" ++ Shape.repeat_factor 2 ++ ")") ++ post'
     /\ Shape.open_segment pre' = "1+cos(2*"
     /\ Shape.count_rparen pre' = 0
     /\ 8 <= String.length pre'
     /\ 3 <= String.length post')
  /\ Engine.evaluate (Toy.sympy true) (Engine.set_angle_mode degrees Engine.init) "asin(0.5)"
     <> Engine.evaluate (Toy.sympy true) (Engine.set_angle_mode radians Engine.init) "asin(0.5)".
Proof.
  destruct (AnyContext.inverse_trig_argument_gets_factor
              (Toy.sympy true) Engine.init "1+cos(2*asin(x))*2" "1+cos(2*" "sin" "x" ")*2"
              eq_refl ltac:(discriminate) eq_refl eq_refl)
    as (H & _ & _ & _ & _ & _ & _ & Hv).
  split; [exact H|].
  apply (Hv 0x1.1df55803507aep-7%float 0x1.0c152382d7366p-1%float).
  - exists (Toy.TFloat 0x1.1df55803507aep-7), (Toy.TFloat 0x1.1df55803507aep-7).
    repeat split.
  - exists (Toy.TFloat 0x1.0c152382d7366p-1), (Toy.TFloat 0x1.0c152382d7366p-1).
    repeat split.
  - intros E. apply (f_equal (fun f => PrimFloat.eqb f 0x1.0c152382d7366p-1)) in E.
    vm_compute in E. discriminate E.
Defined.

(** ** Constant substitution, word by word *)

Module WordFacts.
Import PyStr StrFacts ScanFacts Shape Words.

Lemma untokenize_app (a b : list token) :
  untokenize (a ++ b)%list = untokenize a ++ untokenize b.
Proof.
  induction a as [|t a IH]; [reflexivity|].
  cbn [untokenize app]. now rewrite IH, append_assoc.
Qed.

Lemma untokenize_tokenize (s : string) : untokenize (tokenize s) = s.
Proof.
  induction s as [|c s IH]; [reflexivity|].
  cbn [tokenize]. destruct (is_word_char c).
  - destruct (tokenize s) as [|[w|d] ts]; cbn [untokenize token_text append] in *;
      now rewrite <- IH.
  - cbn [untokenize token_text append]. now rewrite IH.
Qed.

Lemma tokens_ok_tokenize (s : string) : tokens_ok (tokenize s) = true.
Proof.
  induction s as [|c s IH]; [reflexivity|].
  cbn [tokenize]. destruct (is_word_char c) eqn:Hc.
  - destruct (tokenize s) as [|[w|d] ts]; cbn [tokens_ok starts_with_word] in *;
      cbn [all_chars String.eqb]; rewrite Hc.
    + reflexivity.
    + rewrite !andb_true_iff in IH. destruct IH as [[[_ Hw] Hs] Hts].
      now rewrite Hw, Hs, Hts.
    + now rewrite IH.
  - cbn [tokens_ok]. now rewrite Hc, IH.
Qed.

(** The text behind a word does not go on with a word character. *)
Lemma after_word (ts : list token) :
  tokens_ok ts = true ->
  starts_with_word ts = false ->
  Re.is_word_opt (String.get 0 (untokenize ts)) = false.
Proof.
  destruct ts as [|[w|c] ts]; intros Hok Hs; [reflexivity|discriminate Hs|].
  cbn [tokens_ok] in Hok. apply andb_true_iff in Hok as [Hc _].
  cbn. now apply negb_true_iff in Hc.
Qed.

Lemma name_and_boundary_chars (d : ascii) (name w rest : string) :
  is_word_char d = true ->
  all_chars is_word_char name = true ->
  all_chars is_word_char w = true ->
  Re.is_word_opt (String.get 0 rest) = false ->
  String.prefix (String d name) (w ++ rest)
  && Re.word_boundary (String.get (String.length name) (w ++ rest))
                      (String.get (S (String.length name)) (w ++ rest))
  = String.eqb w (String d name).
Proof.
  intros Hd Hn Hw Hr. revert d w Hd Hw.
  induction name as [|e name IH]; intros d w Hd Hw.
  - destruct w as [|c w].
    + cbn [append String.eqb]. destruct rest as [|r rest]; [reflexivity|].
      rewrite prefix_cons. cbn in Hr.
      destruct (Ascii.eqb_spec d r) as [->|]; [congruence|reflexivity].
    + cbn [all_chars] in Hw. apply andb_true_iff in Hw as [Hc Hw].
      cbn [append String.eqb]. rewrite prefix_cons, prefix_nil, (Ascii.eqb_sym c d).
      destruct (Ascii.eqb d c); [|reflexivity].
      cbn [String.length String.get andb].
      unfold Re.word_boundary. cbn [Re.is_word_opt]. rewrite Hc.
      destruct w as [|c2 w]; cbn [append String.eqb].
      * now rewrite Hr.
      * cbn [all_chars] in Hw. apply andb_true_iff in Hw as [Hc2 _].
        cbn [String.get Re.is_word_opt]. now rewrite Hc2.
  - cbn [all_chars] in Hn. apply andb_true_iff in Hn as [He Hn].
    destruct w as [|c w].
    + cbn [append String.eqb]. destruct rest as [|r rest]; [reflexivity|].
      rewrite prefix_cons. cbn in Hr.
      destruct (Ascii.eqb_spec d r) as [->|]; [congruence|reflexivity].
    + cbn [all_chars] in Hw. apply andb_true_iff in Hw as [Hc Hw].
      cbn [append String.eqb]. rewrite prefix_cons, (Ascii.eqb_sym c d).
      destruct (Ascii.eqb d c); [|reflexivity].
      cbn [String.length String.get andb].
      exact (IH Hn e w He Hw).
Qed.

(** The name and the boundary behind it, tried on a word followed by
    something that is not a word character: they match exactly the word that
    is the name. *)
Lemma name_and_boundary (name w rest : string) :
  name <> "" ->
  all_chars is_word_char name = true ->
  all_chars is_word_char w = true ->
  Re.is_word_opt (String.get 0 rest) = false ->
  String.prefix name (w ++ rest)
  && Re.word_boundary (String.get (String.length name - 1) (w ++ rest))
                      (String.get (String.length name) (w ++ rest))
  = String.eqb w name.
Proof.
  intros Hne Hn Hw Hr. destruct name as [|d name]; [congruence|].
  cbn [all_chars] in Hn. apply andb_true_iff in Hn as [Hd Hn].
  cbn [String.length]. rewrite Nat.sub_1_r. cbn [Nat.pred].
  now apply name_and_boundary_chars.
Qed.

Section Pass.
Variables name repl : string.
Hypothesis Hne : name <> "".
Hypothesis Hname : all_chars is_word_char name = true.

Lemma name_first_is_word (c : ascii) (rest : string) :
  is_word_char c = false -> String.prefix name (String c rest) = false.
Proof.
  intros Hc. destruct name as [|d n]; [congruence|].
  rewrite prefix_cons. cbn [all_chars] in Hname.
  apply andb_true_iff in Hname as [Hd _].
  destruct (Ascii.eqb_spec d c) as [->|]; [congruence|reflexivity].
Qed.

Lemma word_pattern_at_sep (prev : option ascii) (c : ascii) (rest : string) :
  is_word_char c = false ->
  Re.word_pattern name repl prev (String c rest) = None.
Proof.
  intros Hc. unfold Re.word_pattern.
  now rewrite (name_first_is_word c rest Hc), andb_false_r.
Qed.

Lemma word_pattern_inside_word (prev : option ascii) (c : ascii) (rest : string) :
  Re.is_word_opt prev = true ->
  is_word_char c = true ->
  Re.word_pattern name repl prev (String c rest) = None.
Proof.
  intros Hp Hc. unfold Re.word_pattern, Re.word_boundary at 1.
  cbn [String.get Re.is_word_opt]. now rewrite Hp, Hc.
Qed.

Lemma scan_inside_word (w rest : string) (prev : option ascii) :
  all_chars is_word_char w = true ->
  Re.is_word_opt prev = true ->
  Re.scan (Re.word_pattern name repl) 0 prev (w ++ rest) =
    w ++ Re.scan (Re.word_pattern name repl) 0 (last_char prev w) rest.
Proof.
  revert prev; induction w as [|c w IH]; intros prev Hw Hp; [reflexivity|].
  cbn [all_chars] in Hw. apply andb_true_iff in Hw as [Hc Hw].
  cbn [append Re.scan last_char]. rewrite (word_pattern_inside_word _ _ _ Hp Hc).
  now rewrite IH.
Qed.

Lemma word_pattern_at_word (prev : option ascii) (w rest : string) :
  w <> "" ->
  all_chars is_word_char w = true ->
  Re.is_word_opt prev = false ->
  Re.is_word_opt (String.get 0 rest) = false ->
  Re.word_pattern name repl prev (w ++ rest) =
    if String.eqb w name then Some (repl, String.length name) else None.
Proof.
  intros Hw0 Hw Hp Hr. unfold Re.word_pattern.
  rewrite <- andb_assoc, (name_and_boundary name w rest Hne Hname Hw Hr).
  unfold Re.word_boundary. rewrite Hp.
  destruct w as [|c w]; [congruence|]. cbn [all_chars] in Hw.
  apply andb_true_iff in Hw as [Hc _]. cbn [append String.get Re.is_word_opt].
  now rewrite Hc.
Qed.

Lemma last_char_word (prev : option ascii) (w : string) :
  w <> "" -> all_chars is_word_char w = true -> Re.is_word_opt (last_char prev w) = true.
Proof.
  revert prev; induction w as [|c w IH]; intros prev Hw0 Hw; [congruence|].
  cbn [all_chars] in Hw. apply andb_true_iff in Hw as [Hc Hw]. cbn [last_char].
  destruct w as [|c2 w]; [exact Hc|]. apply IH; [discriminate|exact Hw].
Qed.

(** One pass of [re.sub] over a tokenized text replaces the words that are
    the name and copies everything else. *)
Lemma pass_on_tokens (ts : list token) (prev : option ascii) :
  tokens_ok ts = true ->
  negb (starts_with_word ts) || negb (Re.is_word_opt prev) = true ->
  Re.scan (Re.word_pattern name repl) 0 prev (untokenize ts) =
    untokenize (replace_tokens name [Word repl] ts).
Proof.
  revert prev; induction ts as [|[w|c] ts IH]; intros prev Hok Hprev.
  - reflexivity.
  - cbn [tokens_ok] in Hok. rewrite !andb_true_iff in Hok.
    destruct Hok as [[[Hw0 Hw] Hs] Hok].
    apply negb_true_iff in Hs.
    assert (Hw1 : w <> "") by (intros ->; discriminate Hw0).
    cbn [starts_with_word negb orb] in Hprev. apply negb_true_iff in Hprev.
    pose proof (after_word ts Hok Hs) as Hr.
    pose proof (word_pattern_at_word prev w (untokenize ts) Hw1 Hw Hprev Hr) as Hm.
    unfold replace_tokens. cbn [flat_map replace_token untokenize token_text].
    fold (replace_tokens name [Word repl] ts).
    destruct (String.eqb_spec w name) as [->|Hwn].
    + rewrite DegreeRewrite.scan_match with (repl := repl) by assumption.
      cbn [app untokenize token_text]. rewrite IH; [reflexivity|exact Hok|].
      now rewrite Hs.
    + destruct w as [|c w]; [congruence|].
      cbn [all_chars] in Hw. apply andb_true_iff in Hw as [Hc Hw].
      cbn [append] in Hm |- *. cbn [Re.scan]. rewrite Hm.
      rewrite scan_inside_word by assumption.
      cbn [app untokenize token_text append]. rewrite IH; [reflexivity|exact Hok|].
      now rewrite Hs.
  - cbn [tokens_ok] in Hok. apply andb_true_iff in Hok as [Hc Hok].
    apply negb_true_iff in Hc.
    unfold replace_tokens. cbn [flat_map replace_token untokenize token_text append app].
    fold (replace_tokens name [Word repl] ts).
    cbn [Re.scan]. rewrite (word_pattern_at_sep _ _ _ Hc).
    rewrite IH; [reflexivity|exact Hok|].
    cbn [Re.is_word_opt]. now rewrite Hc, orb_true_r.
Qed.

End Pass.

Lemma untokenize_replace (name : string) (r1 r2 : list token) (ts : list token) :
  untokenize r1 = untokenize r2 ->
  untokenize (replace_tokens name r1 ts) = untokenize (replace_tokens name r2 ts).
Proof.
  intros Hr. unfold replace_tokens.
  induction ts as [|[w|c] ts IH]; [reflexivity| |];
    cbn [flat_map replace_token]; rewrite !untokenize_app, IH; [|reflexivity].
  destruct (String.eqb w name); [now rewrite Hr|reflexivity].
Qed.

Lemma tokens_ok_app (a b : list token) :
  tokens_ok a = true -> tokens_ok b = true -> starts_with_word b = false ->
  tokens_ok (a ++ b)%list = true.
Proof.
  intros Ha Hb Hs. induction a as [|[w|c] a IH]; [exact Hb| |];
    cbn [app tokens_ok] in *; rewrite !andb_true_iff in *.
  - destruct Ha as [[[Hw0 Hw] Hsa] Ha]. repeat split; auto.
    destruct a as [|t a]; [cbn [app]; now rewrite Hs|exact Hsa].
  - destruct Ha as [Hc Ha]. split; auto.
Qed.

Lemma replace_tokens_ok (name : string) (r : list token) (ts : list token) :
  tokens_ok r = true -> starts_with_word r = true ->
  tokens_ok ts = true ->
  tokens_ok (replace_tokens name r ts) = true
  /\ starts_with_word (replace_tokens name r ts) = starts_with_word ts.
Proof.
  intros Hr Hrs. unfold replace_tokens.
  induction ts as [|[w|c] ts IH]; intros Hok; [now split| |];
    cbn [tokens_ok] in Hok; rewrite !andb_true_iff in Hok.
  - destruct Hok as [[[Hw0 Hw] Hs] Hok]. destruct (IH Hok) as [IH1 IH2].
    apply negb_true_iff in Hs.
    cbn [flat_map replace_token]. destruct (String.eqb w name).
    + split.
      * apply tokens_ok_app; [exact Hr|exact IH1|now rewrite IH2].
      * destruct r; [discriminate Hrs|exact Hrs].
    + cbn [app tokens_ok starts_with_word]. split; [|reflexivity].
      now rewrite Hw0, Hw, IH2, Hs, IH1.
  - destruct Hok as [Hc Hok]. destruct (IH Hok) as [IH1 _].
    cbn [flat_map replace_token app tokens_ok starts_with_word].
    split; [now rewrite Hc, IH1|reflexivity].
Qed.

Lemma replace_tokens_app (name : string) (r a b : list token) :
  replace_tokens name r (a ++ b) = (replace_tokens name r a ++ replace_tokens name r b)%list.
Proof. apply flat_map_app. Qed.

Lemma substitute_tokens_app (self : CalculatorEngine) (a b : list token) :
  substitute_tokens self (a ++ b) = (substitute_tokens self a ++ substitute_tokens self b)%list.
Proof.
  unfold substitute_tokens. revert a b.
  induction (constants self) as [|c l IH]; intros a b; [reflexivity|].
  cbn [fold_left]. now rewrite replace_tokens_app, IH.
Qed.

(** The names of the table are identifiers and the texts start with a word
    character. *)
Lemma init_table_ok :
  forallb (fun c => is_identifier (c_name c) && starts_with_word (tokenize (c_text c)))
          (constants Engine.init) = true.
Proof. reflexivity. Qed.

(** The loop of [evaluate] on a tokenized text is the loop on the tokens. *)
Lemma passes_on_tokens (self : CalculatorEngine) (ts : list token) :
  forallb (fun c => is_identifier (c_name c) && starts_with_word (tokenize (c_text c)))
          (constants self) = true ->
  tokens_ok ts = true ->
  Engine.substitute_constants self (untokenize ts) = untokenize (substitute_tokens self ts)
  /\ tokens_ok (substitute_tokens self ts) = true.
Proof.
  unfold Engine.substitute_constants, substitute_tokens.
  revert ts. induction (constants self) as [|c l IH]; intros ts Hl Hok; [now split|].
  cbn [forallb] in Hl. rewrite !andb_true_iff in Hl. destruct Hl as [[Hn Hs] Hl].
  assert (Hne : c_name c <> "") by (intros E; rewrite E in Hn; discriminate Hn).
  assert (Hw : all_chars is_word_char (c_name c) = true)
    by (unfold is_identifier in Hn; destruct (c_name c); [discriminate Hn|exact Hn]).
  cbn [fold_left]. unfold Re.sub at 2.
  rewrite (pass_on_tokens _ (c_text c) Hne Hw ts None Hok)
    by (cbn [Re.is_word_opt negb]; apply orb_true_r).
  rewrite (untokenize_replace _ [Word (c_text c)] (tokenize (c_text c)))
    by (cbn [untokenize token_text]; now rewrite append_nil_r, untokenize_tokenize).
  apply IH; [exact Hl|].
  now apply replace_tokens_ok; [apply tokens_ok_tokenize| |].
Qed.

Lemma substitute_word (w : string) :
  untokenize (substitute_tokens Engine.init [Word w]) = constant_text Engine.init w
  /\ substitute_tokens Engine.init (substitute_tokens Engine.init [Word w])
     = substitute_tokens Engine.init [Word w].
Proof.
  unfold substitute_tokens, constant_text, Engine.init, constants.
  cbn [fold_left find c_name c_text replace_tokens flat_map replace_token].
  destruct (String.eqb_spec w "pi") as [->|H1]; [split; reflexivity|].
  rewrite (String.eqb_sym "pi" w), (proj2 (String.eqb_neq w "pi") H1).
  cbn [app flat_map replace_token].
  destruct (String.eqb_spec w "e") as [->|H2]; [split; reflexivity|].
  rewrite (String.eqb_sym "e" w), (proj2 (String.eqb_neq w "e") H2).
  cbn [app flat_map replace_token].
  destruct (String.eqb_spec w "phi") as [->|H3]; [split; reflexivity|].
  rewrite (String.eqb_sym "phi" w), (proj2 (String.eqb_neq w "phi") H3).
  cbn [app flat_map replace_token].
  destruct (String.eqb_spec w "tau") as [->|H4]; [split; reflexivity|].
  rewrite (String.eqb_sym "tau" w), (proj2 (String.eqb_neq w "tau") H4).
  cbn [app flat_map replace_token].
  destruct (String.eqb_spec w "inf") as [->|H5]; [split; reflexivity|].
  rewrite (String.eqb_sym "inf" w), (proj2 (String.eqb_neq w "inf") H5).
  cbn [app flat_map replace_token untokenize token_text].
  split; [apply append_nil_r|].
  rewrite (proj2 (String.eqb_neq w "pi") H1). cbn [app flat_map replace_token].
  rewrite (proj2 (String.eqb_neq w "e") H2). cbn [app flat_map replace_token].
  rewrite (proj2 (String.eqb_neq w "phi") H3). cbn [app flat_map replace_token].
  rewrite (proj2 (String.eqb_neq w "tau") H4). cbn [app flat_map replace_token].
  rewrite (proj2 (String.eqb_neq w "inf") H5). reflexivity.
Qed.

Lemma substitute_tokens_words (ts : list token) :
  untokenize (substitute_tokens Engine.init ts) = substitute_words Engine.init ts
  /\ substitute_tokens Engine.init (substitute_tokens Engine.init ts)
     = substitute_tokens Engine.init ts.
Proof.
  induction ts as [|t ts [IH1 IH2]]; [split; reflexivity|].
  change (t :: ts) with ([t] ++ ts)%list.
  rewrite !substitute_tokens_app, untokenize_app, IH1, IH2.
  destruct t as [w|c].
  - destruct (substitute_word w) as [H1 H2]. now rewrite H1, H2.
  - split; reflexivity.
Qed.

(** X1. The constant loop of [evaluate] works word by word: read as its
    maximal runs of word characters and the characters between them, the
    expression comes out with every word that is a name of the table replaced
    by the decimal text of the constant, and every other word and every
    separator as it was. *)
Theorem substitute_constants_word_by_word (mode : AngleMode) (expression : string) :
  Engine.substitute_constants (Engine.set_angle_mode mode Engine.init) expression
    = substitute_words Engine.init (tokenize expression).
Proof.
  change (Engine.substitute_constants (Engine.set_angle_mode mode Engine.init) expression)
    with (Engine.substitute_constants Engine.init expression).
  rewrite <- (untokenize_tokenize expression) at 1.
  destruct (passes_on_tokens Engine.init (tokenize expression) init_table_ok
              (tokens_ok_tokenize expression)) as [H _].
  rewrite H. apply substitute_tokens_words.
Qed.

(** X2. Substituting the constants a second time changes nothing: the
    decimal texts contain no constant name, and [inf] is replaced by
    itself. *)
Theorem substitute_constants_idempotent (expression : string) :
  Engine.substitute_constants Engine.init
    (Engine.substitute_constants Engine.init expression)
  = Engine.substitute_constants Engine.init expression.
Proof.
  rewrite <- (untokenize_tokenize expression).
  destruct (passes_on_tokens Engine.init (tokenize expression) init_table_ok
              (tokens_ok_tokenize expression)) as [H Hok].
  rewrite H.
  destruct (passes_on_tokens Engine.init _ init_table_ok Hok) as [H' _].
  rewrite H'. f_equal. apply substitute_tokens_words.
Qed.

End WordFacts.

(** ** Constants at word boundaries *)

Module WordBoundary.
Import PyStr StrFacts Shape Words WordFacts.

Section WithSymPy.
Context (sp : SymPy).

(** C6. The constant loop replaces whole words only, in any expression and
    in both angle modes: read as its maximal runs of word characters and the
    characters between them, the expression has exactly the runs that are a
    name of the table replaced ([2*pi] has, [2*pie] and [piano+1] have not).
    [evaluate("pi")] returns the double pi, SymPy reading its decimal text
    back as that double.  An identifier that is not itself a name of the
    table, whatever names its text contains, reaches the parser as it is:
    [evaluate] fails when the parser fails on it, and when the parser makes a
    symbol of it [evaluate] ends in the failed lookup of the class
    ComplexNumber, or with that class at hand returns the symbol; a number is
    returned for it only if SymPy has that number for the identifier
    itself. *)
Theorem constants_are_whole_words (mode : AngleMode) :
  let eng := Engine.set_angle_mode mode Engine.init in
  (forall expression,
      Engine.substitute_constants eng expression
        = substitute_words Engine.init (tokenize expression))
  /\ Engine.substitute_constants eng "2*pi" = "2*3.141592653589793"
  /\ Engine.substitute_constants eng "2*pie" = "2*pie"
  /\ Engine.substitute_constants eng "piano+1" = "piano+1"
  /\ (Engine.evaluates_to sp "3.141592653589793" Engine.math_pi ->
      Engine.evaluate sp eng "pi" = Ok (PyFloat Engine.math_pi))
  /\ (forall w,
        is_identifier w = true ->
        is_constant_name Engine.init w = false ->
        Engine.preprocess eng w = w
        /\ (forall e,
              sympify sp w = Raise e ->
              Engine.evaluate sp eng w
                = Raise (mkExn MathError ("Error evaluating expression: " ++ exn_msg e)))
        /\ (forall parsed evaluated,
              sympify sp w = Ok parsed ->
              evalf sp parsed = Ok evaluated ->
              Engine.is_real_number sp evaluated = false ->
              match numbers_ComplexNumber sp with
              | None =>
                  Engine.evaluate sp eng w
                    = Raise (mkExn MathError
                        ("Error evaluating expression: "
                         ++ exn_msg Engine.AttributeError_ComplexNumber))
              | Some is_ComplexNumber =>
                  is_ComplexNumber evaluated = false ->
                  Engine.evaluate sp eng w = Ok (PyExpr evaluated)
              end)
        /\ (forall x,
              Engine.evaluate sp eng w = Ok (PyFloat x) -> Engine.evaluates_to sp w x)).
Proof.
  cbv zeta. split; [|split; [|split; [|split; [|split]]]].
  - intros expression.
    change (Engine.substitute_constants (Engine.set_angle_mode mode Engine.init) expression)
      with (Engine.substitute_constants Engine.init expression).
    rewrite <- (untokenize_tokenize expression) at 1.
    destruct (passes_on_tokens Engine.init (tokenize expression) init_table_ok
                (tokens_ok_tokenize expression)) as [H _].
    rewrite H. apply substitute_tokens_words.
  - reflexivity.
  - reflexivity.
  - reflexivity.
  - intros Hpi. apply evaluate_of_value.
    replace (Engine.preprocess (Engine.set_angle_mode mode Engine.init) "pi")
      with "3.141592653589793" by (destruct mode; reflexivity).
    exact Hpi.
  - intros w Hw Hn.
    pose proof (WholeWord.preprocess_identifier mode w Hw Hn) as Hp.
    split; [exact Hp|]. split; [|split].
    + intros e He. rewrite evaluate_unfold, Hp. unfold Engine.eval_text.
      rewrite He. reflexivity.
    + intros parsed evaluated Hs He Hr.
      destruct (numbers_ComplexNumber sp) as [is_C|] eqn:Hc.
      * intros Hx.
        apply (evaluate_classifies_with_class sp _ _ parsed evaluated is_C);
          rewrite ?Hp; assumption.
      * rewrite evaluate_unfold, Hp. unfold Engine.eval_text.
        rewrite Hs. cbn [bind]. rewrite He. cbn [bind].
        rewrite (classify_other _ _ Hr), Hc. reflexivity.
    + intros x. rewrite evaluate_unfold, Hp. unfold Engine.eval_text, Engine.evaluates_to.
      destruct (sympify sp w) as [parsed|e] eqn:Hs; cbn [bind try_except]; [|discriminate].
      destruct (evalf sp parsed) as [evaluated|e] eqn:He; cbn [bind try_except];
        [|discriminate].
      destruct (Engine.is_real_number sp evaluated) eqn:Hr.
      * rewrite (classify_real _ _ Hr).
        destruct (float_of_expr sp evaluated) as [f|e] eqn:Hf; cbn [bind try_except];
          [|discriminate].
        intros [= <-]. exists parsed, evaluated. repeat split; assumption.
      * rewrite (classify_other _ _ Hr).
        destruct (numbers_ComplexNumber sp) as [is_C|]; cbn [try_except]; [|discriminate].
        destruct (is_C evaluated); [|discriminate].
        destruct (complex_of_expr sp evaluated); cbn [bind try_except]; discriminate.
Qed.

End WithSymPy.
End WordBoundary.

Lemma constants_are_whole_words_witness :
  Engine.evaluate (Toy.sympy true) (Engine.set_angle_mode degrees Engine.init) "pi"
    = Ok (PyFloat Engine.math_pi)
  /\ Engine.preprocess (Engine.set_angle_mode degrees Engine.init) "pie" = "pie"
  /\ Engine.evaluate (Toy.sympy true) (Engine.set_angle_mode degrees Engine.init) "piano"
     = Ok (@PyExpr (Toy.sympy true) (Toy.TSymbol "piano")).
Proof.
  destruct (WordBoundary.constants_are_whole_words (Toy.sympy true) degrees)
    as (_ & _ & _ & _ & Hpi & Hw).
  split; [|split].
  - apply Hpi. exists (Toy.TFloat Engine.math_pi), (Toy.TFloat Engine.math_pi).
    repeat split.
  - apply (Hw "pie"); reflexivity.
  - apply (proj1 (proj2 (proj2 (Hw "piano" eq_refl eq_refl)))
             (Toy.TSymbol "piano") (Toy.TSymbol "piano")); reflexivity.
Defined.

(** ** The history file, for any number of entries *)

Module HistoryRoundTrip.
Import PyStr StrFacts Calculator HistoryShape HistoryFacts.

Lemma join_cons (e e' : string) (rest : list string) :
  join blank_line (e :: e' :: rest) = e ++ blank_line ++ join blank_line (e' :: rest).
Proof. reflexivity. Qed.

Lemma split_scan_nonempty (s : string) (k : nat) : split_scan blank_line k s <> [].
Proof.
  revert k; induction s as [|c s IH]; intros k; [discriminate|].
  cbn [split_scan]. destruct k as [|k]; [|apply IH].
  destruct (String.prefix blank_line (String c s)); [discriminate|].
  destruct (split_scan blank_line 0 s); discriminate.
Qed.

(** Separable entries come back from the text that joins them. *)
Lemma split_join (entries : list string) :
  separable entries = true ->
  filter (fun entry => negb (is_blank entry)) (split blank_line (join blank_line entries))
    = entries.
Proof.
  unfold split. induction entries as [|e [|e' rest] IH]; intros H.
  - reflexivity.
  - cbn [separable] in H. rewrite andb_true_r in H.
    apply andb_true_iff in H as [Hc Hb]. apply negb_true_iff in Hc.
    cbn [join]. rewrite (split_scan_last e Hc). cbn [filter]. now rewrite Hb.
  - change (separable (e :: e' :: rest))
      with (negb (contains blank_line e) && negb (is_blank e)
            && (negb (ends_with e newline) && separable (e' :: rest))) in H.
    apply andb_true_iff in H as [H Hr]. apply andb_true_iff in H as [Hc Hb].
    apply andb_true_iff in Hr as [He Hrest].
    apply negb_true_iff in Hc. apply negb_true_iff in He.
    rewrite join_cons, (split_scan_piece e _ Hc He). cbn [filter].
    rewrite Hb. f_equal. apply IH. exact Hrest.
Qed.

(** X3. A history of any length whose entries are separable (no entry
    contains the blank-line separator, none is blank, none but the last ends
    with a newline) and hold no carriage return comes back the same and in
    the same order from the file [save_history] writes, on either platform;
    and when [save_history] writes no file the history is empty. *)
Theorem history_round_trip_any_length (p : Platform) (m fresh : MemoryManager) :
  separable (history m) = true ->
  forallb no_carriage_return (history m) = true ->
  match save_history p m with
  | Some raw => history (load_history raw fresh) = history m
  | None => history m = []
  end.
Proof.
  intros H Hc. pose proof (load_of_save p m fresh Hc) as Hl.
  destruct (save_history p m) as [raw|]; [|exact Hl].
  rewrite Hl. unfold import_history, export_history. cbn [history set_history].
  now apply split_join.
Qed.

(** The head piece of a split and what follows it. *)
Lemma split_scan_shape (s : string) :
  exists p l,
    split_scan blank_line 0 s = p :: l
    /\ contains blank_line p = false
    /\ ((l = [] /\ s = p)
        \/ (exists s', s = p ++ blank_line ++ s'
                       /\ l = split_scan blank_line 0 s'
                       /\ ends_with p newline = false)).
Proof.
  induction s as [|c s IH].
  - exists "", []. repeat split. now left.
  - cbn [split_scan]. destruct (String.prefix blank_line (String c s)) eqn:Hp.
    + exists "", (split_scan blank_line 1 s). repeat split. right.
      rewrite blank_line_prefix in Hp. apply andb_true_iff in Hp as [Hc Hs].
      apply Ascii.eqb_eq in Hc. subst c.
      destruct s as [|d s]; [discriminate Hs|]. apply Ascii.eqb_eq in Hs. subst d.
      exists s. repeat split.
    + destruct IH as (p & l & Hsp & Hcp & Hl). rewrite Hsp.
      exists (String c p), l. split; [reflexivity|].
      assert (Hstart : String.prefix blank_line (String c p) = false).
      { rewrite blank_line_prefix in Hp |- *.
        destruct (Ascii.eqb newline c); [|reflexivity]. cbn [andb] in Hp |- *.
        destruct Hl as [[_ ->]|(s' & -> & _)]; [exact Hp|].
        destruct p as [|d p]; [reflexivity|exact Hp]. }
      split; [rewrite contains_unfold, Hstart, Hcp; reflexivity|].
      destruct Hl as [[-> ->]|(s' & -> & Hl & He)]; [now left|right].
      exists s'. repeat split; [exact Hl|].
      destruct p as [|d p]; [|exact He].
      cbn [ends_with]. rewrite blank_line_prefix in Hp.
      unfold blank_line in Hp. cbn [append] in Hp.
      rewrite Ascii.eqb_refl, andb_true_r in Hp. now rewrite Ascii.eqb_sym.
Qed.

Lemma split_pieces_ok (n : nat) (s : string) :
  String.length s <= n -> pieces_ok (split_scan blank_line 0 s) = true.
Proof.
  revert s; induction n as [|n IH]; intros s Hn.
  - destruct s; [reflexivity|simpl in Hn; lia].
  - destruct (split_scan_shape s) as (p & l & Hsp & Hcp & Hl). rewrite Hsp.
    cbn [pieces_ok]. rewrite Hcp. cbn [negb andb].
    destruct Hl as [[-> _]|(s' & Hs & -> & He)]; [reflexivity|].
    pose proof (split_scan_nonempty s' 0) as Hne.
    destruct (split_scan blank_line 0 s') as [|q l'] eqn:E; [congruence|].
    rewrite He, <- E. cbn [negb andb]. apply IH.
    subst s. rewrite !length_append in Hn. simpl in Hn. lia.
Qed.

Lemma filter_pieces_separable (l : list string) :
  pieces_ok l = true ->
  separable (filter (fun entry => negb (is_blank entry)) l) = true.
Proof.
  induction l as [|p l IH]; intros H; [reflexivity|].
  cbn [pieces_ok] in H. apply andb_true_iff in H as [Hc H].
  assert (Hl : pieces_ok l = true).
  { destruct l; [reflexivity|]. now apply andb_true_iff in H as [_ H]. }
  cbn [filter]. destruct (negb (is_blank p)) eqn:Hb; [|now apply IH].
  cbn [separable]. rewrite Hc, Hb, (IH Hl). cbn [andb].
  destruct (filter (fun entry => negb (is_blank entry)) l) as [|q f] eqn:E; [reflexivity|].
  destruct l as [|q' l']; [discriminate E|].
  apply andb_true_iff in H as [He _]. now rewrite He.
Qed.

(** X4. What [load_history] leaves in the log is always separable, so a
    loaded history goes through save and load unchanged, whatever the file
    it came from. *)
Theorem imported_history_is_stable (content : string) (fresh fresh' : MemoryManager) :
  let m := import_history content fresh in
  separable (history m) = true
  /\ history (import_history (export_history m) fresh') = history m.
Proof.
  intros m.
  assert (H : separable (history m) = true).
  { unfold m, import_history, split. cbn [history set_history].
    apply filter_pieces_separable, (split_pieces_ok (String.length content)). lia. }
  split; [exact H|]. clearbody m.
  unfold import_history, export_history. cbn [history set_history].
  now apply split_join.
Qed.

End HistoryRoundTrip.

(** ** The memory file across a restart *)

Module StartupFacts.
Import Calculator Startup.

Lemma item_of_data_of_item (items : list MemoryItem) :
  map item_of_data (map (fun item => (value item, expression item, timestamp item)) items)
    = items.
Proof.
  induction items as [|[v e t] items IH]; [reflexivity|].
  cbn [map item_of_data value expression timestamp]. now rewrite IH.
Qed.

(** X5. A program that starts on the file a successful [save_memory] has
    left has the items and the register of the moment of that save, and an
    empty history; without a memory file it starts with no item, the register
    0 and an empty history; when the file cannot be read it starts with these
    defaults and one line in the log; and when the items of the file do not
    unpack it starts with the register of the file, no item, and one line in
    the log.  Nothing is raised. *)
Theorem restart_restores_saved_memory (s : Session) :
  (io_error s = None ->
   stored_file (save_memory s)
     = Some (Readable (memory_register (memory_manager s))
               (Ok (data_items (memory_data (memory_manager s)))))
   /\ memory_manager (new_manager (stored_file (save_memory s)) (save_memory s))
      = {| memory := memory (memory_manager s);
           memory_register := memory_register (memory_manager s);
           history := [] |})
  /\ memory_manager (new_manager None s)
     = {| memory := []; memory_register := 0%float; history := [] |}
  /\ (forall msg,
        memory_manager (new_manager (Some (Unreadable msg)) s)
          = {| memory := []; memory_register := 0%float; history := [] |}
        /\ log (new_manager (Some (Unreadable msg)) s)
           = (log s ++ [("Error loading memory: " ++ msg)%string])%list)
  /\ (forall register e,
        memory_manager (new_manager (Some (Readable register (Raise e))) s)
          = {| memory := []; memory_register := register; history := [] |}
        /\ log (new_manager (Some (Readable register (Raise e))) s)
           = (log s ++ [("Error loading memory: " ++ exn_msg e)%string])%list).
Proof.
  split; [|split; [|split]].
  - intros Hio. unfold new_manager, load_memory, stored_file, save_memory. rewrite Hio.
    cbn. split; [reflexivity|]. now rewrite item_of_data_of_item.
  - reflexivity.
  - intros msg. split; reflexivity.
  - intros register e. split; reflexivity.
Qed.

Section WithRuntime.
Context (py : PyRuntime).

Lemma str_of_int_nonempty (z : Z) : PyNum.str_of_int z <> "".
Proof.
  unfold PyNum.str_of_int.
  destruct (Z.to_int z) as [d|d]; cbn.
  - destruct d; discriminate.
  - discriminate.
Qed.

(** X6. Storing and recalling brings back the number shown: when the result
    display shows the text of an integer that [float] reads as that integer,
    [memory_store] followed by the recall yields the same text; and after
    [memory_clear] the recall yields "0". *)
Theorem store_then_recall (now : string) (s : Session) (z : Z) (v : float) :
  result_display s = PyNum.str_of_int z ->
  float_of_str py (PyNum.str_of_int z) = Ok v ->
  PyNum.int_of_float v = Ok z ->
  PyNum.float_eq_int v z = true ->
  memory_recall_text py (memory_store py now s) = Ok (result_display s)
  /\ memory_recall_text py (memory_clear (memory_store py now s)) = Ok "0".
Proof.
  intros Hd Hf Hi He. split.
  2:{ unfold memory_recall_text.
      replace (memory_register (memory_manager (memory_clear (memory_store py now s))))
        with 0%float; [reflexivity|].
      unfold memory_clear, clear_memory, save_memory. cbn.
      now destruct (io_error (memory_store py now s)). }
  unfold memory_store. rewrite Hd.
  destruct (PyNum.str_of_int z) as [|c t] eqn:E; [now apply str_of_int_nonempty in E|].
  rewrite Hf. unfold memory_recall_text.
  replace (memory_register (memory_manager _)) with v.
  - rewrite Hi. cbn [bind]. rewrite He. congruence.
  - unfold add_to_memory, save_memory, update_register. cbn.
    now destruct (io_error s).
Qed.

End WithRuntime.
End StartupFacts.

Lemma store_then_recall_witness :
  Calculator.memory_recall_text Toy.runtime
    (Calculator.memory_store Toy.runtime "2026-01-01 00:00:00" Toy.session)
  = Ok "5".
Proof.
  apply (proj1 (StartupFacts.store_then_recall Toy.runtime "2026-01-01 00:00:00"
                  Toy.session 5 5%float eq_refl eq_refl eq_refl eq_refl)).
Defined.

Lemma restart_restores_saved_memory_witness :
  let s := Calculator.memory_store Toy.runtime "2026-01-01 00:00:00" Toy.session in
  memory_manager (Startup.new_manager (Startup.stored_file (Calculator.save_memory s))
                    (Calculator.save_memory s))
    = {| memory := [ {| value := 5%float; expression := "2+3";
                        timestamp := "2026-01-01 00:00:00" |} ];
         memory_register := 5%float;
         history := [] |}.
Proof.
  apply (proj1 (StartupFacts.restart_restores_saved_memory
                  (Calculator.memory_store Toy.runtime "2026-01-01 00:00:00" Toy.session))
           eq_refl).
Defined.

Lemma history_round_trip_any_length_witness :
  match Calculator.save_history Calculator.windows
          {| memory := []; memory_register := 0%float;
             history := ["1+1 = 2"; "2*3 = 6"; "7-2 = 5"] |} with
  | Some raw =>
      history (Calculator.load_history raw Toy.manager) = ["1+1 = 2"; "2*3 = 6"; "7-2 = 5"]
  | None => ["1+1 = 2"; "2*3 = 6"; "7-2 = 5"] = []
  end.
Proof.
  apply (HistoryRoundTrip.history_round_trip_any_length Calculator.windows
           {| memory := []; memory_register := 0%float;
              history := ["1+1 = 2"; "2*3 = 6"; "7-2 = 5"] |} Toy.manager eq_refl eq_refl).
Defined.

(** ** Editing the entry field *)

Module EditingFacts.
Import PyStr StrFacts Calculator Editing.

Lemma take_append_exact (n : nat) (a b : string) :
  String.length a = n -> take n (a ++ b) = a.
Proof.
  revert n; induction a as [|c a IH]; intros n H; subst n; cbn.
  - now destruct b.
  - now rewrite IH.
Qed.

Lemma drop_append_exact (n k : nat) (a b : string) :
  String.length a = n -> drop (n + k) (a ++ b) = drop k b.
Proof.
  revert n; induction a as [|c a IH]; intros n H; subst n; cbn; [reflexivity|].
  now apply IH.
Qed.

Lemma drop_append_whole (n : nat) (a b : string) :
  String.length a = n -> drop n (a ++ b) = b.
Proof.
  intros H. replace n with (n + 0) by lia. now rewrite (drop_append_exact n 0 a b H).
Qed.

Lemma min_within (p n : nat) : p <= n -> Nat.min p n = p.
Proof. lia. Qed.

Lemma take_whole (s : string) : take (String.length s) s = s.
Proof. induction s as [|c s IH]; simpl; [reflexivity|now rewrite IH]. Qed.

Lemma drop_whole (s : string) : drop (String.length s) s = "".
Proof. induction s as [|c s IH]; simpl; [reflexivity|exact IH]. Qed.

Lemma lstrip_before_char (a : string) (c : ascii) :
  is_space c = false -> lstrip (a ++ String c "") = lstrip a ++ String c "".
Proof.
  intros Hc. induction a as [|d a IH]; cbn [append lstrip].
  - now rewrite Hc.
  - destruct (is_space d); [exact IH|reflexivity].
Qed.

Lemma rstrip_before_char (a : string) (c : ascii) :
  is_space c = false -> rstrip (a ++ String c "") = a ++ String c "".
Proof.
  intros Hc. induction a as [|d a IH]; cbn [append rstrip].
  - now rewrite Hc.
  - rewrite IH. now destruct a.
Qed.

Lemma strip_before_char (a : string) (c : ascii) :
  is_space c = false -> strip (a ++ String c "") = lstrip a ++ String c "".
Proof.
  intros Hc. unfold strip. rewrite lstrip_before_char by exact Hc.
  now apply rstrip_before_char.
Qed.

Lemma waiting_chars_no_space (c : ascii) :
  existsb (Ascii.eqb c) waiting_chars = true -> is_space c = false.
Proof.
  unfold waiting_chars. cbn [existsb]. rewrite !orb_true_iff.
  intros H. repeat destruct H as [H|H]; try discriminate;
    apply Ascii.eqb_eq in H; subst c; reflexivity.
Qed.

Section WithLibraries.
Context (py : PyRuntime) (sp : SymPy).

Lemma evaluate_as_you_type_display (s : Session) :
  display (evaluate_as_you_type py sp s) = display s.
Proof.
  unfold evaluate_as_you_type.
  destruct (strip (display s)) as [|c t]; [reflexivity|].
  destruct (last_char None (String c t)) as [d|]; [|reflexivity].
  destruct (existsb (Ascii.eqb d) waiting_chars); [reflexivity|].
  now destruct (bind _ _).
Qed.

Lemma refresh_display (w : Window) :
  display (win_session (refresh py sp w)) = display (win_session w)
  /\ win_cursor (refresh py sp w) = win_cursor w
  /\ win_selection (refresh py sp w) = win_selection w.
Proof. unfold refresh. cbn. now rewrite evaluate_as_you_type_display. Qed.

(** X10. Typing a character and pressing backspace leaves the text and the
    cursor of the entry field as they were, wherever the cursor stands. *)
Theorem type_then_backspace (c : ascii) (w : Window) :
  win_cursor w <= String.length (display (win_session w)) ->
  let w' := backspace py sp (add_to_display py sp (String c "") w) in
  display (win_session w') = display (win_session w)
  /\ win_cursor w' = win_cursor w.
Proof.
  intros Hc. cbv zeta.
  set (t := display (win_session w)) in *. set (p := win_cursor w) in *.
  assert (Hp : String.length (take p t) = p) by now apply length_take.
  assert (Hlen : String.length (take p t ++ String c "" ++ drop p t) = S (String.length t)).
  { rewrite <- (take_drop p t) at 3. rewrite !length_append. simpl. lia. }
  assert (H1 : display (win_session (add_to_display py sp (String c "") w))
               = take p t ++ String c "" ++ drop p t).
  { unfold add_to_display. now rewrite (proj1 (refresh_display _)). }
  assert (H2 : win_cursor (add_to_display py sp (String c "") w) = S p).
  { unfold add_to_display. rewrite (proj1 (proj2 (refresh_display _))). cbn.
    fold t p. cbn [append] in Hlen. rewrite Hlen. lia. }
  unfold backspace. rewrite H2, H1.
  destruct (refresh_display (set_display
    (take p (take p t ++ String c "" ++ drop p t)
     ++ drop (S p) (take p t ++ String c "" ++ drop p t)) p
    (add_to_display py sp (String c "") w))) as (Hd & Hcur & _).
  rewrite Hd, Hcur. cbn [set_display win_session win_cursor with_display display].
  rewrite (take_append_exact p _ _ Hp).
  replace (S p) with (p + 1) by lia.
  rewrite (drop_append_exact p 1 _ _ Hp). cbn [append drop].
  rewrite take_drop. split; [reflexivity|]. fold t. lia.
Qed.

(** X11. [insert_function] with a selection puts the name and a pair of
    parentheses around the selected text and leaves the text before and
    behind the selection alone, with the cursor in front of the name; without
    a selection it writes the name and an empty pair of parentheses at the
    cursor and leaves the cursor between the two parentheses. *)
Theorem insert_function_wraps (func_name : string) (w : Window) :
  let t := display (win_session w) in
  (forall first last,
      win_selection w = Some (first, last) ->
      first <= last -> last <= String.length t ->
      display (win_session (insert_function py sp func_name w))
        = take first t ++ (func_name ++ "(" ++ take (last - first) (drop first t) ++ ")")
            ++ drop last t
      /\ win_cursor (insert_function py sp func_name w) = first)
  /\ (win_selection w = None ->
      win_cursor w <= String.length t ->
      let w' := insert_function py sp func_name w in
      take (win_cursor w') (display (win_session w'))
        = take (win_cursor w) t ++ func_name ++ "("
      /\ drop (win_cursor w') (display (win_session w'))
         = String ")" (drop (win_cursor w) t)).
Proof.
  cbv zeta. split.
  - intros first last Hsel Hfl Hl. unfold insert_function. rewrite Hsel.
    destruct (refresh_display (set_display
      (take first (take first (display (win_session w)) ++ drop last (display (win_session w)))
       ++ (func_name ++ "(" ++ take (last - first) (drop first (display (win_session w))) ++ ")")
       ++ drop first (take first (display (win_session w))
                      ++ drop last (display (win_session w)))) first w))
      as (Hd & Hcur & _).
    rewrite Hd, Hcur. cbn [set_display win_session win_cursor with_display display].
    assert (Hp : String.length (take first (display (win_session w))) = first)
      by (apply length_take; lia).
    rewrite (take_append_exact first _ _ Hp).
    rewrite (drop_append_whole first _ _ Hp).
    split; [reflexivity|]. rewrite !length_append, Hp. lia.
  - intros Hsel Hc. unfold insert_function. rewrite Hsel.
    set (t := display (win_session w)) in *. set (p := win_cursor w) in *.
    destruct (refresh_display (set_display
      (take p t ++ (func_name ++ "()") ++ drop p t) (p + String.length func_name + 1) w))
      as (Hd & Hcur & _).
    rewrite Hd, Hcur. cbn [set_display win_session win_cursor with_display display].
    assert (Hp : String.length (take p t) = p) by now apply length_take.
    assert (E : take p t ++ (func_name ++ "()") ++ drop p t
                = (take p t ++ func_name ++ "(") ++ String ")" (drop p t)).
    { rewrite !append_assoc. reflexivity. }
    assert (Hl : String.length (take p t ++ func_name ++ "(") = p + String.length func_name + 1).
    { rewrite !length_append, Hp. simpl. lia. }
    rewrite E, min_within by (rewrite length_append, Hl; lia).
    split.
    + now apply take_append_exact.
    + now apply drop_append_whole.
Qed.

Lemma preview_waits (s : Session) (a : string) (c : ascii) :
  strip (display s) = a ++ String c "" ->
  existsb (Ascii.eqb c) waiting_chars = true ->
  evaluate_as_you_type py sp s = s.
Proof.
  intros Hs Hw. unfold evaluate_as_you_type. rewrite Hs.
  destruct (a ++ String c "") as [|d t] eqn:E; [destruct a; discriminate|].
  rewrite <- E, last_char_append. cbn [last_char]. now rewrite Hw.
Qed.

(** X8. Outside PROGRAMMER mode, for a text without white space at its
    ends whose last character is none of the characters the preview waits
    after, the preview shows exactly the text that [calculate] shows when
    the evaluation succeeds, and is blank exactly when [calculate] shows an
    error.  (In PROGRAMMER mode [calculate] does not use the engine, and the
    two differ.) *)
Theorem preview_agrees_with_calculate (s : Session) (c : ascii) :
  strip (display s) = display s ->
  last_char None (display s) = Some c ->
  existsb (Ascii.eqb c) waiting_chars = false ->
  match (r <- Engine.evaluate sp (engine s) (display s) ;; result_str py r) with
  | Ok text =>
      result_display (evaluate_as_you_type py sp s) = text
      /\ result_display (calculate py sp s) = text
  | Raise e =>
      result_display (evaluate_as_you_type py sp s) = ""
      /\ result_display (calculate py sp s) = "Error: " ++ exn_msg e
  end.
Proof.
  intros Hs Hl Hw. unfold evaluate_as_you_type, calculate. rewrite Hs.
  destruct (display s) as [|d t] eqn:Ed; [discriminate|].
  rewrite Hl, Hw.
  destruct (bind _ _) as [text|e]; split; reflexivity.
Qed.

(** X9. When one of the characters [+ - * / ^ ( %] is typed at the end of
    the text, the preview keeps what it showed before, whatever the text
    is. *)
Theorem typing_operator_keeps_preview (c : ascii) (w : Window) :
  existsb (Ascii.eqb c) waiting_chars = true ->
  win_cursor w = String.length (display (win_session w)) ->
  result_display (win_session (add_to_display py sp (String c "") w))
    = result_display (win_session w).
Proof.
  intros Hw Hc. pose proof (waiting_chars_no_space c Hw) as Hsp.
  unfold add_to_display, refresh, set_display. cbn [win_session with_session].
  rewrite Hc, take_whole, drop_whole. cbn [append].
  rewrite (preview_waits _ (lstrip (display (win_session w))) c); [reflexivity| |exact Hw].
  cbn [display with_display]. now apply strip_before_char.
Qed.

(** X12. Without a selection, [negate] puts a minus sign in front of the
    text or removes the one that is there; applied twice to a text that does
    not start with two minus signs it gives the text back, and the cursor
    too unless it stood at the very start. *)
Theorem negate_twice (w : Window) :
  win_selection w = None ->
  String.prefix "--" (display (win_session w)) = false ->
  exists w1 w2,
    negate py sp w = Ok w1 /\ negate py sp w1 = Ok w2
    /\ (display (win_session w1) = String "-" (display (win_session w))
        \/ display (win_session w) = String "-" (display (win_session w1)))
    /\ display (win_session w2) = display (win_session w)
    /\ (0 < win_cursor w -> win_cursor w2 = win_cursor w).
Proof.
  intros Hsel Hpre.
  assert (Hneg : forall v : Window, win_selection v = None ->
            exists v', negate py sp v = Ok v' /\ win_selection v' = None
              /\ ((exists rest, display (win_session v) = String "-" rest
                     /\ display (win_session v') = rest
                     /\ win_cursor v' = win_cursor v - 1)
                  \/ (String.prefix "-" (display (win_session v)) = false
                      /\ display (win_session v') = String "-" (display (win_session v))
                      /\ win_cursor v' = win_cursor v + 1))).
  { intros v Hv. unfold negate. rewrite Hv.
    destruct (display (win_session v)) as [|d t] eqn:E.
    - eexists; split; [reflexivity|].
      destruct (refresh_display {| win_session := with_display "-" (win_session v);
        win_cursor := win_cursor v + 1; win_selection := None;
        win_operation_pressed := win_operation_pressed v |}) as (Hd & Hcur & Hs).
      rewrite Hd, Hcur, Hs. cbn. split; [reflexivity|]. right. repeat split; reflexivity || exact Hp.
    - destruct (Ascii.eqb d "-") eqn:Ed.
      + apply Ascii.eqb_eq in Ed. subst d.
        eexists; split; [reflexivity|].
        destruct (refresh_display {| win_session := with_display t (win_session v);
          win_cursor := win_cursor v - 1; win_selection := None;
          win_operation_pressed := win_operation_pressed v |}) as (Hd & Hcur & Hs).
        rewrite Hd, Hcur, Hs. cbn. split; [reflexivity|]. left. exists t. repeat split; reflexivity.
      + assert (Hp : String.prefix "-" (String d t) = false).
        { rewrite prefix_cons, Ascii.eqb_sym, Ed. reflexivity. }
        assert (negate_plain :
          match String d t with
          | String "-" rest =>
              Ok (refresh py sp {| win_session := with_display rest (win_session v);
                     win_cursor := win_cursor v - 1; win_selection := None;
                     win_operation_pressed := win_operation_pressed v |})
          | _ =>
              Ok (refresh py sp {| win_session := with_display (String "-" (String d t)) (win_session v);
                     win_cursor := win_cursor v + 1; win_selection := None;
                     win_operation_pressed := win_operation_pressed v |})
          end
          = Ok (refresh py sp {| win_session := with_display (String "-" (String d t)) (win_session v);
                     win_cursor := win_cursor v + 1; win_selection := None;
                     win_operation_pressed := win_operation_pressed v |})).
        { destruct d as [[] [] [] [] [] [] [] []]; try reflexivity. discriminate Ed. }
        eexists; split; [exact negate_plain|].
        destruct (refresh_display {| win_session := with_display (String "-" (String d t)) (win_session v);
          win_cursor := win_cursor v + 1; win_selection := None;
          win_operation_pressed := win_operation_pressed v |}) as (Hd & Hcur & Hs).
        rewrite Hd, Hcur, Hs. cbn. split; [reflexivity|]. right. repeat split; reflexivity || exact Hp. }
  destruct (Hneg w Hsel) as (w1 & H1 & Hs1 & Hcase1).
  destruct (Hneg w1 Hs1) as (w2 & H2 & _ & Hcase2).
  exists w1, w2. split; [exact H1|]. split; [exact H2|].
  destruct Hcase1 as [(rest & Ew & Ew1 & Hc1)|(Hp & Ew1 & Hc1)].
  - rewrite Ew in Hpre. rewrite prefix_cons in Hpre.
    change (Ascii.eqb "-" "-") with true in Hpre. cbn [andb] in Hpre.
    destruct Hcase2 as [(rest' & Ew1' & _)|(Hp2 & Ew2 & Hc2)].
    + rewrite Ew1 in Ew1'. rewrite Ew1', prefix_cons, prefix_nil in Hpre.
      discriminate Hpre.
    + split; [right; now rewrite Ew, Ew1|]. split; [now rewrite Ew2, Ew1, Ew|]. lia.
  - destruct Hcase2 as [(rest' & Ew1' & Ew2 & Hc2)|(Hp2 & _)].
    + rewrite Ew1 in Ew1'. injection Ew1' as <-.
      split; [left; exact Ew1|]. split; [exact Ew2|]. lia.
    + rewrite Ew1, prefix_cons, prefix_nil in Hp2. discriminate Hp2.
Qed.

End WithLibraries.
End EditingFacts.

(** ** The expression cleaned for PROGRAMMER mode *)

Module ProgrammerFacts.
Import PyStr StrFacts Calculator Programmer.

Lemma scan_keep (prev : option ascii) (s : string) :
  Re.scan disallowed_pattern 0 prev s = keep allowed_char s.
Proof.
  revert prev; induction s as [|c s IH]; intros prev; [reflexivity|].
  cbn [Re.scan disallowed_pattern keep].
  destruct (allowed_char c); cbn [append Nat.sub]; now rewrite IH.
Qed.

Lemma keep_all (p : ascii -> bool) (s : string) : all_chars p (keep p s) = true.
Proof.
  induction s as [|c s IH]; [reflexivity|]. cbn [keep].
  destruct (p c) eqn:E; [cbn [all_chars]; now rewrite E|exact IH].
Qed.

Lemma keep_unchanged (p : ascii -> bool) (s : string) :
  all_chars p s = true -> keep p s = s.
Proof.
  induction s as [|c s IH]; [reflexivity|]. cbn [all_chars keep].
  intros H. apply andb_true_iff in H as [Hc Hs]. now rewrite Hc, IH.
Qed.

Lemma all_chars_without (p : ascii -> bool) (c : ascii) (s : string) :
  p c = false -> all_chars p s = true -> contains (String c "") s = false.
Proof.
  intros Hc. induction s as [|d s IH]; [reflexivity|].
  cbn [all_chars]. intros H. apply andb_true_iff in H as [Hd Hs].
  change (contains (String c "") (String d s))
    with (String.prefix (String c "") (String d s) || contains (String c "") s).
  rewrite prefix_cons, (IH Hs), orb_false_r.
  destruct (Ascii.eqb c d) eqn:E; [|reflexivity].
  apply Ascii.eqb_eq in E. congruence.
Qed.

Lemma safe_expr_keep (e : string) : safe_expr e = keep allowed_char e.
Proof. apply scan_keep. Qed.

Lemma safe_expr_all (e : string) : all_chars allowed_char (safe_expr e) = true.
Proof. rewrite safe_expr_keep. apply keep_all. Qed.

Lemma safe_expr_idem (e : string) : safe_expr (safe_expr e) = safe_expr e.
Proof. rewrite (safe_expr_keep (safe_expr e)). apply keep_unchanged, safe_expr_all. Qed.

(** X7. In PROGRAMMER mode the text given to [eval] is the typed text
    without the characters outside the class of the pattern, in their
    order: it holds characters of the class only, cleaning it again changes
    nothing, and no [x], [o], point, underscore or quote is left in it, so
    the prefixes [0x] and [0o] of a typed number never reach [eval]. *)
Theorem safe_expr_keeps_the_class (expression : string) :
  safe_expr expression = keep allowed_char expression
  /\ all_chars allowed_char (safe_expr expression) = true
  /\ safe_expr (safe_expr expression) = safe_expr expression
  /\ Forall (fun c => contains (String c "") (safe_expr expression) = false)
       ["x"; "X"; "o"; "O"; "."; "_"; "'"; "034"; ","; "="; "["; "]"]%char.
Proof.
  pose proof (safe_expr_all expression) as A.
  split; [apply safe_expr_keep|]. split; [exact A|]. split; [apply safe_expr_idem|].
  repeat constructor; apply (all_chars_without allowed_char); solve [reflexivity | exact A].
Qed.

Section WithEval.
Context (ev : PyEval).

(** X13. In PROGRAMMER mode the characters outside the class have no part
    in the result: as long as something of the typed text is left, the
    result shown is the one of the cleaned text, while the entry of the
    history holds the text as it was typed. *)
Theorem programmer_result_ignores_other_characters
    (number_system expression : string) (s : Session) :
  safe_expr expression <> "" ->
  let typed := calculate_programmer ev number_system (Editing.with_display expression s) in
  let cleaned :=
    calculate_programmer ev number_system (Editing.with_display (safe_expr expression) s) in
  result_display typed = result_display cleaned
  /\ status_var typed = status_var cleaned
  /\ forall text, programmer_result_str ev number_system expression = Ok text ->
       history (memory_manager typed)
         = (history (memory_manager s) ++ [(expression ++ " = " ++ text)%string])%list
       /\ history (memory_manager cleaned)
         = (history (memory_manager s)
              ++ [(safe_expr expression ++ " = " ++ text)%string])%list.
Proof.
  intros Hne. cbv zeta.
  assert (Hidem : safe_expr (safe_expr expression) = safe_expr expression)
    by apply safe_expr_idem.
  assert (Hr : programmer_result_str ev number_system (safe_expr expression)
               = programmer_result_str ev number_system expression).
  { unfold programmer_result_str. now rewrite Hidem. }
  unfold calculate_programmer. cbn [display Editing.with_display].
  destruct expression as [|c e] eqn:Ee; [now elim Hne|]. rewrite <- Ee in *.
  destruct (safe_expr expression) as [|d t] eqn:Es; [now elim Hne|]. rewrite <- Es in *.
  rewrite Hr.
  destruct (programmer_result_str ev number_system expression) as [text|e'].
  - split; [reflexivity|]. split; [reflexivity|].
    intros text' [= <-]. split; reflexivity.
  - split; [reflexivity|]. split; [reflexivity|]. discriminate.
Qed.

End WithEval.
End ProgrammerFacts.

Lemma preview_agrees_with_calculate_witness :
  result_display
    (Editing.evaluate_as_you_type Toy.runtime (Toy.sympy true)
       (Editing.with_display "2+2" Toy.session)) = "4"
  /\ result_display
       (Calculator.calculate Toy.runtime (Toy.sympy true)
          (Editing.with_display "2+2" Toy.session)) = "4".
Proof.
  exact (EditingFacts.preview_agrees_with_calculate Toy.runtime (Toy.sympy true)
           (Editing.with_display "2+2" Toy.session) "2" eq_refl eq_refl eq_refl).
Defined.

Lemma typing_operator_keeps_preview_witness :
  result_display
    (win_session (Editing.add_to_display Toy.runtime (Toy.sympy true) "+" ToyWindow.window))
  = "5".
Proof.
  exact (EditingFacts.typing_operator_keeps_preview Toy.runtime (Toy.sympy true) "+"
           ToyWindow.window eq_refl eq_refl).
Defined.

Lemma type_then_backspace_witness :
  display (win_session
             (Editing.backspace Toy.runtime (Toy.sympy true)
                (Editing.add_to_display Toy.runtime (Toy.sympy true) "4" ToyWindow.window)))
    = "2+3"
  /\ win_cursor
       (Editing.backspace Toy.runtime (Toy.sympy true)
          (Editing.add_to_display Toy.runtime (Toy.sympy true) "4" ToyWindow.window))
     = 3.
Proof.
  apply (EditingFacts.type_then_backspace Toy.runtime (Toy.sympy true) "4" ToyWindow.window).
  simpl. lia.
Defined.

Lemma insert_function_wraps_witness :
  (display (win_session
              (Editing.insert_function Toy.runtime (Toy.sympy true) "sqrt" ToyWindow.selected))
     = "sqrt(2+3)"
   /\ win_cursor (Editing.insert_function Toy.runtime (Toy.sympy true) "sqrt" ToyWindow.selected)
      = 0)
  /\ (PyStr.take
        (win_cursor (Editing.insert_function Toy.runtime (Toy.sympy true) "sqrt" ToyWindow.window))
        (display (win_session
           (Editing.insert_function Toy.runtime (Toy.sympy true) "sqrt" ToyWindow.window)))
      = "2+3sqrt("
     /\ PyStr.drop
          (win_cursor (Editing.insert_function Toy.runtime (Toy.sympy true) "sqrt" ToyWindow.window))
          (display (win_session
             (Editing.insert_function Toy.runtime (Toy.sympy true) "sqrt" ToyWindow.window)))
        = ")").
Proof.
  split.
  - apply (proj1 (EditingFacts.insert_function_wraps Toy.runtime (Toy.sympy true) "sqrt"
                    ToyWindow.selected) 0 3 eq_refl); simpl; lia.
  - apply (proj2 (EditingFacts.insert_function_wraps Toy.runtime (Toy.sympy true) "sqrt"
                    ToyWindow.window) eq_refl); simpl; lia.
Defined.

Lemma negate_twice_witness :
  exists w1 w2,
    Editing.negate Toy.runtime (Toy.sympy true) ToyWindow.window = Ok w1
    /\ Editing.negate Toy.runtime (Toy.sympy true) w1 = Ok w2
    /\ (display (win_session w1) = "-2+3" \/ "2+3" = String "-" (display (win_session w1)))
    /\ display (win_session w2) = "2+3"
    /\ (0 < 3 -> win_cursor w2 = 3).
Proof.
  exact (EditingFacts.negate_twice Toy.runtime (Toy.sympy true) ToyWindow.window
           eq_refl eq_refl).
Defined.

Lemma programmer_result_ignores_other_characters_witness :
  result_display
    (Programmer.calculate_programmer ToyWindow.evaluator "DEC"
       (Editing.with_display "1+2;" Toy.session))
  = result_display
      (Programmer.calculate_programmer ToyWindow.evaluator "DEC"
         (Editing.with_display "1+2" Toy.session)).
Proof.
  apply (ProgrammerFacts.programmer_result_ignores_other_characters ToyWindow.evaluator
           "DEC" "1+2;" Toy.session).
  discriminate.
Defined.

(** ** The history that calculations record *)

Module RecordedHistory.
Import PyStr StrFacts Calculator HistoryShape.

Lemma single_line_chars (e : string) :
  single_line e = true ->
  all_chars (fun c => negb (Ascii.eqb c newline)) e = true
  /\ no_carriage_return e = true.
Proof.
  unfold single_line, no_carriage_return.
  induction e as [|c e IH]; [now split|].
  cbn [all_chars]. intros H. apply andb_true_iff in H as [Hc He].
  apply andb_true_iff in Hc as [Hn Hr]. destruct (IH He) as [IH1 IH2].
  now rewrite Hn, Hr, IH1, IH2.
Qed.

Lemma single_line_no_blank_line (e : string) :
  single_line e = true -> contains blank_line e = false.
Proof.
  intros H. apply single_line_chars in H as [H _].
  induction e as [|c e IH]; [reflexivity|].
  cbn [all_chars] in H. apply andb_true_iff in H as [Hc He].
  change (contains blank_line (String c e))
    with (String.prefix blank_line (String c e) || contains blank_line e).
  rewrite (IH He), orb_false_r. unfold blank_line. rewrite prefix_cons.
  rewrite Ascii.eqb_sym. apply negb_true_iff in Hc. now rewrite Hc.
Qed.

Lemma single_line_no_final_newline (e : string) :
  single_line e = true -> ends_with e newline = false.
Proof.
  intros H. apply single_line_chars in H as [H _].
  induction e as [|c e IH]; [reflexivity|].
  cbn [all_chars] in H. apply andb_true_iff in H as [Hc He].
  destruct e as [|d e]; [now apply negb_true_iff in Hc|].
  exact (IH He).
Qed.

Lemma single_lines_separable (entries : list string) :
  forallb (fun e => single_line e && negb (is_blank e)) entries = true ->
  separable entries = true /\ forallb no_carriage_return entries = true.
Proof.
  induction entries as [|e rest IH]; [now split|].
  cbn [forallb]. intros H. apply andb_true_iff in H as [He Hrest].
  apply andb_true_iff in He as [Hl Hb]. destruct (IH Hrest) as [IH1 IH2].
  split.
  - cbn [separable]. rewrite (single_line_no_blank_line e Hl), Hb.
    destruct rest as [|e' rest]; [reflexivity|].
    rewrite (single_line_no_final_newline e Hl). now rewrite IH1.
  - now rewrite (proj2 (single_line_chars e Hl)), IH2.
Qed.

Lemma record_all_history (records : list (string * string)) (m : MemoryManager) :
  history (record_all records m)
    = (history m
       ++ map (fun r => (fst r ++ " = " ++ snd r)%string) records)%list.
Proof.
  revert m; induction records as [|r records IH]; intros m.
  - cbn. now rewrite app_nil_r.
  - cbn [record_all fold_left map]. fold (record_all records (add_to_history (fst r) (snd r) m)).
    rewrite IH. unfold add_to_history. cbn [history set_history].
    now rewrite <- app_assoc.
Qed.

(** X14. A log recorded by [add_to_history] after [clear_history], from
    expressions and results of one line each (no newline, no carriage
    return), holds the entries in the order of recording and is read back by
    [load_history] from the file [save_history] writes, entry for entry, on
    either platform: the equals sign keeps an entry from being blank, and
    without a newline no entry can hold or complete the separator; when
    [save_history] writes no file nothing was recorded. *)
Theorem recorded_history_round_trip
    (p : Platform) (records : list (string * string)) (m fresh : MemoryManager) :
  forallb (fun r => single_line (fst r) && single_line (snd r)) records = true ->
  let recorded := record_all records (clear_history m) in
  history recorded = map (fun r => (fst r ++ " = " ++ snd r)%string) records
  /\ match save_history p recorded with
     | Some raw => history (load_history raw fresh) = history recorded
     | None => records = []
     end.
Proof.
  intros H. cbv zeta.
  assert (Hh : history (record_all records (clear_history m))
               = map (fun r => (fst r ++ " = " ++ snd r)%string) records)
    by (rewrite record_all_history; reflexivity).
  split; [exact Hh|].
  assert (Hs : forallb (fun e => single_line e && negb (is_blank e))
                 (history (record_all records (clear_history m))) = true).
  { rewrite Hh. clear Hh. induction records as [|r records IH]; [reflexivity|].
    cbn [forallb map] in *. apply andb_true_iff in H as [Hr Hrest].
    apply andb_true_iff in Hr as [He Hres].
    rewrite (IH Hrest), andb_true_r, HistoryFacts.entry_not_blank, andb_true_r.
    unfold single_line in *. rewrite !all_chars_append, He, Hres. reflexivity. }
  apply single_lines_separable in Hs as [Hsep Hcr].
  pose proof (HistoryFacts.load_of_save p _ fresh Hcr) as Hl.
  destruct (save_history p (record_all records (clear_history m))) as [raw|].
  - rewrite Hl. unfold import_history, export_history. cbn [history set_history].
    now apply HistoryRoundTrip.split_join.
  - rewrite Hh in Hl. now destruct records.
Qed.

End RecordedHistory.

Lemma recorded_history_round_trip_witness :
  match Calculator.save_history Calculator.windows
          (HistoryShape.record_all [("1+1", "2"); ("2*3", "6"); ("7-2", "5")]
             (Calculator.clear_history Toy.manager)) with
  | Some raw =>
      history (Calculator.load_history raw Toy.manager)
        = ["1+1 = 2"; "2*3 = 6"; "7-2 = 5"]
  | None => [("1+1", "2"); ("2*3", "6"); ("7-2", "5")] = []
  end.
Proof.
  apply (proj2 (RecordedHistory.recorded_history_round_trip Calculator.windows
                  [("1+1", "2"); ("2*3", "6"); ("7-2", "5")] Toy.manager Toy.manager
                  eq_refl)).
Defined.
